(** * Profolia media ingestion: a shallow embedding of the upload pipeline

    The development follows the TypeScript sources of the backend:

    - [backend/src/services/aws.service.ts]: [uploadToS3], [deleteFromS3],
      [generateMediaKey];
    - [backend/src/services/ai.service.ts]: [analyzeMedia];
    - [backend/src/controllers/media.controller.ts]: [uploadMediaFile],
      [uploadZipArchive], [deleteMediaAsset], [getMimeType];
    - the media controller of the design documents: [uploadArchive].

    JavaScript strings are modelled by [string] (their UTF-8 bytes), with
    case mapping acting on the ASCII letters and, for upper case, on the
    dotless i; integers by [Z]; buffers by
    [list byte]; exceptions by an explicit error type, threaded with the
    state of the external collaborators (Object Store, Record Store,
    classifier service) through a state-and-error monad. What the
    collaborators answer is a parameter of every handler. *)

From Stdlib Require Import ZArith NArith Ascii String Lia Bool.
From Stdlib.Strings Require Import Byte.
From stdpp Require Import base tactics option list strings pretty gmap.

Local Open Scope string_scope.
Local Open Scope list_scope.
Local Open Scope Z_scope.

(** ** JavaScript strings *)

Module JsString.

Definition chars (s : string) : list ascii := list_ascii_of_string s.
Definition ofChars (l : list ascii) : string := string_of_list_ascii l.

(** [String.prototype.toLowerCase] on the ASCII letters. No character
    outside ASCII has a lower case that spells one of the extensions
    compared below, so the other characters are left as they are. *)
Definition lowerChar (c : ascii) : ascii :=
  let n := N_of_ascii c in
  if ((65 <=? n) && (n <=? 90))%N then ascii_of_N (n + 32) else c.

Definition upperChar (c : ascii) : ascii :=
  let n := N_of_ascii c in
  if ((97 <=? n) && (n <=? 122))%N then ascii_of_N (n - 32) else c.

Definition toLowerCase (s : string) : string := ofChars (map lowerChar (chars s)).

(** [String.prototype.toUpperCase] on strings held in UTF-8: the ASCII
    letters and, outside ASCII, the dotless i (U+0131, bytes 196 177),
    whose upper case is the ASCII letter I. The other characters outside
    ASCII are left as they are; what is stated about upper case below is
    stated for ASCII strings and for the dotless i. *)
Fixpoint upperChars (l : list ascii) : list ascii :=
  match l with
  | [] => []
  | a :: l' =>
    match l' with
    | b :: l'' =>
      if Ascii.eqb a "196" && Ascii.eqb b "177" then "I"%char :: upperChars l''
      else upperChar a :: upperChars l'
    | [] => [upperChar a]
    end
  end.

Definition toUpperCase (s : string) : string := ofChars (upperChars (chars s)).

(** [s.slice(from, to)] with JavaScript's treatment of negative and
    out-of-range indices. *)
Definition sliceChars (from to : Z) (l : list ascii) : list ascii :=
  let len := Z.of_nat (length l) in
  let k := if from <? 0 then Z.max (len + from) 0 else Z.min from len in
  let final := if to <? 0 then Z.max (len + to) 0 else Z.min to len in
  take (Z.to_nat (final - k)) (drop (Z.to_nat k) l).

Definition slice (from to : Z) (s : string) : string :=
  ofChars (sliceChars from to (chars s)).

(** [s.startsWith(p)] *)
Definition startsWith (p s : string) : bool := String.prefix p s.

(** [list.includes(x)] on an array of strings. *)
Definition includes (l : list string) (x : string) : bool :=
  existsb (String.eqb x) l.

(** [s.endsWith(p)] *)
Definition endsWith (p s : string) : bool :=
  String.prefix (ofChars (rev (chars p))) (ofChars (rev (chars s))).

Fixpoint isPrefixChars (p l : list ascii) : bool :=
  match p, l with
  | [], _ => true
  | _ :: _, [] => false
  | a :: p', b :: l' => Ascii.eqb a b && isPrefixChars p' l'
  end.

(** [sep] occurs in [l] at one of the first [n] + 1 positions. *)
Fixpoint occursWithin (sep : list ascii) (n : nat) (l : list ascii) : bool :=
  isPrefixChars sep l
  || match n, l with
     | S n', _ :: l' => occursWithin sep n' l'
     | _, _ => false
     end.

(** [s.split(sep)] for a non-empty separator: the pieces between the
    successive, non-overlapping occurrences of [sep], scanning from the
    left. [skip] counts the characters of a matched separator still to be
    passed over, [cur] holds the current piece, reversed. *)
Fixpoint splitChars_go (sep : list ascii) (skip : nat) (cur l : list ascii)
  : list (list ascii) :=
  match l with
  | [] => [rev cur]
  | c :: l' =>
    match skip with
    | S k => splitChars_go sep k cur l'
    | O =>
      if isPrefixChars sep l
      then rev cur :: splitChars_go sep (Nat.pred (length sep)) [] l'
      else splitChars_go sep 0 (c :: cur) l'
    end
  end.

Definition split (sep s : string) : list string :=
  map ofChars (splitChars_go (chars sep) 0 [] (chars s)).

(** [array.pop()] read as an expression: the last element, [undefined]
    on an empty array. *)
Definition pop (l : list string) : option string := last l.

(** [s.trim()] for the ASCII white space and line terminators. *)
Definition isWhiteSpace (c : ascii) : bool :=
  let n := N_of_ascii c in
  (((9 <=? n) && (n <=? 13)) || (n =? 32))%N.

Fixpoint trimStartChars (l : list ascii) : list ascii :=
  match l with
  | c :: l' => if isWhiteSpace c then trimStartChars l' else l
  | [] => []
  end.

Definition trim (s : string) : string :=
  ofChars (rev (trimStartChars (rev (trimStartChars (chars s))))).

(** [buffer.toString('hex')]: two lower-case hexadecimal digits a byte. *)
Definition hexDigit (n : N) : ascii :=
  match n with
  | 0 => "0" | 1 => "1" | 2 => "2" | 3 => "3" | 4 => "4" | 5 => "5"
  | 6 => "6" | 7 => "7" | 8 => "8" | 9 => "9" | 10 => "a" | 11 => "b"
  | 12 => "c" | 13 => "d" | 14 => "e" | _ => "f"
  end%N%char.

Definition hexOfByte (b : byte) : list ascii :=
  let n := Byte.to_N b in [hexDigit (n / 16); hexDigit (n mod 16)]%N.

Definition toHexChars (bs : list byte) : list ascii := flat_map hexOfByte bs.

Definition toStringHex (bs : list byte) : string := ofChars (toHexChars bs).

(** The value of a hexadecimal digit and [Buffer.from(s, 'hex')] on one
    pair of digits: the inverse of [hexOfByte]. *)
Definition hexValue (c : ascii) : N :=
  let n := N_of_ascii c in
  (if (48 <=? n) && (n <=? 57) then n - 48
   else if (97 <=? n) && (n <=? 102) then n - 87
   else 0)%N.

Definition byteOfHex (l : list ascii) : option byte :=
  match l with
  | [hi; lo] => Byte.of_N (16 * hexValue hi + hexValue lo)
  | _ => None
  end.

(** The text after the last ['.'] of a name, if it has one. *)
Fixpoint afterLastDot (l : list ascii) : option (list ascii) :=
  match l with
  | [] => None
  | c :: l' =>
    match afterLastDot l' with
    | Some e => Some e
    | None => if Ascii.eqb "." c then Some l' else None
    end
  end.

End JsString.

(** ** Node's [path.extname] (POSIX flavour), imported by the controller *)

Module Path.
Import JsString.

Record extname_state := {
  startDot : Z;
  startPart : Z;
  end_ : Z;
  matchedSlash : bool;
  preDotState : Z
}.

Definition extname_init : extname_state :=
  {| startDot := -1; startPart := 0; end_ := -1;
     matchedSlash := true; preDotState := 0 |}.

(** One pass of [for (let i = path.length - 1; i >= 0; --i)]: [cs] holds
    [path[i]], [path[i-1]], ..., [path[0]]. *)
Fixpoint extname_loop (cs : list ascii) (i : Z) (st : extname_state) : extname_state :=
  match cs with
  | [] => st
  | code :: cs' =>
    if Ascii.eqb code "/" then
      if negb (matchedSlash st) then
        (* break *)
        {| startDot := startDot st; startPart := i + 1; end_ := end_ st;
           matchedSlash := matchedSlash st; preDotState := preDotState st |}
      else (* continue *) extname_loop cs' (i - 1) st
    else
      let st1 :=
        if end_ st =? -1 then
          {| startDot := startDot st; startPart := startPart st; end_ := i + 1;
             matchedSlash := false; preDotState := preDotState st |}
        else st in
      let st2 :=
        if Ascii.eqb code "." then
          if startDot st1 =? -1 then
            {| startDot := i; startPart := startPart st1; end_ := end_ st1;
               matchedSlash := matchedSlash st1; preDotState := preDotState st1 |}
          else if negb (preDotState st1 =? 1) then
            {| startDot := startDot st1; startPart := startPart st1; end_ := end_ st1;
               matchedSlash := matchedSlash st1; preDotState := 1 |}
          else st1
        else if negb (startDot st1 =? -1) then
          {| startDot := startDot st1; startPart := startPart st1; end_ := end_ st1;
             matchedSlash := matchedSlash st1; preDotState := -1 |}
        else st1 in
      extname_loop cs' (i - 1) st2
  end.

Definition extname_scan (l : list ascii) : extname_state :=
  extname_loop (rev l) (Z.of_nat (length l) - 1) extname_init.

Definition extname_empty (st : extname_state) : bool :=
  (startDot st =? -1) || (end_ st =? -1) || (preDotState st =? 0)
  || ((preDotState st =? 1) && (startDot st =? end_ st - 1)
      && (startDot st =? startPart st + 1)).

Definition extnameChars (l : list ascii) : list ascii :=
  let st := extname_scan l in
  if extname_empty st then [] else sliceChars (startDot st) (end_ st) l.

Definition extname (path : string) : string := ofChars (extnameChars (chars path)).

End Path.

(** ** Type resolution of the archive path (media.controller.ts) *)

Module TypeResolver.
Import JsString.

Definition supportedTypes : list string := ["image"; "video"; "audio"; "pdf"].

(** [supportedTypes.some(type => ...)] of [uploadZipArchive]. *)
Definition isSupportedType (ext : string) : bool :=
  existsb (fun type =>
    if String.eqb type "image" then includes [".jpg"; ".jpeg"; ".png"; ".gif"; ".webp"] ext
    else if String.eqb type "video" then includes [".mp4"; ".webm"; ".mov"; ".avi"] ext
    else if String.eqb type "audio" then includes [".mp3"; ".wav"; ".ogg"; ".m4a"] ext
    else if String.eqb type "pdf" then String.eqb ext ".pdf"
    else false) supportedTypes.

Definition mimeTypes : list (string * string) :=
  [ (".jpg", "image/jpeg"); (".jpeg", "image/jpeg"); (".png", "image/png");
    (".gif", "image/gif"); (".webp", "image/webp"); (".mp4", "video/mp4");
    (".webm", "video/webm"); (".mov", "video/quicktime"); (".avi", "video/x-msvideo");
    (".mp3", "audio/mpeg"); (".wav", "audio/wav"); (".ogg", "audio/ogg");
    (".m4a", "audio/mp4"); (".pdf", "application/pdf") ].

Definition mimeTable : gmap string string := list_to_map mimeTypes.

(** [mimeTypes[ext.toLowerCase()] || 'application/octet-stream']; the
    callers pass extensions, which start with a dot, so that no property
    inherited from [Object.prototype] is ever looked up. *)
Definition getMimeType (ext : string) : string :=
  match mimeTable !! toLowerCase ext with
  | Some m => if String.eqb m "" then "application/octet-stream" else m
  | None => "application/octet-stream"
  end.

(** The nested conditional that derives the media kind from a MIME type. *)
Definition fileTypeOf (mimeType : string) : string :=
  if startsWith "image" mimeType then "image"
  else if startsWith "video" mimeType then "video"
  else if startsWith "audio" mimeType then "audio"
  else "document".

(** Outcome of resolving an archive entry name, as the loop of
    [uploadZipArchive] does it: the lower-cased [path.extname], the
    supported-type test, then [getMimeType] and the kind. *)
Inductive resolution :=
| Resolved (kind contentType : string)
| UnsupportedType.

Definition resolveEntryType (fileName : string) : resolution :=
  let ext := toLowerCase (Path.extname fileName) in
  if negb (isSupportedType ext) then UnsupportedType
  else
    let mimeType := getMimeType ext in
    Resolved (fileTypeOf mimeType) mimeType.

(** The extension [.gif] written with a dotless i (U+0131) in UTF-8. *)
Definition dotlessGif : string :=
  ofChars ["."; "g"; "196"; "177"; "f"]%char.

End TypeResolver.

Import JsString Path TypeResolver.

(** ** JavaScript values and exceptions *)

#[local] Set Warnings "-register-all".

(** Values that travel through the pipeline untyped: what [JSON.parse]
    yields and what the controllers read with [x[0]], [x.category] and
    [||]. Numbers are represented by integers (only their truthiness is
    looked at); an object lists each of its own properties once. *)
Inductive js_value :=
| JUndefined
| JNull
| JBool (b : bool)
| JNum (n : Z)
| JStr (s : string)
| JArr (elems : list js_value)
| JObj (props : list (string * js_value)).

Inductive exn :=
| AppError (message : string) (statusCode : Z)
| JsError (name message : string).

Definition TypeError (message : string) : exn := JsError "TypeError" message.

(** [String(error)] *)
Definition String_of_exn (e : exn) : string :=
  match e with
  | AppError m _ => if String.eqb m "" then "Error" else "Error: " +:+ m
  | JsError n m =>
    if String.eqb m "" then n else if String.eqb n "" then m else n +:+ ": " +:+ m
  end.

Definition js_truthy (v : js_value) : bool :=
  match v with
  | JUndefined | JNull => false
  | JBool b => b
  | JNum n => negb (n =? 0)
  | JStr s => negb (String.eqb s "")
  | JArr _ | JObj _ => true
  end.

(** [a || b] *)
Definition js_or (a b : js_value) : js_value := if js_truthy a then a else b.

Fixpoint assoc (k : string) (ps : list (string * js_value)) : js_value :=
  match ps with
  | [] => JUndefined
  | (k', v) :: ps' => if String.eqb k k' then v else assoc k ps'
  end.

(** [v.k] for the data properties [category], [tags] and [description];
    reading a property of [null] or [undefined] raises a [TypeError]. *)
Definition js_get (v : js_value) (k : string) : exn + js_value :=
  match v with
  | JUndefined => inl (TypeError "Cannot read properties of undefined")
  | JNull => inl (TypeError "Cannot read properties of null")
  | JObj ps => inr (assoc k ps)
  | _ => inr JUndefined
  end.

(** [v[i]] for a non-negative index. *)
Definition js_index (v : js_value) (i : nat) : exn + js_value :=
  match v with
  | JUndefined => inl (TypeError "Cannot read properties of undefined")
  | JNull => inl (TypeError "Cannot read properties of null")
  | JArr l => inr (default JUndefined (l !! i))
  | JObj ps => inr (assoc (pretty i) ps)
  | JStr s =>
    inr (match chars s !! i with Some c => JStr (String c "") | None => JUndefined end)
  | JBool _ | JNum _ => inr JUndefined
  end.

(** ** Records of the data model *)

Record S3Object := {
  Bucket : string;
  Key : string;
  Body : list byte;
  ContentType : string;
  ACL : string
}.

Record Profile := {
  profile_id : string;
  profile_userId : string;
  username : string;
  professionType : string
}.

(** An element of the [fileData] batch handed to the classifier. *)
Record FileData := {
  fd_fileName : string;
  fd_fileType : string;
  fd_description : option string
}.

(** The [data] argument of [prisma.mediaAsset.create]. *)
Record MediaAssetData := {
  profileId : string;
  fileName : string;
  fileType : string;
  fileUrl : string;
  fileSize : Z;
  category : js_value;
  tags : js_value;
  metadata : js_value;
  displayOrder : option Z
}.

Record MediaAsset := {
  id : string;
  data : MediaAssetData
}.

(** A reply of the classifier service: [message.content] is a list of
    blocks, of which the adapter reads the first. *)
Inductive ContentBlock :=
| TextBlock (text : string)
| OtherBlock (type : string).

Record Message := { content : list ContentBlock }.

(** An entry of an opened archive (adm-zip's [IZipEntry]). *)
Record ZipEntry := {
  entryName : string;
  name : string;
  isDirectory : bool;
  getData : exn + list byte;
  header_size : Z
}.

(** ** The world of external collaborators *)

(** The Object Store holds the objects put so far, oldest first (a later
    put of a key shadows an earlier one); the Record Store holds the
    profiles and the media assets; [classifierCalls] records each request
    sent to the classifier service with its batch and domain hint; [clock]
    counts the interactions with the outside, so that the collaborators may
    answer differently from one call to the next. *)
Record World := {
  objectStore : list S3Object;
  mediaAssets : list MediaAsset;
  profiles : list Profile;
  classifierCalls : list (list FileData * string);
  clock : nat
}.

Definition tick (w : World) : World :=
  {| objectStore := objectStore w; mediaAssets := mediaAssets w;
     profiles := profiles w; classifierCalls := classifierCalls w;
     clock := S (clock w) |}.

Definition putObject (o : S3Object) (w : World) : World :=
  {| objectStore := objectStore w ++ [o]; mediaAssets := mediaAssets w;
     profiles := profiles w; classifierCalls := classifierCalls w;
     clock := clock w |}.

Definition deleteObject (k : option string) (w : World) : World :=
  {| objectStore := filter (fun o => Some (Key o) <> k) (objectStore w);
     mediaAssets := mediaAssets w;
     profiles := profiles w; classifierCalls := classifierCalls w;
     clock := clock w |}.

Definition insertAsset (a : MediaAsset) (w : World) : World :=
  {| objectStore := objectStore w; mediaAssets := mediaAssets w ++ [a];
     profiles := profiles w; classifierCalls := classifierCalls w;
     clock := clock w |}.

Definition removeAsset (i : string) (w : World) : World :=
  {| objectStore := objectStore w;
     mediaAssets := filter (fun a => id a <> i) (mediaAssets w);
     profiles := profiles w; classifierCalls := classifierCalls w;
     clock := clock w |}.

Definition logClassifierCall (c : list FileData * string) (w : World) : World :=
  {| objectStore := objectStore w; mediaAssets := mediaAssets w;
     profiles := profiles w; classifierCalls := classifierCalls w ++ [c];
     clock := clock w |}.

(** What the outside decides: configuration, time and randomness, whether
    a call to the Object Store, the classifier service or the Record Store
    succeeds, how an archive opens, and the JSON built-ins. *)
Class Collaborators := {
  env_S3_BUCKET_NAME : option string;
  Date_now : World -> Z;
  crypto_randomBytes : World -> nat -> list byte;
  crypto_randomBytes_length : forall w n, length (crypto_randomBytes w n) = n;
  crypto_randomUUID : World -> string;
  s3Client_put_fails : World -> S3Object -> option exn;
  s3Client_delete_fails : World -> option string -> option exn;
  anthropic_messages_create : World -> list FileData -> string -> exn + Message;
  prisma_mediaAsset_create : World -> MediaAssetData -> exn + string;
  prisma_mediaAsset_delete_fails : World -> string -> option exn;
  AdmZip_getEntries : list byte -> exn + list ZipEntry;
  JSON_parse : string -> exn + js_value;
  JSON_stringify : js_value -> js_value
}.

(** ** The monad of handlers: state of the world, exceptions *)

Definition M (A : Type) : Type := World -> (exn + A) * World.

Definition ret {A} (a : A) : M A := fun w => (inr a, w).

Definition throw {A} (e : exn) : M A := fun w => (inl e, w).

Definition bind {A B} (m : M A) (k : A -> M B) : M B :=
  fun w =>
    match m w with
    | (inl e, w') => (inl e, w')
    | (inr a, w') => k a w'
    end.

(** [try { body } catch (error) { handler }]: what [body] did to the world
    before it threw stays done. *)
Definition try_catch {A} (body : M A) (handler : exn -> M A) : M A :=
  fun w =>
    match body w with
    | (inl e, w') => handler e w'
    | (inr a, w') => (inr a, w')
    end.

Definition lift {A} (r : exn + A) : M A :=
  match r with inl e => throw e | inr a => ret a end.

Notation "x <- m ; k" := (bind m (fun x => k))
  (at level 20, m at level 100, k at level 200, only parsing).

(** ** aws.service.ts *)

Section Services.
Context {collaborators : Collaborators}.

(** [process.env.S3_BUCKET_NAME || 'profolia-portfolios'] *)
Definition BUCKET_NAME : string :=
  match env_S3_BUCKET_NAME with
  | Some b => if String.eqb b "" then "profolia-portfolios" else b
  | None => "profolia-portfolios"
  end.

(** [s3Client.send(new PutObjectCommand(...))] *)
Definition s3Client_send_put (command : S3Object) : M unit :=
  fun w =>
    match s3Client_put_fails w command with
    | Some e => (inl e, tick w)
    | None => (inr tt, tick (putObject command w))
    end.

(** [s3Client.send(new DeleteObjectCommand(...))] *)
Definition s3Client_send_delete (key : option string) : M unit :=
  fun w =>
    match s3Client_delete_fails w key with
    | Some e => (inl e, tick w)
    | None => (inr tt, tick (deleteObject key w))
    end.

(** The template literal of [uploadToS3]'s return statement. *)
Definition objectUrl (bucket key : string) : string :=
  "https://" +:+ bucket +:+ ".s3.amazonaws.com/" +:+ key.

Definition uploadToS3 (key : string) (body : list byte) (contentType : string) : M string :=
  try_catch
    (let command :=
       {| Bucket := BUCKET_NAME; Key := key; Body := body;
          ContentType := contentType; ACL := "public-read" |} in
     _ <- s3Client_send_put command ;
     ret (objectUrl BUCKET_NAME key))
    (fun error => (* console.error *) throw error).

Definition deleteFromS3 (key : option string) : M unit :=
  try_catch
    (s3Client_send_delete key)
    (fun error => (* console.error *) throw error).

(** The template literal of [generateMediaKey], with the readings of the
    clock and of the random source made explicit;
    [fileName.split('.').pop()] is never [undefined], as [split] yields at
    least one piece. *)
Definition mediaKey (timestamp : Z) (randomBytes : list byte)
    (profileId fileName : string) : string :=
  let hash := toStringHex randomBytes in
  let extension := default "undefined" (pop (split "." fileName)) in
  "media/" +:+ profileId +:+ "/" +:+ pretty timestamp +:+ "-" +:+ hash
    +:+ "." +:+ extension.

Definition generateMediaKey (profileId fileName : string) : M string :=
  fun w =>
    let timestamp := Date_now w in
    let w1 := tick w in
    let bytes := crypto_randomBytes w1 8 in
    (inr (mediaKey timestamp bytes profileId fileName), tick w1).

(** ** ai.service.ts *)

(** [text.replace(/```json\n?|\n?```/g, '')]: at each position the first
    alternative is tried, then the second; a match is dropped and the scan
    resumes after it. *)
Definition fenceMatch (l : list ascii) : nat :=
  if isPrefixChars (chars "```json") l then
    match drop 7 l with
    | c :: _ => if Ascii.eqb c "010" then 8%nat else 7%nat
    | [] => 7%nat
    end
  else if isPrefixChars ("010"%char :: chars "```") l then 4%nat
  else if isPrefixChars (chars "```") l then 3%nat
  else 0%nat.

Fixpoint stripFencesChars (skip : nat) (l : list ascii) : list ascii :=
  match l with
  | [] => []
  | c :: l' =>
    match skip with
    | S k => stripFencesChars k l'
    | O =>
      match fenceMatch l with
      | O => c :: stripFencesChars 0 l'
      | S k => stripFencesChars k l'
      end
    end
  end.

Definition stripFences (text : string) : string :=
  ofChars (stripFencesChars 0 (chars text)).

(** [anthropic.messages.create(...)]: the request is determined by the batch
    and the profession, which the prompt interpolates. *)
Definition anthropic_create (fileData : list FileData) (professionType : string)
  : M Message :=
  fun w =>
    let w1 := tick (logClassifierCall (fileData, professionType) w) in
    match anthropic_messages_create w fileData professionType with
    | inl e => (inl e, w1)
    | inr m => (inr m, w1)
    end.

(** The body of [analyzeMedia], between [try] and [catch]. *)
Definition analyzeMedia_body (fileData : list FileData) (professionType : string)
  : M js_value :=
  message <- anthropic_create fileData professionType ;
  match content message !! 0%nat with
  | None => throw (TypeError "Cannot read properties of undefined (reading 'type')")
  | Some (TextBlock text) =>
    let cleanedText := trim (stripFences text) in
    lift (JSON_parse cleanedText)
  | Some (OtherBlock _) => ret (JArr [])
  end.

(** The deployed adapter: the [catch] clause logs and rethrows. *)
Definition analyzeMedia (fileData : list FileData) (professionType : string)
  : M js_value :=
  try_catch
    (analyzeMedia_body fileData professionType)
    (fun error => (* console.error *) throw error).

(** The design-document adapter has the same body and no [try]. *)
Definition analyzeMedia_design (fileData : list FileData) (professionType : string)
  : M js_value :=
  analyzeMedia_body fileData professionType.

End Services.

(** ** media.controller.ts *)

Record UploadedFile := {
  originalname : string;
  mimetype : string;
  buffer : list byte;
  size : Z
}.

Record Request := {
  userId : string;
  file : option UploadedFile;
  body_description : option string;
  params_mediaId : string
}.

(** An element of the [errors] array of [uploadZipArchive]. *)
Record FailedEntry := {
  failed_fileName : string;
  failed_error : string
}.

Record Summary := {
  total : nat;
  successful : nat;
  failed : nat
}.

Inductive ResponseBody :=
| UploadResult (message : string) (mediaAsset : MediaAsset) (s3Key : string)
| ZipResult (message : string) (uploadedAssets : list MediaAsset)
    (errors : option (list FailedEntry)) (summary : Summary)
| ArchiveResult (message : string) (assets : list MediaAsset)
| MessageOnly (message : string).

(** What a handler does with its request: [res.status(s).json(body)], or
    [next(error)], which hands the error to the error middleware. *)
Inductive Response :=
| Json (status : Z) (body : ResponseBody)
| Next (error : exn).

(** The [try { ... } catch (error) { next(error) }] frame of every handler. *)
Definition handle (body : M Response) : World -> Response * World :=
  fun w =>
    match body w with
    | (inl error, w') => (Next error, w')
    | (inr r, w') => (r, w')
    end.

(** [res.status(s).json(body)] in the deployed controllers. Express
    serialises the body with [JSON.stringify], which throws a [TypeError]
    on a BigInt. The deployed handlers write [fileSize] as [BigInt(...)],
    and the record that the Record Store hands back holds it as a BigInt:
    a body that holds a record is not sent, the exception is raised
    inside the [try] of the handler. [records] are the records that the
    body holds. *)
Definition bigIntError : exn := TypeError "Do not know how to serialize a BigInt".

Definition res_json (records : list MediaAsset) (response : Response) : M Response :=
  match records with
  | [] => ret response
  | _ :: _ => throw bigIntError
  end.

(** [for (const x of l) { acc = body(acc, x) }] *)
Fixpoint forOf {A B} (body : B -> A -> M B) (l : list A) (acc : B) : M B :=
  match l with
  | [] => ret acc
  | x :: l' => acc' <- body acc x ; forOf body l' acc'
  end.

(** [Promise.all(ms)]: the promises are started in index order and all run
    to their end; the result rejects when one of them does (with the
    rejection of lowest index). *)
Fixpoint promiseAll {A} (ms : list (M A)) : M (list A) :=
  fun w =>
    match ms with
    | [] => (inr [], w)
    | m :: ms' =>
      let '(r, w1) := m w in
      let '(rs, w2) := promiseAll ms' w1 in
      (match r, rs with
       | inl e, _ => inl e
       | inr _, inl e => inl e
       | inr a, inr l => inr (a :: l)
       end, w2)
    end.

(** The first profile of a user in the Record Store. *)
Definition profileOfUser (uid : string) (w : World) : option Profile :=
  List.find (fun p => String.eqb (profile_userId p) uid) (profiles w).

Section Controllers.
Context {collaborators : Collaborators}.

(** [prisma.profile.findFirst({ where: { userId } })] *)
Definition prisma_profile_findFirst (uid : string) : M (option Profile) :=
  fun w => (inr (profileOfUser uid w), tick w).

(** [prisma.profile.findUnique({ where: { id } })] *)
Definition prisma_profile_findUnique (pid : string) : M (option Profile) :=
  fun w => (inr (List.find (fun p => String.eqb (profile_id p) pid) (profiles w)), tick w).

(** [prisma.mediaAsset.findUnique({ where: { id } })] *)
Definition prisma_mediaAsset_findUnique (mid : string) : M (option MediaAsset) :=
  fun w => (inr (List.find (fun a => String.eqb (id a) mid) (mediaAssets w)), tick w).

(** [prisma.mediaAsset.create({ data })] *)
Definition prisma_create (d : MediaAssetData) : M MediaAsset :=
  fun w =>
    match prisma_mediaAsset_create w d with
    | inl e => (inl e, tick w)
    | inr i =>
      let a := {| id := i; data := d |} in
      (inr a, tick (insertAsset a w))
    end.

(** [prisma.mediaAsset.delete({ where: { id } })] *)
Definition prisma_delete (mid : string) : M unit :=
  fun w =>
    match prisma_mediaAsset_delete_fails w mid with
    | Some e => (inl e, tick w)
    | None => (inr tt, tick (removeAsset mid w))
    end.

(** The default of [analysis[0] || { ... }]. *)
Definition uncategorized (description : string) : js_value :=
  JObj [("category", JStr "Uncategorized"); ("tags", JArr []);
        ("description", JStr description)].

(** POST /api/media/upload *)
Definition uploadMediaFile (req : Request) : World -> Response * World :=
  handle (
    let userId := userId req in
    file <- match file req with
            | None => throw (AppError "No file provided" 400)
            | Some f => ret f
            end ;
    found <- prisma_profile_findFirst userId ;
    profile <- match found with
               | None => throw (AppError "Profile not found. Please create a profile first." 404)
               | Some p => ret p
               end ;
    s3Key <- generateMediaKey (profile_id profile) (originalname file) ;
    fileUrl <- uploadToS3 s3Key (buffer file) (mimetype file) ;
    let fileType := fileTypeOf (mimetype file) in
    analysis <- analyzeMedia
      [{| fd_fileName := originalname file; fd_fileType := fileType;
          fd_description := body_description req |}]
      (professionType profile) ;
    first <- lift (js_index analysis 0) ;
    let mediaData := js_or first (uncategorized (default "" (body_description req))) in
    category <- lift (js_get mediaData "category") ;
    tags <- lift (js_get mediaData "tags") ;
    mediaAsset <- prisma_create
      {| profileId := profile_id profile; fileName := originalname file;
         fileType := fileType; fileUrl := fileUrl; fileSize := size file;
         category := category; tags := JSON_stringify tags;
         metadata := JSON_stringify mediaData; displayOrder := None |} ;
    res_json [mediaAsset]
      (Json 201 (UploadResult "File uploaded successfully" mediaAsset s3Key))).

(** One turn of the loop of [uploadZipArchive] over the archive entries;
    the arrays [uploadedAssets] and [errors] are threaded through. Within
    the [try] block a push is the last thing done, so an exception leaves
    the arrays as they were at the start of the turn. *)
Definition zipEntryStep (profile : Profile)
    (acc : list MediaAsset * list FailedEntry) (entry : ZipEntry)
  : M (list MediaAsset * list FailedEntry) :=
  let '(uploadedAssets, errors) := acc in
  try_catch
    (if isDirectory entry then ret acc (* continue *)
     else
       let fileName := name entry in
       fileBuffer <- lift (getData entry) ;
       let ext := toLowerCase (extname fileName) in
       if negb (isSupportedType ext) then
         ret (uploadedAssets,
              errors ++ [{| failed_fileName := fileName;
                            failed_error := "Unsupported file type" |}])
       else
         s3Key <- generateMediaKey (profile_id profile) fileName ;
         let mimeType := getMimeType ext in
         fileUrl <- uploadToS3 s3Key fileBuffer mimeType ;
         let fileType := fileTypeOf mimeType in
         analysis <- analyzeMedia
           [{| fd_fileName := fileName; fd_fileType := fileType;
               fd_description := None |}]
           (professionType profile) ;
         first <- lift (js_index analysis 0) ;
         let mediaData := js_or first (uncategorized "") in
         category <- lift (js_get mediaData "category") ;
         tags <- lift (js_get mediaData "tags") ;
         mediaAsset <- prisma_create
           {| profileId := profile_id profile; fileName := fileName;
              fileType := fileType; fileUrl := fileUrl;
              fileSize := Z.of_nat (length fileBuffer);
              category := category; tags := JSON_stringify tags;
              metadata := JSON_stringify mediaData; displayOrder := None |} ;
         ret (uploadedAssets ++ [mediaAsset], errors))
    (fun fileError =>
       ret (uploadedAssets,
            errors ++ [{| failed_fileName := name entry;
                          failed_error := String_of_exn fileError |}])).

(** The response built after the loop, which the handler hands to
    [res.status(201).json]. *)
Definition zipResponse (uploadedAssets : list MediaAsset) (errors : list FailedEntry)
  : Response :=
  Json 201
    (ZipResult
       ("Uploaded " +:+ pretty (length uploadedAssets) +:+ " files from ZIP")
       uploadedAssets
       (if (0 <? length errors)%nat then Some errors else None)
       {| total := length uploadedAssets + length errors;
          successful := length uploadedAssets;
          failed := length errors |}).

(** POST /api/media/upload-zip *)
Definition uploadZipArchive (req : Request) : World -> Response * World :=
  handle (
    let userId := userId req in
    file <- match file req with
            | None => throw (AppError "No ZIP file provided" 400)
            | Some f => ret f
            end ;
    found <- prisma_profile_findFirst userId ;
    profile <- match found with
               | None => throw (AppError "Profile not found. Please create a profile first." 404)
               | Some p => ret p
               end ;
    zipEntries <- lift (AdmZip_getEntries (buffer file)) ;
    acc <- forOf (zipEntryStep profile) zipEntries ([], []) ;
    let '(uploadedAssets, errors) := acc in
    res_json uploadedAssets (zipResponse uploadedAssets errors)).

(** The key that [deleteMediaAsset] reads back from a stored URL:
    [fileUrl.split(`${process.env.S3_BUCKET_NAME}/`)[1]], [undefined] when
    the separator does not occur. *)
Definition s3KeyOfUrl (fileUrl : string) : option string :=
  split (default "undefined" env_S3_BUCKET_NAME +:+ "/") fileUrl !! 1%nat.

(** DELETE /api/media/:mediaId *)
Definition deleteMediaAsset (req : Request) : World -> Response * World :=
  handle (
    let userId := userId req in
    let mediaId := params_mediaId req in
    found <- prisma_mediaAsset_findUnique mediaId ;
    mediaAsset <- match found with
                  | None => throw (AppError "Media not found" 404)
                  | Some a => ret a
                  end ;
    owner <- prisma_profile_findUnique (profileId (data mediaAsset)) ;
    _ <- match owner with
         | None => throw (AppError "Unauthorized" 403)
         | Some p =>
           if negb (String.eqb (profile_userId p) userId)
           then throw (AppError "Unauthorized" 403) else ret tt
         end ;
    let s3Key := s3KeyOfUrl (fileUrl (data mediaAsset)) in
    _ <- deleteFromS3 s3Key ;
    _ <- prisma_delete mediaId ;
    ret (Json 200 (MessageOnly "Media deleted successfully"))).

End Controllers.

(** ** The media controller of the design documents (aws_media_service.ts) *)

(** An element of the [uploadedFiles] array of [uploadArchive]. *)
Record UploadedArchiveFile := {
  uf_fileName : string;
  uf_fileType : string;
  uf_fileUrl : string;
  uf_fileSize : Z
}.

(** The chain of [if]s that determines the MIME type in [uploadArchive]. *)
Definition archiveMimeType (fileExt : string) : string :=
  if includes [".jpg"; ".jpeg"] fileExt then "image/jpeg"
  else if String.eqb fileExt ".png" then "image/png"
  else if String.eqb fileExt ".gif" then "image/gif"
  else if String.eqb fileExt ".webp" then "image/webp"
  else if String.eqb fileExt ".mp4" then "video/mp4"
  else if String.eqb fileExt ".webm" then "video/webm"
  else if String.eqb fileExt ".mp3" then "audio/mpeg"
  else if String.eqb fileExt ".wav" then "audio/wav"
  else "application/octet-stream".

Definition archiveFileType (mimeType : string) : string :=
  if startsWith "image/" mimeType then "image"
  else if startsWith "video/" mimeType then "video"
  else if startsWith "audio/" mimeType then "audio"
  else "document".

Section DesignController.
Context {collaborators : Collaborators}.

(** [crypto.randomUUID()] *)
Definition randomUUID : M string :=
  fun w => (inr (crypto_randomUUID w), tick w).

(** One turn of the loop of [uploadArchive]; there is no [try] inside it. *)
Definition archiveEntryStep (profile : Profile)
    (acc : list UploadedArchiveFile * list FileData) (entry : ZipEntry)
  : M (list UploadedArchiveFile * list FileData) :=
  let '(uploadedFiles, fileDescriptions) := acc in
  if isDirectory entry then ret acc (* continue *)
  else
    let fileName := entryName entry in
    let fileExt := toLowerCase (extname fileName) in
    let mimeType := archiveMimeType fileExt in
    uuid <- randomUUID ;
    let fileKey := "media/" +:+ username profile +:+ "/" +:+ uuid +:+ fileExt in
    body <- lift (getData entry) ;
    fileUrl <- uploadToS3 fileKey body mimeType ;
    let fileType := archiveFileType mimeType in
    ret (uploadedFiles ++ [{| uf_fileName := fileName; uf_fileType := fileType;
                              uf_fileUrl := fileUrl;
                              uf_fileSize := header_size entry |}],
         fileDescriptions ++ [{| fd_fileName := fileName; fd_fileType := fileType;
                                 fd_description := None |}]).

(** The callback mapped over [uploadedFiles] under [Promise.all]. *)
Definition saveAnalyzed (profile : Profile) (analyzedFiles : js_value)
    (index : nat) (file : UploadedArchiveFile) : M MediaAsset :=
  entry <- lift (js_index analyzedFiles index) ;
  let analysis := js_or entry (JObj []) in
  category <- lift (js_get analysis "category") ;
  tags <- lift (js_get analysis "tags") ;
  description <- lift (js_get analysis "description") ;
  prisma_create
    {| profileId := profile_id profile; fileName := uf_fileName file;
       fileType := uf_fileType file; fileUrl := uf_fileUrl file;
       fileSize := uf_fileSize file; category := category; tags := tags;
       metadata := JObj [("description", description)];
       displayOrder := Some (Z.of_nat index) |}.

(** POST /api/media/upload-archive *)
Definition uploadArchive (req : Request) : World -> Response * World :=
  handle (
    file <- match file req with
            | None => throw (AppError "Please upload a ZIP file" 400)
            | Some f =>
              if negb (String.eqb (mimetype f) "application/zip")
              then throw (AppError "Please upload a ZIP file" 400) else ret f
            end ;
    let userId := userId req in
    found <- prisma_profile_findFirst userId ;
    profile <- match found with
               | None => throw (AppError "Profile not found" 404)
               | Some p => ret p
               end ;
    zipEntries <- lift (AdmZip_getEntries (buffer file)) ;
    acc <- forOf (archiveEntryStep profile) zipEntries ([], []) ;
    let '(uploadedFiles, fileDescriptions) := acc in
    analyzedFiles <- analyzeMedia_design fileDescriptions (professionType profile) ;
    saved <- promiseAll (imap (saveAnalyzed profile analyzedFiles) uploadedFiles) ;
    ret (Json 200
           (ArchiveResult
              ("Successfully uploaded and analyzed " +:+ pretty (length saved) +:+ " files")
              saved))).

End DesignController.

(** ** Test doubles for the collaborators *)

Module Doubles.

(** A [JSON.parse] that knows the empty array and rejects every other text
    with a [SyntaxError]; it agrees with the built-in on the texts used
    below. *)
Definition parseEmptyArray (text : string) : exn + js_value :=
  if String.eqb text "[]" then inr (JArr [])
  else inl (JsError "SyntaxError" "Unexpected token in JSON").

(** A [JSON.stringify] for the values and arrays of strings met below. *)
Definition stringifyShallow (v : js_value) : js_value :=
  match v with
  | JUndefined => JUndefined
  | JArr [] => JStr "[]"
  | JObj [] => JStr "{}"
  | JNull => JStr "null"
  | JBool true => JStr "true"
  | JBool false => JStr "false"
  | JNum n => JStr (pretty n)
  | _ => JStr "[object]"
  end.

Definition randomBytesOf (w : World) (n : nat) : list byte :=
  let b := default x00 (Byte.of_N (N.of_nat (clock w) mod 256)) in
  repeat b n.

Definition randomBytesOf_length (w : World) (n : nat)
  : length (randomBytesOf w n) = n :=
  List.repeat_length _ n.

(** Collaborators that never fail, apart from what the three parameters
    say: the reply of the classifier service, the way archives open, and
    the content types the Object Store refuses. *)
Definition scripted (reply : exn + Message) (entries : exn + list ZipEntry)
    (refused : string -> bool) : Collaborators :=
  {| env_S3_BUCKET_NAME := Some "profolia-portfolios";
     Date_now := fun w => 1700000000000 + Z.of_nat (clock w);
     crypto_randomBytes := randomBytesOf;
     crypto_randomBytes_length := randomBytesOf_length;
     crypto_randomUUID := fun w => "uuid-" +:+ pretty (clock w);
     s3Client_put_fails := fun _ o =>
       if refused (ContentType o) then Some (JsError "S3ServiceException" "Access Denied")
       else None;
     s3Client_delete_fails := fun _ k =>
       match k with
       | None => Some (JsError "Error" "No value provided for input HTTP label: Key.")
       | Some _ => None
       end;
     anthropic_messages_create := fun _ _ _ => reply;
     prisma_mediaAsset_create := fun w _ => inr ("asset-" +:+ pretty (length (mediaAssets w)));
     prisma_mediaAsset_delete_fails := fun _ _ => None;
     AdmZip_getEntries := fun _ => entries;
     JSON_parse := parseEmptyArray;
     JSON_stringify := stringifyShallow |}.

(** A [JSON.parse] that also knows [null]. *)
Definition parseNullToo (text : string) : exn + js_value :=
  if String.eqb text "null" then inr JNull else parseEmptyArray text.

(** The collaborators [c] with another [JSON.parse] and [JSON.stringify]. *)
Definition withJSON (c : Collaborators) (parse : string -> exn + js_value)
    (stringify : js_value -> js_value) : Collaborators :=
  {| env_S3_BUCKET_NAME := @env_S3_BUCKET_NAME c;
     Date_now := @Date_now c;
     crypto_randomBytes := @crypto_randomBytes c;
     crypto_randomBytes_length := @crypto_randomBytes_length c;
     crypto_randomUUID := @crypto_randomUUID c;
     s3Client_put_fails := @s3Client_put_fails c;
     s3Client_delete_fails := @s3Client_delete_fails c;
     anthropic_messages_create := @anthropic_messages_create c;
     prisma_mediaAsset_create := @prisma_mediaAsset_create c;
     prisma_mediaAsset_delete_fails := @prisma_mediaAsset_delete_fails c;
     AdmZip_getEntries := @AdmZip_getEntries c;
     JSON_parse := parse;
     JSON_stringify := stringify |}.

(** The collaborators [c] with a Record Store that refuses every write. *)
Definition withRecordStoreDown (c : Collaborators) : Collaborators :=
  {| env_S3_BUCKET_NAME := @env_S3_BUCKET_NAME c;
     Date_now := @Date_now c;
     crypto_randomBytes := @crypto_randomBytes c;
     crypto_randomBytes_length := @crypto_randomBytes_length c;
     crypto_randomUUID := @crypto_randomUUID c;
     s3Client_put_fails := @s3Client_put_fails c;
     s3Client_delete_fails := @s3Client_delete_fails c;
     anthropic_messages_create := @anthropic_messages_create c;
     prisma_mediaAsset_create := fun _ _ =>
       inl (JsError "PrismaClientKnownRequestError" "Can't reach database server");
     prisma_mediaAsset_delete_fails := fun _ _ =>
       Some (JsError "PrismaClientKnownRequestError" "Can't reach database server");
     AdmZip_getEntries := @AdmZip_getEntries c;
     JSON_parse := @JSON_parse c;
     JSON_stringify := @JSON_stringify c |}.

Definition serviceDown : exn + Message :=
  inl (JsError "APIConnectionError" "Connection error.").

Definition replyText (text : string) : exn + Message :=
  inr {| content := [TextBlock text] |}.

Definition replyToolUse : exn + Message :=
  inr {| content := [OtherBlock "tool_use"] |}.

Definition notAnArchive : exn + list ZipEntry :=
  inl (JsError "Error" "Invalid or unsupported zip format. No END header found").

Definition fileEntry (n : string) (bytes : list byte) : ZipEntry :=
  {| entryName := n; name := n; isDirectory := false;
     getData := inr bytes; header_size := Z.of_nat (length bytes) |}.

Definition dirEntry (n : string) : ZipEntry :=
  {| entryName := n; name := n; isDirectory := true;
     getData := inr []; header_size := 0 |}.

Definition threeEntries : list ZipEntry :=
  [fileEntry "a.jpg" [x01; x02]; fileEntry "b.mp4" [x03]; fileEntry "c.exe" [x04]].

Definition owner : Profile :=
  {| profile_id := "p1"; profile_userId := "u1"; username := "ada";
     professionType := "photographer" |}.

Definition world0 : World :=
  {| objectStore := []; mediaAssets := []; profiles := [owner];
     classifierCalls := []; clock := 0 |}.

Definition pdfFile : UploadedFile :=
  {| originalname := "resume.pdf"; mimetype := "application/pdf";
     buffer := [x25; x50; x44; x46]; size := 4 |}.

Definition pdfRequest : Request :=
  {| userId := "u1"; file := Some pdfFile;
     body_description := None; params_mediaId := "" |}.

Definition zipFile : UploadedFile :=
  {| originalname := "photos.zip"; mimetype := "application/zip";
     buffer := [x50; x4b; x03; x04]; size := 4 |}.

Definition zipRequest : Request :=
  {| userId := "u1"; file := Some zipFile;
     body_description := None; params_mediaId := "" |}.

Definition deleteRequest : Request :=
  {| userId := "u1"; file := None; body_description := None;
     params_mediaId := "asset-0" |}.

(** Everything succeeds; the classifier replies with an empty JSON array
    and the archive holds [threeEntries]. *)
Definition allGood : Collaborators :=
  scripted (replyText "[]") (inr threeEntries) (fun _ => false).

(** The classifier service is unreachable. *)
Definition classifierDown : Collaborators :=
  scripted serviceDown (inr threeEntries) (fun _ => false).

(** The classifier replies with prose instead of JSON. *)
Definition classifierProse : Collaborators :=
  scripted (replyText "I could not analyze these files.") (inr threeEntries)
    (fun _ => false).

(** The classifier replies without a text block. *)
Definition classifierSilent : Collaborators :=
  scripted replyToolUse (inr threeEntries) (fun _ => false).

(** The classifier replies with the JSON text [null]. *)
Definition classifierNull : Collaborators :=
  withJSON (scripted (replyText "null") (inr threeEntries) (fun _ => false))
    parseNullToo stringifyShallow.

(** The uploaded bytes are not an archive. *)
Definition corruptArchive : Collaborators :=
  scripted (replyText "[]") notAnArchive (fun _ => false).

(** The Object Store refuses videos. *)
Definition videosRefused : Collaborators :=
  scripted (replyText "[]") (inr threeEntries) (String.eqb "video/mp4").

(** The key and the URL of the first file a profile uploads at [world0]. *)
Definition pdfKey : string := "media/p1/1700000000001-0202020202020202.pdf".

Definition pdfUrl : string :=
  "https://profolia-portfolios.s3.amazonaws.com/media/p1/1700000000001-0202020202020202.pdf".

End Doubles.

(** ** What one archive entry comes to in [uploadZipArchive] *)

(** The four ways a turn of the loop can end: the entry is a directory; it
    is turned down before anything is stored; its object is stored and the
    turn fails afterwards; its object is stored and its record persisted. *)
Inductive EntryOutcome :=
| Skipped
| Rejected (reason : string)
| Orphaned (o : S3Object) (reason : string)
| Stored (o : S3Object) (a : MediaAsset).

Definition outcomeObjects (t : EntryOutcome) : list S3Object :=
  match t with
  | Orphaned o _ | Stored o _ => [o]
  | Skipped | Rejected _ => []
  end.

Definition outcomeAssets (t : EntryOutcome) : list MediaAsset :=
  match t with
  | Stored _ a => [a]
  | _ => []
  end.

Definition outcomeErrors (e : ZipEntry) (t : EntryOutcome) : list FailedEntry :=
  match t with
  | Rejected r | Orphaned _ r => [{| failed_fileName := name e; failed_error := r |}]
  | Skipped | Stored _ _ => []
  end.

Definition outcomeCalls (p : Profile) (e : ZipEntry) (t : EntryOutcome)
  : list (list FileData * string) :=
  match t with
  | Orphaned o _ | Stored o _ =>
    [([{| fd_fileName := name e; fd_fileType := fileTypeOf (ContentType o);
          fd_description := None |}], professionType p)]
  | Skipped | Rejected _ => []
  end.

(** The entries the loop does not skip. *)
Definition isFile (e : ZipEntry) : bool := negb (isDirectory e).

(** The name does not resolve to a supported type. *)
Definition unsupportedName (n : string) : bool :=
  match resolveEntryType n with
  | UnsupportedType => true
  | Resolved _ _ => false
  end.

Section Traces.
Context {collaborators : Collaborators}.

(** [o] is the object stored for entry [e] of profile [p]: the type of the
    entry resolved, its bytes were read and put under a generated key. *)
Definition storedFor (p : Profile) (e : ZipEntry) (o : S3Object) : Prop :=
  resolveEntryType (name e) = Resolved (fileTypeOf (ContentType o)) (ContentType o)
  /\ getData e = inr (Body o)
  /\ Bucket o = BUCKET_NAME
  /\ exists timestamp bytes, Key o = mediaKey timestamp bytes (profile_id p) (name e).

(** [a] is the record persisted for entry [e] and its object [o]. *)
Definition recordFor (p : Profile) (e : ZipEntry) (o : S3Object) (a : MediaAsset) : Prop :=
  profileId (data a) = profile_id p
  /\ fileName (data a) = name e
  /\ fileType (data a) = fileTypeOf (ContentType o)
  /\ fileUrl (data a) = objectUrl BUCKET_NAME (Key o)
  /\ fileSize (data a) = Z.of_nat (length (Body o)).

Definition entryOutcomeOk (p : Profile) (e : ZipEntry) (t : EntryOutcome) : Prop :=
  match t with
  | Skipped => isDirectory e = true
  | Rejected r =>
    isDirectory e = false
    /\ ((r = "Unsupported file type" /\ unsupportedName (name e) = true)
        \/ exists error, r = String_of_exn error)
  | Orphaned o r =>
    isDirectory e = false /\ storedFor p e o /\ exists error, r = String_of_exn error
  | Stored o a =>
    isDirectory e = false /\ storedFor p e o /\ recordFor p e o a
  end.

End Traces.

Definition traceObjects (ts : list EntryOutcome) : list S3Object :=
  concat (map outcomeObjects ts).

Definition traceAssets (ts : list EntryOutcome) : list MediaAsset :=
  concat (map outcomeAssets ts).

Definition traceErrors (es : list ZipEntry) (ts : list EntryOutcome) : list FailedEntry :=
  concat (zip_with outcomeErrors es ts).

Definition traceCalls (p : Profile) (es : list ZipEntry) (ts : list EntryOutcome)
  : list (list FileData * string) :=
  concat (zip_with (outcomeCalls p) es ts).

(** What a handler has answered once [res_json] has run on its response. *)
Definition answered (records : list MediaAsset) (response : Response) : Response :=
  match records with
  | [] => response
  | _ :: _ => Next bigIntError
  end.

(** ** Further code of the same files *)

(** *** Code fences of any language

    The adapters clean a reply with [/```json\n?|\n?```/g]; the
    design-document [generatePortfolioHTML] uses the same expression with
    [html] in place of [json]. *)

Definition newline : ascii := "010"%char.
Definition backtick : ascii := "`"%char.
Definition fence : list ascii := [backtick; backtick; backtick].

Definition fenceMatchOf (lang l : list ascii) : nat :=
  if isPrefixChars (fence ++ lang) l then
    match drop (3 + length lang) l with
    | c :: _ => if Ascii.eqb c newline then (4 + length lang)%nat else (3 + length lang)%nat
    | [] => (3 + length lang)%nat
    end
  else if isPrefixChars (newline :: fence) l then 4%nat
  else if isPrefixChars fence l then 3%nat
  else 0%nat.

Fixpoint stripFencesOfChars (lang : list ascii) (skip : nat) (l : list ascii)
  : list ascii :=
  match l with
  | [] => []
  | c :: l' =>
    match skip with
    | S k => stripFencesOfChars lang k l'
    | O =>
      match fenceMatchOf lang l with
      | O => c :: stripFencesOfChars lang 0 l'
      | S k => stripFencesOfChars lang k l'
      end
    end
  end.

Definition stripFencesOf (lang text : string) : string :=
  ofChars (stripFencesOfChars (chars lang) 0 (chars text)).

(** The text of a reply made of one fenced block. *)
Definition fenced (lang body : string) : string :=
  ofChars (fence ++ chars lang ++ [newline]) +:+ body +:+ ofChars (newline :: fence).

(** *** ai.service.ts of the design documents: the end of
    [generatePortfolioHTML], from the text of the reply to the HTML
    returned. *)
Definition finishPortfolioHTML (text : string) : string :=
  let html := trim (stripFencesOf "html" text) in
  if negb (startsWith "<!doctype html>" (toLowerCase html))
  then "<!DOCTYPE html>" +:+ ofChars [newline] +:+ html
  else html.

(** *** profile.controller.ts: the test of a user name *)

(** A character of the class [[a-z0-9_-]]. *)
Definition usernameChar (c : ascii) : bool :=
  let n := N_of_ascii c in
  (((97 <=? n) && (n <=? 122)) || ((48 <=? n) && (n <=? 57))
   || (n =? 95) || (n =? 45))%N.

(** [/^[a-z0-9_-]{4,20}$/.test(s)] *)
Definition usernameRegex_test (s : string) : bool :=
  let l := chars s in
  (4 <=? length l)%nat && (length l <=? 20)%nat && forallb usernameChar l.

(** The validation of [checkUsername] and [upsertProfile]:
    [usernameRegex.test(username.toLowerCase())]. *)
Definition validUsername (username : string) : bool :=
  usernameRegex_test (toLowerCase username).

(** *** aws.service.ts: the prefix that [listUserMedia] lists *)
Definition userMediaPrefix (profileId : string) : string :=
  "media/" +:+ profileId +:+ "/".

(** *** middleware/errorHandler.ts *)

(** The status and the JSON body that the middleware sends. *)
Record ErrorAnswer := {
  answer_status : Z;
  answer_error : string;
  answer_details : option string;
  answer_message : option string;
  answer_stack : option string
}.

(** [errorHandler(err, req, res, next)]; [stack] reads [err.stack]. *)
Definition errorHandler (NODE_ENV : option string) (stack : exn -> option string)
    (err : exn) : ErrorAnswer :=
  let development :=
    match NODE_ENV with
    | Some v => String.eqb v "development"
    | None => false
    end in
  match err with
  | AppError message statusCode =>
    {| answer_status := statusCode; answer_error := message;
       answer_details := None; answer_message := None;
       answer_stack := if development then stack err else None |}
  | JsError name message =>
    if String.eqb name "PrismaClientKnownRequestError" then
      {| answer_status := 400; answer_error := "Database error";
         answer_details := if development then Some message else None;
         answer_message := None; answer_stack := None |}
    else if String.eqb name "JsonWebTokenError" then
      {| answer_status := 401; answer_error := "Invalid token";
         answer_details := None; answer_message := None; answer_stack := None |}
    else if String.eqb name "TokenExpiredError" then
      {| answer_status := 401; answer_error := "Token expired";
         answer_details := None; answer_message := None; answer_stack := None |}
    else
      {| answer_status := 500; answer_error := "Internal server error";
         answer_details := None;
         answer_message := if development then Some message else None;
         answer_stack := if development then stack err else None |}
  end.

(** The status a client receives for what a handler did. *)
Definition finalStatus (NODE_ENV : option string) (stack : exn -> option string)
    (r : Response) : Z :=
  match r with
  | Json status _ => status
  | Next error => answer_status (errorHandler NODE_ENV stack error)
  end.

(** *** middleware/auth.middleware.ts *)

(** [s.substring(n)] for a non-negative [n]. *)
Definition substringFrom (n : nat) (s : string) : string :=
  ofChars (drop n (chars s)).

(** [process.env.JWT_SECRET || 'your-secret-key'] *)
Definition JWT_SECRET (env_JWT_SECRET : option string) : string :=
  match env_JWT_SECRET with
  | Some s => if String.eqb s "" then "your-secret-key" else s
  | None => "your-secret-key"
  end.

(** [authenticate]: [inl error] stands for [next(error)], [inr id] for
    [next()] after [req.userId = id]; [jwt_verify token secret] is
    [jwt.verify], which returns the decoded payload or throws. *)
Definition authenticate (env_JWT_SECRET : option string)
    (jwt_verify : string -> string -> exn + js_value)
    (authorization : option string) : exn + js_value :=
  match authorization with
  | None => inl (AppError "No token provided" 401)
  | Some authHeader =>
    if String.eqb authHeader "" || negb (startsWith "Bearer " authHeader)
    then inl (AppError "No token provided" 401)
    else
      let token := substringFrom 7 authHeader in
      match jwt_verify token (JWT_SECRET env_JWT_SECRET) with
      | inl _ => inl (AppError "Invalid or expired token" 401)
      | inr decoded =>
        match js_get decoded "userId" with
        | inl _ => inl (AppError "Invalid or expired token" 401)
        | inr userId => inr userId
        end
      end
  end.

Section MoreHandlers.
Context {collaborators : Collaborators}.

(** *** aws.service.ts: [uploadPortfolioToS3] *)
Definition uploadPortfolioToS3 (username html : string) (css : option string)
  : M (string * option string) :=
  try_catch
    (htmlUrl <- uploadToS3 ("portfolios/" +:+ username +:+ "/index.html")
                  (list_byte_of_string html) "text/html" ;
     cssUrl <- match css with
               | Some c =>
                 if String.eqb c "" then ret None
                 else
                   url <- uploadToS3 ("portfolios/" +:+ username +:+ "/styles.css")
                            (list_byte_of_string c) "text/css" ;
                   ret (Some url)
               | None => ret None
               end ;
     ret (htmlUrl, cssUrl))
    (fun error => (* console.error *) throw error).

(** *** media.controller.ts: [getProfileMedia] *)

(** [prisma.mediaAsset.findMany({ where: { profileId }, orderBy:
    { createdAt: 'desc' } })]: the rows are kept in the order of their
    creation, [createdAt] being set when a row is inserted. *)
Definition prisma_mediaAsset_findMany (pid : string) : M (list MediaAsset) :=
  fun w =>
    (inr (rev (List.filter (fun a => String.eqb (profileId (data a)) pid)
                 (mediaAssets w))),
     tick w).

(** GET /api/media: [inr (total, mediaAssets)] stands for
    [res.json({ total, mediaAssets })], [inl error] for [next(error)]; a
    listing that holds a record cannot be serialised (see [res_json]). *)
Definition getProfileMedia (req : Request)
  : World -> (exn + nat * list MediaAsset) * World :=
  let userId := userId req in
  found <- prisma_profile_findFirst userId ;
  profile <- match found with
             | None => throw (AppError "Profile not found" 404)
             | Some p => ret p
             end ;
  mediaAssets <- prisma_mediaAsset_findMany (profile_id profile) ;
  match mediaAssets with
  | [] => ret (length mediaAssets, mediaAssets)
  | _ :: _ => throw bigIntError
  end.

End MoreHandlers.

(** *** media.controller.ts: the file filter of the multer middleware *)

Definition allowedTypes : list string :=
  ["image/jpeg"; "image/png"; "image/gif"; "image/webp";
   "video/mp4"; "video/webm"; "video/quicktime";
   "audio/mpeg"; "audio/wav"; "audio/ogg";
   "application/pdf"; "application/zip"].

(** [fileFilter]: [true] stands for [cb(null, true)], [false] for
    [cb(new Error('Invalid file type'))]. *)
Definition fileFilter (mimetype : string) : bool := includes allowedTypes mimetype.

(** *** profile.controller.ts: [checkUsername] *)

(** The body of the answer of [checkUsername]. *)
Record UsernameAnswer := {
  available : bool;
  checked_username : string;
  checked_message : string
}.

(** [prisma.profile.findUnique({ where: { username } })] *)
Definition prisma_profile_findUnique_username (u : string) : M (option Profile) :=
  fun w => (inr (List.find (fun p => String.eqb (username p) u) (profiles w)), tick w).

(** GET /api/profiles/check/:username: [inr answer] stands for
    [res.json(answer)], [inl error] for [next(error)]. *)
Definition checkUsername (username : string)
  : World -> (exn + UsernameAnswer) * World :=
  _ <- (if String.eqb username "" || (String.length (trim username) =? 0)%nat
        then throw (AppError "Username is required" 400) else ret tt) ;
  _ <- (if negb (usernameRegex_test (toLowerCase username))
        then throw (AppError "Invalid username format. Use 4-20 characters (lowercase letters, numbers, hyphens, underscores)" 400)
        else ret tt) ;
  profile <- prisma_profile_findUnique_username username ;
  ret {| available := match profile with Some _ => false | None => true end;
         checked_username := username;
         checked_message := match profile with
                            | Some _ => "Username is taken"
                            | None => "Username is available"
                            end |}.

(** *** The bytes that the loop of [uploadZipArchive] tries to store for an
    entry: those of a file entry of a supported type whose data can be
    read. *)
Definition storableBytes (e : ZipEntry) : option (list byte) :=
  if isFile e && negb (unsupportedName (name e))
  then match getData e with inr bytes => Some bytes | inl _ => None end
  else None.

(** *** Further test doubles *)

Module MoreDoubles.

Definition quote : string := String "034"%char "".

Definition quoted (s : string) : string := quote +:+ s +:+ quote.

Fixpoint joinWith (sep : string) (l : list string) : string :=
  match l with
  | [] => ""
  | [x] => x
  | x :: l' => x +:+ sep +:+ joinWith sep l'
  end.

(** [JSON.stringify] on values whose strings and property names need no
    escaping and whose numbers are integers: [None] stands for
    [undefined]; in an array [undefined] is written [null], in an object
    its property is left out. *)
Fixpoint stringifyText (v : js_value) : option string :=
  match v with
  | JUndefined => None
  | JNull => Some "null"
  | JBool true => Some "true"
  | JBool false => Some "false"
  | JNum n => Some (pretty n)
  | JStr s => Some (quoted s)
  | JArr elems =>
    Some ("[" +:+ joinWith "," (map (fun x => default "null" (stringifyText x)) elems)
          +:+ "]")
  | JObj props =>
    Some ("{" +:+ joinWith ","
                    (omap (fun kv => match stringifyText (snd kv) with
                                     | Some t => Some (quoted (fst kv) +:+ ":" +:+ t)
                                     | None => None
                                     end) props)
          +:+ "}")
  end.

Definition stringifyPlain (v : js_value) : js_value :=
  match stringifyText v with
  | Some t => JStr t
  | None => JUndefined
  end.

(** The JSON text of an array of one analysis, with a category and a tag. *)
Definition taggedValue : js_value :=
  JArr [JObj [("category", JStr "Portraits"); ("tags", JArr [JStr "studio"])]].

Definition taggedText : string := default "" (stringifyText taggedValue).

(** A [JSON.parse] that knows one more text than [parseEmptyArray]. *)
Definition parseTagged (text : string) : exn + js_value :=
  if String.eqb text taggedText then inr taggedValue
  else Doubles.parseEmptyArray text.

(** Everything succeeds and the classifier answers with one analysis, in a
    fenced block; the archive holds [entries]. *)
Definition tagged (entries : list ZipEntry) : Collaborators :=
  Doubles.withJSON
    (Doubles.scripted (Doubles.replyText (fenced "json" taggedText)) (inr entries)
       (fun _ => false))
    parseTagged stringifyPlain.

Definition classifierTagged : Collaborators := tagged Doubles.threeEntries.

(** The Record Store is down; everything else succeeds. *)
Definition recordStoreDown : Collaborators :=
  Doubles.withRecordStoreDown
    (Doubles.scripted Doubles.replyToolUse (inr Doubles.threeEntries) (fun _ => false)).

(** An entry in a folder of the archive: adm-zip gives its path as
    [entryName] and its last component as [name]. *)
Definition nestedEntry (folder base : string) (bytes : list byte) : ZipEntry :=
  {| entryName := folder +:+ base; name := base; isDirectory := false;
     getData := inr bytes; header_size := Z.of_nat (length bytes) |}.

(** An archive of two supported files and a directory. *)
Definition twoFiles : list ZipEntry :=
  [Doubles.fileEntry "a.jpg" [x01; x02]; Doubles.dirEntry "album/";
   nestedEntry "album/" "b.PNG" [x03]].

(** An archive of directories only. *)
Definition onlyDirectories : list ZipEntry :=
  [Doubles.dirEntry "album/"; Doubles.dirEntry "album/raw/"].

(** A record whose URL holds the configured bucket name followed by a
    slash, as a path-style endpoint would make it, in a world that has the
    record and its object. *)
Definition storedAsset : MediaAsset :=
  {| id := "asset-0";
     data := {| profileId := "p1"; fileName := "resume.pdf"; fileType := "document";
                fileUrl := "https://s3.amazonaws.com/profolia-portfolios/media/p1/1-ab.pdf";
                fileSize := 4; category := JStr "Uncategorized"; tags := JStr "[]";
                metadata := JStr "{}"; displayOrder := None |} |}.

Definition storedObject : S3Object :=
  {| Bucket := "profolia-portfolios"; Key := "media/p1/1-ab.pdf";
     Body := [x25; x50; x44; x46]; ContentType := "application/pdf";
     ACL := "public-read" |}.

Definition worldWithAsset : World :=
  {| objectStore := [storedObject];
     mediaAssets := [storedAsset]; profiles := [Doubles.owner];
     classifierCalls := []; clock := 7 |}.

(** A world in which the user name [alice] is taken. *)
Definition aliceWorld : World :=
  {| objectStore := []; mediaAssets := [];
     profiles := [{| profile_id := "p7"; profile_userId := "u7"; username := "alice";
                     professionType := "musician" |}];
     classifierCalls := []; clock := 0 |}.

End MoreDoubles.
(** ** Case-insensitivity of type resolution *)

Import JsString Path TypeResolver.

Section CaseInsensitive.

Lemma chars_ofChars l : chars (ofChars l) = l.
Proof. apply list_ascii_of_string_of_list_ascii. Qed.

Lemma ofChars_chars s : ofChars (chars s) = s.
Proof. apply string_of_list_ascii_of_string. Qed.

Lemma chars_app s t : chars (s +:+ t) = chars s ++ chars t.
Proof. induction s as [|c s IH]; simpl; [done | by rewrite IH]. Qed.

Lemma append_assoc (s t u : string) : (s +:+ t) +:+ u = s +:+ (t +:+ u).
Proof.
  induction s as [|c s IH]; [done|].
  change (String c ((s +:+ t) +:+ u) = String c (s +:+ (t +:+ u))). by f_equal.
Qed.

Lemma lowerChar_slash c : Ascii.eqb (lowerChar c) "/" = Ascii.eqb c "/".
Proof. by destruct c as [[] [] [] [] [] [] [] []]. Qed.

Lemma lowerChar_dot c : Ascii.eqb (lowerChar c) "." = Ascii.eqb c ".".
Proof. by destruct c as [[] [] [] [] [] [] [] []]. Qed.

Lemma lowerChar_idemp c : lowerChar (lowerChar c) = lowerChar c.
Proof. by destruct c as [[] [] [] [] [] [] [] []]. Qed.

Lemma lowerChar_upperChar c : lowerChar (upperChar c) = lowerChar c.
Proof. by destruct c as [[] [] [] [] [] [] [] []]. Qed.

(** The scan of [extname] looks at characters only through the tests
    [=== '/'] and [=== '.']. *)
Lemma extname_loop_map (f : ascii -> ascii) cs :
  (forall c, Ascii.eqb (f c) "/" = Ascii.eqb c "/") ->
  (forall c, Ascii.eqb (f c) "." = Ascii.eqb c ".") ->
  forall i st, extname_loop (map f cs) i st = extname_loop cs i st.
Proof.
  intros Hs Hd. induction cs as [|c cs IH]; intros i st; simpl; [done|].
  rewrite Hs, Hd. destruct (Ascii.eqb c "/").
  - destruct (negb (matchedSlash st)); [done | apply IH].
  - apply IH.
Qed.

Lemma sliceChars_map (f : ascii -> ascii) a b l :
  sliceChars a b (map f l) = map f (sliceChars a b l).
Proof.
  unfold sliceChars. rewrite List.length_map.
  by rewrite List.skipn_map, List.firstn_map.
Qed.

Lemma extnameChars_map (f : ascii -> ascii) l :
  (forall c, Ascii.eqb (f c) "/" = Ascii.eqb c "/") ->
  (forall c, Ascii.eqb (f c) "." = Ascii.eqb c ".") ->
  extnameChars (map f l) = map f (extnameChars l).
Proof.
  intros Hs Hd. unfold extnameChars, extname_scan.
  rewrite <- List.map_rev, List.length_map, extname_loop_map by done.
  destruct (extname_empty _); [done | apply sliceChars_map].
Qed.

Lemma extname_toLowerCase s : extname (toLowerCase s) = toLowerCase (extname s).
Proof.
  unfold extname, toLowerCase. rewrite !chars_ofChars.
  by rewrite extnameChars_map by (apply lowerChar_slash || apply lowerChar_dot).
Qed.

Lemma toLowerCase_idemp s : toLowerCase (toLowerCase s) = toLowerCase s.
Proof.
  unfold toLowerCase. rewrite chars_ofChars, List.map_map.
  f_equal. apply List.map_ext, lowerChar_idemp.
Qed.

(** On ASCII strings upper-casing goes letter by letter. *)
Lemma upperChars_ascii l :
  Forall (fun c => (N_of_ascii c < 128)%N) l -> upperChars l = map upperChar l.
Proof.
  induction 1 as [|a l Ha Hl IH]; [done|].
  cbn [upperChars]. destruct l as [|b l'']; [done|].
  assert (Ascii.eqb a "196" = false) as ->.
  { apply Ascii.eqb_neq. intros ->. vm_compute in Ha. discriminate Ha. }
  cbn [andb]. rewrite IH. done.
Qed.

Lemma toLowerCase_toUpperCase s :
  Forall (fun c => (N_of_ascii c < 128)%N) (chars s) ->
  toLowerCase (toUpperCase s) = toLowerCase s.
Proof.
  intros Hascii. unfold toLowerCase, toUpperCase.
  rewrite chars_ofChars, (upperChars_ascii _ Hascii), List.map_map.
  f_equal. apply List.map_ext, lowerChar_upperChar.
Qed.

Lemma ofChars_app l k : ofChars (l ++ k) = ofChars l +:+ ofChars k.
Proof. induction l as [|c l IH]; simpl; [done | by rewrite IH]. Qed.

Lemma toLowerCase_app s t : toLowerCase (s +:+ t) = toLowerCase s +:+ toLowerCase t.
Proof. unfold toLowerCase. by rewrite chars_app, List.map_app, ofChars_app. Qed.

(** Resolution reads a name only through its lower-cased form. *)
Lemma resolveEntryType_lower n1 n2 :
  toLowerCase n1 = toLowerCase n2 -> resolveEntryType n1 = resolveEntryType n2.
Proof.
  intros H. unfold resolveEntryType.
  by rewrite <- !extname_toLowerCase, H.
Qed.

End CaseInsensitive.

(** C6 (as amended). Type resolution sends "photo.JPG" to kind image with
    content type image/jpeg and "notes.xyz" to the unsupported-type
    failure, and it ignores the case of the ASCII letters of the
    extension: whatever the stem, for every extension made of ASCII
    characters, the name with the extension upper-cased and the name with
    it lower-cased (and the name as given) resolve alike. *)
Theorem C6_type_resolution_case_insensitive :
  resolveEntryType "photo.JPG" = Resolved "image" "image/jpeg"
  /\ resolveEntryType "notes.xyz" = UnsupportedType
  /\ forall stem ext : string,
       Forall (fun c => (N_of_ascii c < 128)%N) (chars ext) ->
       resolveEntryType (stem +:+ toUpperCase ext)
       = resolveEntryType (stem +:+ toLowerCase ext)
       /\ resolveEntryType (stem +:+ ext) = resolveEntryType (stem +:+ toLowerCase ext).
Proof.
  split; [by vm_compute|]. split; [by vm_compute|].
  intros stem ext Hascii. split; apply resolveEntryType_lower.
  - by rewrite !toLowerCase_app, toLowerCase_toUpperCase, toLowerCase_idemp.
  - by rewrite !toLowerCase_app, toLowerCase_idemp.
Qed.

(** The hypothesis of C6 met by the extension of "photo.JpEg". *)
Lemma C6_type_resolution_case_insensitive_witness :
  resolveEntryType ("photo" +:+ toUpperCase ".JpEg")
  = resolveEntryType ("photo" +:+ toLowerCase ".JpEg")
  /\ resolveEntryType ("photo" +:+ ".JpEg") = resolveEntryType ("photo" +:+ toLowerCase ".JpEg").
Proof.
  apply (proj2 (proj2 C6_type_resolution_case_insensitive) "photo" ".JpEg").
  repeat constructor.
Defined.

(** C6, a counterexample to case-insensitivity for every file name: the
    extension [.g\u0131f], written with a dotless i, is not supported, while
    its upper case is [.GIF], which resolves to an image. *)
Lemma C6_dotless_i_extension :
  toUpperCase dotlessGif = ".GIF"
  /\ toLowerCase dotlessGif = dotlessGif
  /\ resolveEntryType ("photo" +:+ toUpperCase dotlessGif) = Resolved "image" "image/gif"
  /\ resolveEntryType ("photo" +:+ toLowerCase dotlessGif) = UnsupportedType
  /\ resolveEntryType ("photo" +:+ toUpperCase dotlessGif)
     <> resolveEntryType ("photo" +:+ toLowerCase dotlessGif).
Proof. by vm_compute. Qed.

(** ** Storage keys *)

Section Keys.

#[local] Arguments Ascii.eqb : simpl never.

Lemma chars_inj s t : chars s = chars t -> s = t.
Proof. intros H. by rewrite <- (ofChars_chars s), <- (ofChars_chars t), H. Qed.

Lemma last_map {A B} (f : A -> B) (l : list A) : last (map f l) = f <$> last l.
Proof.
  induction l as [|x [|y l] IH]; [done..|].
  change (last (map f (x :: y :: l))) with (last (map f (y :: l))).
  by rewrite IH.
Qed.

Lemma prefix_app_self p s : String.prefix p (p +:+ s) = true.
Proof.
  induction p as [|c p IH]; simpl; [by destruct s|].
  destruct (ascii_dec c c); [done | congruence].
Qed.

Lemma endsWith_app p s : endsWith p (s +:+ p) = true.
Proof.
  unfold endsWith. rewrite chars_app, rev_app_distr, ofChars_app.
  apply prefix_app_self.
Qed.

(** *** The extension taken by [split('.').pop()] *)

Lemma split_dot_last (l cur : list ascii) :
  last (splitChars_go ["."%char] 0 cur l)
  = Some (default (rev cur ++ l) (afterLastDot l)).
Proof.
  revert cur. induction l as [|c l IH]; intros cur; simpl.
  - by rewrite app_nil_r.
  - rewrite andb_true_r. destruct (Ascii.eqb_spec "." c) as [<-|Hne]; simpl.
    + specialize (IH []).
      destruct (splitChars_go ["."%char] 0 [] l) as [|p ps] eqn:E; [done|].
      change (last (rev cur :: p :: ps)) with (last (p :: ps)).
      rewrite IH. simpl. by destruct (afterLastDot l).
    + rewrite IH. simpl. rewrite <- app_assoc. simpl.
      by destruct (afterLastDot l).
Qed.

Lemma afterLastDot_Some l e :
  afterLastDot l = Some e -> ("."%char ∉ e) /\ exists pre, l = pre ++ "."%char :: e.
Proof.
  revert e. induction l as [|c l IH]; intros e; simpl; [done|].
  destruct (afterLastDot l) as [e'|] eqn:E.
  - intros [= <-]. destruct (IH e' eq_refl) as [Hn [pre ->]].
    split; [done|]. by exists (c :: pre).
  - destruct (Ascii.eqb_spec "." c) as [<-|Hne]; [|done].
    intros [= <-]. split; [|by exists []].
    clear IH. induction l as [|d l IH]; [apply not_elem_of_nil|].
    simpl in E. destruct (afterLastDot l); [done|].
    destruct (Ascii.eqb_spec "." d); [done|].
    apply not_elem_of_cons. split; [done | by apply IH].
Qed.

Lemma afterLastDot_None l : afterLastDot l = None -> "."%char ∉ l.
Proof.
  induction l as [|d l IH]; simpl; [intros _; apply not_elem_of_nil|].
  destruct (afterLastDot l); [done|].
  destruct (Ascii.eqb_spec "." d); [done|].
  intros _. apply not_elem_of_cons. split; [done | by apply IH].
Qed.

Lemma pop_split_dot fileName :
  pop (split "." fileName)
  = Some (ofChars (default (chars fileName) (afterLastDot (chars fileName)))).
Proof.
  unfold pop, split. rewrite last_map.
  change (chars ".") with ["."%char]. by rewrite split_dot_last.
Qed.

(** *** Injectivity of the pieces of a key *)

Lemma byteOfHex_hexOfByte b : byteOfHex (hexOfByte b) = Some b.
Proof. by destruct b. Qed.

Lemma hexOfByte_no_dash b : "-"%char ∉ hexOfByte b.
Proof.
  intros H. apply list_elem_of_In in H.
  destruct b; simpl in H; intuition discriminate.
Qed.

Lemma toHexChars_no_dash bs : "-"%char ∉ toHexChars bs.
Proof.
  induction bs as [|b bs IH]; [apply not_elem_of_nil|].
  change (toHexChars (b :: bs)) with (hexOfByte b ++ toHexChars bs).
  rewrite elem_of_app. intros [H|H]; [by apply hexOfByte_no_dash in H | done].
Qed.

Lemma toHexChars_inj bs1 bs2 : toHexChars bs1 = toHexChars bs2 -> bs1 = bs2.
Proof.
  revert bs2. induction bs1 as [|b1 bs1 IH]; intros [|b2 bs2]; try done.
  change (toHexChars (b1 :: bs1)) with (hexOfByte b1 ++ toHexChars bs1).
  change (toHexChars (b2 :: bs2)) with (hexOfByte b2 ++ toHexChars bs2).
  intros H. assert (hexOfByte b1 = hexOfByte b2 /\ toHexChars bs1 = toHexChars bs2) as [Hb Hbs].
  { unfold hexOfByte in *. simpl in H. injection H as H1 H2 H3. by rewrite H1, H2. }
  f_equal; [|by apply IH].
  apply (f_equal byteOfHex) in Hb. rewrite !byteOfHex_hexOfByte in Hb. congruence.
Qed.

Lemma length_toStringHex bs : String.length (toStringHex bs) = (2 * length bs)%nat.
Proof.
  unfold toStringHex.
  assert (forall l, String.length (ofChars l) = length l) as ->
    by (induction l as [|c l IH]; simpl; [done | by rewrite IH]).
  induction bs as [|b bs IH]; [done|].
  change (toHexChars (b :: bs)) with (hexOfByte b ++ toHexChars bs).
  rewrite length_app, IH. unfold hexOfByte. simpl. lia.
Qed.

(** A list is cut in one way only at the last occurrence of a separator. *)
Lemma cut_at_last_unique {A} (d : A) (l1 l2 h1 h2 : list A) :
  d ∉ h1 -> d ∉ h2 -> l1 ++ d :: h1 = l2 ++ d :: h2 -> l1 = l2 /\ h1 = h2.
Proof.
  intros Hn1 Hn2. revert l2.
  induction l1 as [|a l1 IH]; intros [|b l2] H; simpl in H.
  - by injection H.
  - injection H as -> ->. exfalso. apply Hn1. rewrite elem_of_app, elem_of_cons. auto.
  - injection H as -> <-. exfalso. apply Hn2. rewrite elem_of_app, elem_of_cons. auto.
  - injection H as Hab H. destruct (IH _ H) as [Hl Hh]. by subst.
Qed.

Lemma mediaKey_inj ts1 b1 ts2 b2 owner fileName :
  mediaKey ts1 b1 owner fileName = mediaKey ts2 b2 owner fileName ->
  ts1 = ts2 /\ b1 = b2.
Proof.
  unfold mediaKey. intros H.
  do 3 apply String.app_inj in H.
  apply (f_equal chars) in H. rewrite !chars_app in H.
  change (chars "-") with ["-"%char] in H.
  rewrite !(app_assoc _ ["-"%char]) in H.
  rewrite !(app_assoc _ (chars (toStringHex _))) in H.
  apply app_inv_tail in H.
  rewrite <- !app_assoc in H. simpl in H.
  unfold toStringHex in H. rewrite !chars_ofChars in H.
  apply cut_at_last_unique in H as [Ht Hb]; try apply toHexChars_no_dash.
  split; [|by apply toHexChars_inj].
  apply chars_inj in Ht. by apply (inj pretty) in Ht.
Qed.

End Keys.

(** C7 (as amended). For every owner identifier and file name,
    [generateMediaKey] returns (it never throws) a key of the form
    media/{owner}/{token}.{ext}, where the token is the timestamp, a dash
    and the sixteen hexadecimal digits of eight random bytes, and ext is
    the text after the last dot of the file name in its original case, the
    whole file name when it has no dot; ext holds no dot. *)
Theorem C7_generateMediaKey_form `{Collaborators} (owner fileName : string) (w : World) :
  exists token ext w',
    generateMediaKey owner fileName w
      = (inr ("media/" +:+ owner +:+ "/" +:+ token +:+ "." +:+ ext), w')
    /\ token = pretty (Date_now w) +:+ "-" +:+ toStringHex (crypto_randomBytes (tick w) 8)
    /\ String.length (toStringHex (crypto_randomBytes (tick w) 8)) = 16%nat
    /\ (fileName = ext \/ exists stem, fileName = stem +:+ "." +:+ ext)
    /\ ~ In "."%char (chars ext).
Proof.
  exists (pretty (Date_now w) +:+ "-" +:+ toStringHex (crypto_randomBytes (tick w) 8)),
    (ofChars (default (chars fileName) (afterLastDot (chars fileName)))), (tick (tick w)).
  split; [|split; [reflexivity|split]].
  - unfold generateMediaKey, mediaKey. rewrite pop_split_dot. cbn [default].
    by rewrite !append_assoc.
  - by rewrite length_toStringHex, crypto_randomBytes_length.
  - rewrite chars_ofChars, <- list_elem_of_In.
    destruct (afterLastDot (chars fileName)) as [e|] eqn:E; simpl.
    + apply afterLastDot_Some in E as [Hn [pre Hpre]]. split; [|done].
      right. exists (ofChars pre). apply chars_inj.
      rewrite !chars_app, !chars_ofChars. by rewrite Hpre.
    + apply afterLastDot_None in E. split; [|done].
      left. by rewrite ofChars_chars.
Qed.

(** C7, a counterexample to the lower-cased extension: for the file name
    "photo.JPG" the key ends in ".JPG"; no key of the stated form with the
    lower-cased extension "jpg" is returned. *)
Lemma C7_extension_not_lowercased :
  (@generateMediaKey Doubles.allGood "p1" "photo.JPG" Doubles.world0).1
    = inr "media/p1/1700000000000-0101010101010101.JPG"
  /\ toLowerCase (extname "photo.JPG") = ".jpg"
  /\ ~ exists token,
        "media/p1/1700000000000-0101010101010101.JPG"
        = "media/p1/" +:+ token +:+ ".jpg".
Proof.
  split; [by vm_compute|]. split; [by vm_compute|].
  intros [token Htoken].
  apply (f_equal (endsWith ".jpg")) in Htoken.
  rewrite <- append_assoc in Htoken.
  by rewrite endsWith_app in Htoken.
Qed.

(** C8. For any owner and file name, the key construction is injective in
    the uniqueness token: keys built from distinct (timestamp, random bytes)
    pairs are distinct, and so are the keys that two runs of
    [generateMediaKey] return whenever the clock or the random source
    answered them differently. *)
Theorem C8_mediaKey_injective_in_token `{Collaborators} (owner fileName : string)
    (ts1 ts2 : Z) (bytes1 bytes2 : list byte) (w1 w2 : World) :
  ((ts1, bytes1) <> (ts2, bytes2) ->
   mediaKey ts1 bytes1 owner fileName <> mediaKey ts2 bytes2 owner fileName)
  /\ ((Date_now w1, crypto_randomBytes (tick w1) 8)
        <> (Date_now w2, crypto_randomBytes (tick w2) 8) ->
      (generateMediaKey owner fileName w1).1 <> (generateMediaKey owner fileName w2).1).
Proof.
  split.
  - intros Hne Heq. apply mediaKey_inj in Heq as [-> ->]. by apply Hne.
  - unfold generateMediaKey. cbn [fst]. intros Hne Heq.
    apply (inj inr) in Heq.
    apply mediaKey_inj in Heq as [Hts Hbytes]. apply Hne. by rewrite Hts, Hbytes.
Qed.

(** The hypotheses of C8 met by two tokens that differ in their last byte,
    and by two readings of the clock. *)
Lemma C8_mediaKey_injective_in_token_witness :
  mediaKey 1700000000000 [x00; x01; x02; x03; x04; x05; x06; x07] "p1" "photo.JPG"
    <> mediaKey 1700000000000 [x00; x01; x02; x03; x04; x05; x06; x08] "p1" "photo.JPG"
  /\ (@generateMediaKey Doubles.allGood "p1" "photo.JPG" Doubles.world0).1
     <> (@generateMediaKey Doubles.allGood "p1" "photo.JPG" (tick Doubles.world0)).1.
Proof.
  destruct (@C8_mediaKey_injective_in_token Doubles.allGood "p1" "photo.JPG"
              1700000000000 1700000000000
              [x00; x01; x02; x03; x04; x05; x06; x07]
              [x00; x01; x02; x03; x04; x05; x06; x08]
              Doubles.world0 (tick Doubles.world0)) as [Hkeys Hruns].
  split; [apply Hkeys | apply Hruns]; intros [= ].
Defined.

(** ** The handlers, step by step *)

Section Pipeline.
Context {collaborators : Collaborators}.

Lemma bind_returns {A B} (m : M A) (k : A -> M B) w a w' :
  m w = (inr a, w') -> bind m k w = k a w'.
Proof. unfold bind. by intros ->. Qed.

Lemma bind_throws {A B} (m : M A) (k : A -> M B) w e w' :
  m w = (inl e, w') -> bind m k w = (inl e, w').
Proof. unfold bind. by intros ->. Qed.

(** A [catch] clause that rethrows changes nothing. *)
Lemma try_catch_rethrow {A} (m : M A) w :
  try_catch m (fun error => throw error) w = m w.
Proof. unfold try_catch, throw. by destruct (m w) as [[e|a] w']. Qed.

Lemma analyzeMedia_design_eq fileData professionType w :
  analyzeMedia_design fileData professionType w = analyzeMedia fileData professionType w.
Proof. unfold analyzeMedia. by rewrite try_catch_rethrow. Qed.

Lemma uploadToS3_cases key body contentType w :
  let command :=
    {| Bucket := BUCKET_NAME; Key := key; Body := body;
       ContentType := contentType; ACL := "public-read" |} in
  (exists e, s3Client_put_fails w command = Some e
             /\ uploadToS3 key body contentType w = (inl e, tick w))
  \/ (s3Client_put_fails w command = None
      /\ uploadToS3 key body contentType w
         = (inr (objectUrl BUCKET_NAME key), tick (putObject command w))).
Proof.
  intros command. unfold uploadToS3. rewrite try_catch_rethrow.
  unfold bind, s3Client_send_put. fold command.
  destruct (s3Client_put_fails w command) as [e|]; [left; by exists e | by right].
Qed.

(** Whatever the classifier service answers, [analyzeMedia] sends it one
    request, and touches nothing else. *)
Lemma analyzeMedia_world fileData professionType w :
  (analyzeMedia fileData professionType w).2
  = tick (logClassifierCall (fileData, professionType) w).
Proof.
  unfold analyzeMedia. rewrite try_catch_rethrow.
  unfold analyzeMedia_body, bind, anthropic_create.
  destruct (anthropic_messages_create w fileData professionType) as [e|m]; [done|].
  destruct (content m !! 0%nat) as [[text|ty]|]; try done.
  by destruct (JSON_parse _).
Qed.

Lemma prisma_create_cases d w :
  (exists e, prisma_create d w = (inl e, tick w))
  \/ (exists i, prisma_create d w
                = (inr {| id := i; data := d |}, tick (insertAsset {| id := i; data := d |} w))).
Proof.
  unfold prisma_create.
  destruct (prisma_mediaAsset_create w d) as [e|i]; [left; by exists e | right; by exists i].
Qed.

Lemma isSupportedType_resolve n :
  isSupportedType (toLowerCase (extname n)) = negb (unsupportedName n).
Proof.
  unfold unsupportedName, resolveEntryType.
  by destruct (isSupportedType (toLowerCase (extname n))).
Qed.

Lemma resolve_supported n :
  isSupportedType (toLowerCase (extname n)) = true ->
  let mimeType := getMimeType (toLowerCase (extname n)) in
  resolveEntryType n = Resolved (fileTypeOf mimeType) mimeType.
Proof. intros H. unfold resolveEntryType. by rewrite H. Qed.

Ltac outcome_done :=
  repeat match goal with x := _ |- _ => subst x end;
  simpl; rewrite ?app_nil_r;
  repeat match goal with |- _ /\ _ => split end; eauto.

(** One turn of the loop never throws, and comes to one of the four
    outcomes. *)
Lemma zipEntryStep_trace p ups errs e w :
  exists t ups' errs' w',
    zipEntryStep p (ups, errs) e w = (inr (ups', errs'), w')
    /\ ups' = ups ++ outcomeAssets t
    /\ errs' = errs ++ outcomeErrors e t
    /\ entryOutcomeOk p e t
    /\ objectStore w' = objectStore w ++ outcomeObjects t
    /\ mediaAssets w' = mediaAssets w ++ outcomeAssets t
    /\ classifierCalls w' = classifierCalls w ++ outcomeCalls p e t
    /\ profiles w' = profiles w.
Proof.
  unfold zipEntryStep, try_catch, bind.
  destruct (isDirectory e) eqn:Hdir.
  { exists Skipped. eexists _, _, _. split; [reflexivity|].
    simpl. by rewrite !app_nil_r. }
  destruct (getData e) as [err|bytes] eqn:Hdata; simpl.
  { exists (Rejected (String_of_exn err)). eexists _, _, _. split; [reflexivity|].
    outcome_done. }
  destruct (isSupportedType (toLowerCase (extname (name e)))) eqn:Hsup; simpl.
  2:{ exists (Rejected "Unsupported file type"). eexists _, _, _. split; [reflexivity|].
      simpl. rewrite !app_nil_r. repeat split; try done.
      left. split; [done|]. rewrite isSupportedType_resolve in Hsup.
      by destruct (unsupportedName (name e)). }
  set (key := mediaKey _ _ _ _).
  set (w1 := tick (tick w)).
  set (mime := getMimeType _) in *.
  destruct (uploadToS3_cases key bytes mime w1) as [[err [_ ->]]|[_ ->]]; simpl.
  { exists (Rejected (String_of_exn err)). eexists _, _, _. split; [reflexivity|].
    outcome_done. }
  set (o := {| Bucket := BUCKET_NAME; Key := key; Body := bytes;
               ContentType := mime; ACL := "public-read" |}).
  set (w2 := tick (putObject o w1)).
  set (batch := [_]).
  assert (storedFor p e o) as Hstored.
  { unfold storedFor. simpl. split; [by apply resolve_supported|].
    split; [done|]. split; [done|]. by eexists _, _. }
  pose proof (analyzeMedia_world batch (professionType p) w2) as Hworld.
  destruct (analyzeMedia batch (professionType p) w2) as [[err|analysis] w3].
  { simpl in Hworld. subst w3.
    exists (Orphaned o (String_of_exn err)). eexists _, _, _. split; [reflexivity|].
    outcome_done. }
  simpl in Hworld. subst w3.
  assert (forall err : exn,
    exists t ups' errs' w',
      (@inr exn _ (ups, errs ++ [{| failed_fileName := name e;
                                    failed_error := String_of_exn err |}]),
       tick (logClassifierCall (batch, professionType p) w2))
        = (@inr exn _ (ups', errs'), w')
      /\ ups' = ups ++ outcomeAssets t
      /\ errs' = errs ++ outcomeErrors e t
      /\ entryOutcomeOk p e t
      /\ objectStore w' = objectStore w ++ outcomeObjects t
      /\ mediaAssets w' = mediaAssets w ++ outcomeAssets t
      /\ classifierCalls w' = classifierCalls w ++ outcomeCalls p e t
      /\ profiles w' = profiles w) as Horphan.
  { intros err. exists (Orphaned o (String_of_exn err)). eexists _, _, _.
    split; [reflexivity|]. outcome_done. }
  destruct (js_index analysis 0) as [err|first]; simpl; [apply Horphan|].
  destruct (js_get (js_or first (uncategorized "")) "category") as [err|cat]; simpl;
    [apply Horphan|].
  destruct (js_get (js_or first (uncategorized "")) "tags") as [err|tgs]; simpl;
    [apply Horphan|].
  match goal with
  | |- context [prisma_create ?d ?w] =>
    destruct (prisma_create_cases d w) as [[err ->]|[i ->]]
  end; simpl.
  { exists (Orphaned o (String_of_exn err)). eexists _, _, _. split; [reflexivity|].
    outcome_done. }
  eexists (Stored o _), _, _, _. split; [reflexivity|].
  outcome_done. by unfold recordFor.
Qed.

End Pipeline.

(** ** The loop over the archive entries and its trace *)

Section ZipLoop.
Context {collaborators : Collaborators}.

Lemma forOf_zip_trace p es :
  forall ups errs w,
  exists ts w',
    Forall2 (entryOutcomeOk p) es ts
    /\ forOf (zipEntryStep p) es (ups, errs) w
       = (inr (ups ++ traceAssets ts, errs ++ traceErrors es ts), w')
    /\ objectStore w' = objectStore w ++ traceObjects ts
    /\ mediaAssets w' = mediaAssets w ++ traceAssets ts
    /\ classifierCalls w' = classifierCalls w ++ traceCalls p es ts
    /\ profiles w' = profiles w.
Proof.
  induction es as [|e es IH]; intros ups errs w.
  - exists [], w. split; [constructor|].
    unfold traceAssets, traceErrors, traceObjects, traceCalls. simpl.
    by rewrite !app_nil_r.
  - destruct (zipEntryStep_trace p ups errs e w)
      as (t & ups1 & errs1 & w1 & Hstep & -> & -> & Hok & Hobj & Hassets & Hcalls & Hprof).
    destruct (IH (ups ++ outcomeAssets t) (errs ++ outcomeErrors e t) w1)
      as (ts & w' & Hts & Hloop & Hobj' & Hassets' & Hcalls' & Hprof').
    exists (t :: ts), w'. split; [by constructor|].
    split.
    { cbn [forOf]. unfold bind. rewrite Hstep, Hloop.
      unfold traceAssets, traceErrors. simpl. by rewrite !app_assoc. }
    unfold traceObjects, traceAssets, traceCalls. simpl.
    rewrite Hobj', Hassets', Hcalls', Hprof', Hobj, Hassets, Hcalls, Hprof.
    by rewrite !app_assoc.
Qed.

Lemma res_json_answered records response w :
  match res_json records response w with
  | (inl error, w') => (Next error, w')
  | (inr r, w') => (r, w')
  end = (answered records response, w).
Proof. by destruct records. Qed.

(** The whole handler, once the request carries a file, the user has a
    profile and the archive opens: the loop runs to its end with the
    assets and the errors of the trace, and the handler answers 201 with
    them, unless the body holds a record. *)
Lemma uploadZipArchive_trace req w f p es :
  file req = Some f ->
  profileOfUser (userId req) w = Some p ->
  AdmZip_getEntries (buffer f) = inr es ->
  exists ts w',
    Forall2 (entryOutcomeOk p) es ts
    /\ forOf (zipEntryStep p) es ([], []) (tick w)
       = (inr (traceAssets ts, traceErrors es ts), w')
    /\ uploadZipArchive req w
       = (answered (traceAssets ts)
            (zipResponse (traceAssets ts) (traceErrors es ts)), w')
    /\ objectStore w' = objectStore w ++ traceObjects ts
    /\ mediaAssets w' = mediaAssets w ++ traceAssets ts
    /\ classifierCalls w' = classifierCalls w ++ traceCalls p es ts.
Proof.
  intros Hfile Hprofile Hzip.
  destruct (forOf_zip_trace p es [] [] (tick w))
    as (ts & w' & Hts & Hloop & Hobj & Hassets & Hcalls & _).
  exists ts, w'. split; [done|]. split; [done|]. split; [|done].
  unfold uploadZipArchive, handle, bind, prisma_profile_findFirst.
  rewrite Hfile. simpl. rewrite Hprofile. simpl. rewrite Hzip. simpl.
  rewrite Hloop. apply res_json_answered.
Qed.

(** An archive that does not open stops the handler before the loop. *)
Lemma uploadZipArchive_invalid req w f error :
  file req = Some f ->
  AdmZip_getEntries (buffer f) = inl error ->
  uploadZipArchive req w
  = (Next (match profileOfUser (userId req) w with
           | Some _ => error
           | None => AppError "Profile not found. Please create a profile first." 404
           end), tick w).
Proof.
  intros Hfile Hzip.
  unfold uploadZipArchive, handle, bind, prisma_profile_findFirst.
  rewrite Hfile. simpl.
  destruct (profileOfUser (userId req) w); simpl; [by rewrite Hzip | done].
Qed.

End ZipLoop.

(** *** Counting the outcomes of a trace *)

Section TraceFacts.
Context {collaborators : Collaborators}.

Lemma storedFor_supported p e o : storedFor p e o -> unsupportedName (name e) = false.
Proof. intros [Hres _]. unfold unsupportedName. by rewrite Hres. Qed.

Lemma trace_cons_assets t ts : traceAssets (t :: ts) = outcomeAssets t ++ traceAssets ts.
Proof. done. Qed.

Lemma trace_cons_errors e es t ts :
  traceErrors (e :: es) (t :: ts) = outcomeErrors e t ++ traceErrors es ts.
Proof. done. Qed.

Lemma trace_cons_objects t ts : traceObjects (t :: ts) = outcomeObjects t ++ traceObjects ts.
Proof. done. Qed.

Lemma trace_cons_calls p e es t ts :
  traceCalls p (e :: es) (t :: ts) = outcomeCalls p e t ++ traceCalls p es ts.
Proof. done. Qed.

(** One outcome, an asset or an error, for each entry that is not a
    directory. *)
Lemma trace_outcome_count p es ts :
  Forall2 (entryOutcomeOk p) es ts ->
  (length (traceAssets ts) + length (traceErrors es ts))%nat
  = length (List.filter isFile es).
Proof.
  induction 1 as [|e t es ts Hok _ IH]; [done|].
  rewrite trace_cons_assets, trace_cons_errors, !length_app.
  unfold isFile in *. simpl.
  destruct t; simpl in Hok; destruct_and?; simplify_eq/=;
    repeat match goal with H : isDirectory _ = _ |- _ => rewrite H end; simpl; lia.
Qed.

Lemma trace_outcome_names p es ts :
  Forall2 (entryOutcomeOk p) es ts ->
  map (fun a => fileName (data a)) (traceAssets ts)
    ++ map failed_fileName (traceErrors es ts)
  ≡ₚ map name (List.filter isFile es).
Proof.
  induction 1 as [|e t es ts Hok _ IH]; [done|].
  rewrite trace_cons_assets, trace_cons_errors, !map_app.
  unfold isFile in *. simpl.
  destruct t; simpl in Hok; destruct_and?;
    repeat match goal with H : isDirectory _ = _ |- _ => rewrite H end; simpl.
  - done.
  - rewrite <- IH. by rewrite Permutation_middle.
  - rewrite <- IH. by rewrite Permutation_middle.
  - match goal with H : recordFor _ _ _ _ |- _ => destruct H as (_ & -> & _) end.
    by rewrite IH.
Qed.

(** The errors with an unsupported name are those of the entries with an
    unsupported name, one each and in the order of the archive. *)
Lemma trace_unsupported p es ts :
  Forall2 (entryOutcomeOk p) es ts ->
  map failed_fileName
    (List.filter (fun r => unsupportedName (failed_fileName r)) (traceErrors es ts))
  = map name (List.filter (fun e => isFile e && unsupportedName (name e)) es).
Proof.
  induction 1 as [|e t es ts Hok _ IH]; [done|].
  rewrite trace_cons_errors, List.filter_app, map_app, IH.
  unfold isFile in *. simpl.
  destruct t; simpl in Hok; destruct_and?;
    repeat match goal with
           | H : isDirectory _ = _ |- _ => rewrite H
           | H : storedFor _ _ _ |- _ => apply storedFor_supported in H; rewrite H
           end; simpl; try done.
  all: by destruct (unsupportedName (name e)) eqn:?; simplify_eq/=.
Qed.

(** One request to the classifier for each object stored, each with a
    batch of one file. *)
Lemma trace_calls p es ts :
  Forall2 (entryOutcomeOk p) es ts ->
  Forall (fun c => exists fd, c = ([fd], professionType p)) (traceCalls p es ts)
  /\ length (traceCalls p es ts) = length (traceObjects ts).
Proof.
  induction 1 as [|e t es ts Hok _ [IH1 IH2]]; [by split; [constructor|]|].
  rewrite trace_cons_calls, trace_cons_objects, !length_app, IH2.
  split; [|by destruct t].
  apply Forall_app. split; [|done].
  destruct t; simpl; repeat constructor; eauto.
Qed.

(** Each record of the trace belongs to an entry whose type resolved and
    whose object was stored. *)
Lemma trace_assets_stored p es ts :
  Forall2 (entryOutcomeOk p) es ts ->
  Forall (fun a => exists e o,
            e ∈ es /\ o ∈ traceObjects ts /\ isDirectory e = false
            /\ storedFor p e o /\ recordFor p e o a)
         (traceAssets ts).
Proof.
  induction 1 as [|e t es ts Hok _ IH]; [constructor|].
  rewrite trace_cons_assets, trace_cons_objects. apply Forall_app. split.
  - destruct t; simpl; try constructor; [|constructor].
    simpl in Hok. destruct Hok as (Hdir & Hst & Hrec).
    exists e, o.
    repeat match goal with |- _ /\ _ => split end; try done; by left.
  - eapply Forall_impl; [exact IH|].
    intros a (e' & o' & He & Ho & Hrest). exists e', o'.
    split; [by right|]. split; [|done].
    apply elem_of_app. by right.
Qed.

End TraceFacts.

(** ** The design-document handler [uploadArchive] *)

Section ArchiveLoop.
Context {collaborators : Collaborators}.

Lemma archiveEntryStep_cases p files descs e w :
  exists r w' objs,
    archiveEntryStep p (files, descs) e w = (r, w')
    /\ objectStore w' = objectStore w ++ objs
    /\ classifierCalls w' = classifierCalls w
    /\ forall files' descs', r = inr (files', descs') ->
       exists newFiles newDescs,
         files' = files ++ newFiles /\ descs' = descs ++ newDescs
         /\ map fd_fileName newDescs = map entryName (List.filter isFile [e])
         /\ length newDescs = length objs /\ length newFiles = length objs.
Proof.
  unfold archiveEntryStep, isFile, bind, randomUUID. simpl.
  destruct (isDirectory e) eqn:Hdir; simpl.
  { eexists _, _, []. split; [reflexivity|]. rewrite app_nil_r.
    split; [done|]. split; [done|]. intros files' descs' [= <- <-].
    exists [], []. by rewrite !app_nil_r. }
  destruct (getData e) as [err|bytes]; simpl.
  { eexists _, _, []. split; [reflexivity|]. rewrite app_nil_r. by repeat split. }
  match goal with
  | |- context [uploadToS3 ?k ?b ?c ?w] =>
    destruct (uploadToS3_cases k b c w) as [[err [_ ->]]|[_ ->]]
  end; simpl.
  { eexists _, _, []. split; [reflexivity|]. rewrite app_nil_r. by repeat split. }
  eexists _, _, [_]. split; [reflexivity|]. simpl.
  split; [done|]. split; [done|]. intros files' descs' [= <- <-].
  by eexists [_], [_].
Qed.

Lemma forOf_archive p es :
  forall files descs w,
  exists r w' objs,
    forOf (archiveEntryStep p) es (files, descs) w = (r, w')
    /\ objectStore w' = objectStore w ++ objs
    /\ classifierCalls w' = classifierCalls w
    /\ forall files' descs', r = inr (files', descs') ->
       exists newFiles newDescs,
         files' = files ++ newFiles /\ descs' = descs ++ newDescs
         /\ map fd_fileName newDescs = map entryName (List.filter isFile es)
         /\ length newDescs = length objs /\ length newFiles = length objs.
Proof.
  induction es as [|e es IH]; intros files descs w.
  - exists (inr (files, descs)), w, []. split; [done|]. rewrite app_nil_r.
    split; [done|]. split; [done|]. intros files' descs' [= <- <-].
    exists [], []. by rewrite !app_nil_r.
  - destruct (archiveEntryStep_cases p files descs e w)
      as (r1 & w1 & objs1 & Hstep & Hobj1 & Hcalls1 & Hacc1).
    cbn [forOf]. unfold bind. rewrite Hstep.
    destruct r1 as [err|[files1 descs1]].
    { exists (inl err), w1, objs1. by repeat split. }
    destruct (Hacc1 _ _ eq_refl) as (nf1 & nd1 & -> & -> & Hn1 & Hl1 & Hl1').
    destruct (IH (files ++ nf1) (descs ++ nd1) w1)
      as (r & w' & objs & Hloop & Hobj & Hcalls & Hacc).
    exists r, w', (objs1 ++ objs). split; [done|].
    split; [by rewrite Hobj, Hobj1, app_assoc|].
    split; [by rewrite Hcalls|].
    intros files' descs' ->.
    destruct (Hacc _ _ eq_refl) as (nf & nd & -> & -> & Hn & Hl & Hl').
    exists (nf1 ++ nf), (nd1 ++ nd). rewrite !app_assoc. do 2 (split; [done|]).
    rewrite map_app, !length_app, Hn1, Hn, Hl1, Hl, Hl1', Hl'.
    split; [|done]. simpl. by destruct (isFile e).
Qed.

Lemma saveAnalyzed_frame p analyzedFiles index uploaded w :
  objectStore (saveAnalyzed p analyzedFiles index uploaded w).2 = objectStore w
  /\ classifierCalls (saveAnalyzed p analyzedFiles index uploaded w).2 = classifierCalls w.
Proof.
  unfold saveAnalyzed, bind.
  destruct (js_index analyzedFiles index) as [err|entry]; simpl; [done|].
  destruct (js_get (js_or entry (JObj [])) "category"); simpl; [done|].
  destruct (js_get (js_or entry (JObj [])) "tags"); simpl; [done|].
  destruct (js_get (js_or entry (JObj [])) "description"); simpl; [done|].
  match goal with
  | |- context [prisma_create ?d ?w] =>
    destruct (prisma_create_cases d w) as [[err ->]|[i ->]]
  end; done.
Qed.

Lemma promiseAll_frame {A} (ms : list (M A)) :
  Forall (fun m => forall w, objectStore (m w).2 = objectStore w
                             /\ classifierCalls (m w).2 = classifierCalls w) ms ->
  forall w, objectStore (promiseAll ms w).2 = objectStore w
            /\ classifierCalls (promiseAll ms w).2 = classifierCalls w.
Proof.
  induction 1 as [|m ms Hm _ IH]; intros w; [done|].
  cbn [promiseAll]. specialize (Hm w).
  destruct (m w) as [r w1]. specialize (IH w1).
  destruct (promiseAll ms w1) as [rs w2]. simpl in *.
  destruct Hm as [<- <-]. done.
Qed.

(** [uploadArchive] sends the classifier at most one request; when it
    answers with a body, it has sent exactly one, after the loop, whose
    batch lists every entry that is not a directory, each of them stored. *)
Lemma uploadArchive_calls req w f p es :
  file req = Some f ->
  mimetype f = "application/zip" ->
  profileOfUser (userId req) w = Some p ->
  AdmZip_getEntries (buffer f) = inr es ->
  exists r w' objs calls,
    uploadArchive req w = (r, w')
    /\ objectStore w' = objectStore w ++ objs
    /\ classifierCalls w' = classifierCalls w ++ calls
    /\ (length calls <= 1)%nat
    /\ forall status body, r = Json status body ->
       exists batch,
         calls = [(batch, professionType p)]
         /\ map fd_fileName batch = map entryName (List.filter isFile es)
         /\ length batch = length objs.
Proof.
  intros Hfile Hmime Hprofile Hzip.
  unfold uploadArchive, handle, bind, prisma_profile_findFirst.
  rewrite Hfile, Hmime. simpl. rewrite Hprofile. simpl. rewrite Hzip. simpl.
  destruct (forOf_archive p es [] [] (tick w))
    as (r & w1 & objs & -> & Hobj & Hcalls & Hacc).
  destruct r as [err|[files descs]].
  { exists (Next err), w1, objs, []. rewrite app_nil_r. by repeat split; auto. }
  destruct (Hacc _ _ eq_refl) as (nf & nd & -> & -> & Hn & Hl & Hl').
  simpl. rewrite analyzeMedia_design_eq.
  pose proof (analyzeMedia_world nd (professionType p) w1) as Hworld.
  destruct (analyzeMedia nd (professionType p) w1) as [[err|analysis] w2];
    simpl in Hworld; subst w2.
  { eexists _, _, objs, [(nd, professionType p)]. split; [reflexivity|]. simpl.
    split; [done|]. split; [by rewrite Hcalls|]. by split. }
  match goal with
  | |- context [promiseAll ?ms ?w] =>
    pose proof (promiseAll_frame ms) as Hframe; specialize (fun H => Hframe H w);
    destruct (promiseAll ms w) as [saved w3]
  end.
  destruct Hframe as [Hobj3 Hcalls3].
  { apply Forall_forall. intros m Hm.
    apply elem_of_lookup_imap in Hm as (i & x & -> & _).
    intros w0. apply saveAnalyzed_frame. }
  simpl in *.
  destruct saved as [err|saved]; simpl.
  - eexists _, _, objs, [(nd, professionType p)]. split; [reflexivity|].
    rewrite Hobj3, Hcalls3. simpl. rewrite Hcalls. by repeat split.
  - eexists _, _, objs, [(nd, professionType p)]. split; [reflexivity|].
    rewrite Hobj3, Hcalls3. simpl. rewrite Hcalls. repeat split; auto.
    intros _ _ _. by exists nd.
Qed.

End ArchiveLoop.

(** ** The archive upload *)

Lemma default_errors (errors : list FailedEntry) :
  default [] (if (0 <? length errors)%nat then Some errors else None) = errors.
Proof. by destruct errors. Qed.

(** C4 (as amended). In [uploadZipArchive] the classifier is invoked once
    for each entry whose object was stored, each time with a batch of that
    one file. In the design-document handler [uploadArchive] it is invoked
    at most once, and exactly once, after the loop, with one batch listing
    every entry that is not a directory, whenever the handler answers with
    a body. *)
Theorem C4_classifier_calls `{Collaborators} (req : Request) (w : World)
    (f : UploadedFile) (p : Profile) (es : list ZipEntry) :
  file req = Some f ->
  profileOfUser (userId req) w = Some p ->
  AdmZip_getEntries (buffer f) = inr es ->
  (exists r w' objs calls,
     uploadZipArchive req w = (r, w')
     /\ objectStore w' = objectStore w ++ objs
     /\ classifierCalls w' = classifierCalls w ++ calls
     /\ length calls = length objs
     /\ Forall (fun c => exists fd, c = ([fd], professionType p)) calls)
  /\ (mimetype f = "application/zip" ->
      exists r w' objs calls,
        uploadArchive req w = (r, w')
        /\ objectStore w' = objectStore w ++ objs
        /\ classifierCalls w' = classifierCalls w ++ calls
        /\ (length calls <= 1)%nat
        /\ forall status body, r = Json status body ->
           exists batch,
             calls = [(batch, professionType p)]
             /\ map fd_fileName batch = map entryName (List.filter isFile es)
             /\ length batch = length objs).
Proof.
  intros Hfile Hprofile Hzip. split.
  - destruct (uploadZipArchive_trace req w f p es Hfile Hprofile Hzip)
      as (ts & w' & Hts & _ & Hrun & Hobj & _ & Hcalls).
    destruct (trace_calls p es ts Hts) as [Hone Hlen].
    by eexists _, w', _, _.
  - intros Hmime. by apply (uploadArchive_calls req w f p es).
Qed.

(** The hypotheses of C4 met by an archive of three entries. *)
Lemma C4_classifier_calls_witness :
  (exists r w' objs calls,
     @uploadZipArchive Doubles.allGood Doubles.zipRequest Doubles.world0 = (r, w')
     /\ objectStore w' = objectStore Doubles.world0 ++ objs
     /\ classifierCalls w' = classifierCalls Doubles.world0 ++ calls
     /\ length calls = length objs
     /\ Forall (fun c => exists fd, c = ([fd], professionType Doubles.owner)) calls)
  /\ exists r w' objs calls,
       @uploadArchive Doubles.allGood Doubles.zipRequest Doubles.world0 = (r, w')
       /\ objectStore w' = objectStore Doubles.world0 ++ objs
       /\ classifierCalls w' = classifierCalls Doubles.world0 ++ calls
       /\ (length calls <= 1)%nat
       /\ forall status body, r = Json status body ->
          exists batch,
            calls = [(batch, professionType Doubles.owner)]
            /\ map fd_fileName batch
               = map entryName (List.filter isFile Doubles.threeEntries)
            /\ length batch = length objs.
Proof.
  destruct (@C4_classifier_calls Doubles.allGood Doubles.zipRequest Doubles.world0
              Doubles.zipFile Doubles.owner Doubles.threeEntries eq_refl eq_refl eq_refl)
    as [Hzip Harchive].
  split; [exact Hzip | exact (Harchive eq_refl)].
Defined.

(** C4, a counterexample to the single call, on [uploadZipArchive]: an
    archive with two supported entries (and one unsupported) makes two
    requests to the classifier, each for one file. *)
Lemma C4_one_call_per_stored_entry :
  classifierCalls
    (@uploadZipArchive Doubles.allGood Doubles.zipRequest Doubles.world0).2
  = [ ([{| fd_fileName := "a.jpg"; fd_fileType := "image"; fd_description := None |}],
       "photographer");
      ([{| fd_fileName := "b.mp4"; fd_fileType := "video"; fd_description := None |}],
       "photographer") ].
Proof. by vm_compute. Qed.

(** C5. For every archive upload that reaches the loop, each MediaAsset
    persisted by the request belongs to an entry of the archive that is not
    a directory, whose type resolved and whose bytes were stored in the
    Object Store by this request, the record carrying the URL of that
    object; an entry that failed validation or upload has no record. *)
Theorem C5_records_only_for_stored_entries `{Collaborators} (req : Request) (w : World)
    (f : UploadedFile) (p : Profile) (es : list ZipEntry) :
  file req = Some f ->
  profileOfUser (userId req) w = Some p ->
  AdmZip_getEntries (buffer f) = inr es ->
  exists r w' newObjects newAssets,
    uploadZipArchive req w = (r, w')
    /\ objectStore w' = objectStore w ++ newObjects
    /\ mediaAssets w' = mediaAssets w ++ newAssets
    /\ Forall (fun a => exists e o,
                 In e es /\ In o newObjects /\ isDirectory e = false
                 /\ storedFor p e o /\ recordFor p e o a)
              newAssets.
Proof.
  intros Hfile Hprofile Hzip.
  destruct (uploadZipArchive_trace req w f p es Hfile Hprofile Hzip)
    as (ts & w' & Hts & _ & Hrun & Hobj & Hassets & _).
  eexists _, w', _, _. split; [exact Hrun|]. split; [exact Hobj|].
  split; [exact Hassets|].
  eapply Forall_impl; [by apply trace_assets_stored|].
  intros a (e & o & He & Ho & Hrest). exists e, o.
  by rewrite <- !list_elem_of_In.
Qed.

(** The hypotheses of C5 met by an archive of three entries, one of them
    refused by the Object Store. *)
Lemma C5_records_only_for_stored_entries_witness :
  exists r w' newObjects newAssets,
    @uploadZipArchive Doubles.videosRefused Doubles.zipRequest Doubles.world0 = (r, w')
    /\ objectStore w' = objectStore Doubles.world0 ++ newObjects
    /\ mediaAssets w' = mediaAssets Doubles.world0 ++ newAssets
    /\ Forall (fun a => exists e o,
                 In e Doubles.threeEntries /\ In o newObjects /\ isDirectory e = false
                 /\ @storedFor Doubles.videosRefused Doubles.owner e o
                 /\ @recordFor Doubles.videosRefused Doubles.owner e o a)
              newAssets.
Proof.
  apply (@C5_records_only_for_stored_entries Doubles.videosRefused Doubles.zipRequest
           Doubles.world0 Doubles.zipFile Doubles.owner Doubles.threeEntries); reflexivity.
Defined.

(** C9. For every archive payload that cannot be read as an archive, the
    batch upload ends in a single request-level error, handed to [next]
    before any entry is processed: no object is stored, no MediaAsset is
    persisted and the classifier is not called. When the user has a
    profile, the error is the one raised by the archive reader. *)
Theorem C9_invalid_archive_aborts `{Collaborators} (req : Request) (w : World)
    (f : UploadedFile) (error : exn) :
  file req = Some f ->
  AdmZip_getEntries (buffer f) = inl error ->
  exists e w',
    uploadZipArchive req w = (Next e, w')
    /\ (forall p, profileOfUser (userId req) w = Some p -> e = error)
    /\ objectStore w' = objectStore w
    /\ mediaAssets w' = mediaAssets w
    /\ classifierCalls w' = classifierCalls w.
Proof.
  intros Hfile Hzip. eexists _, _.
  split; [by apply (uploadZipArchive_invalid req w f)|].
  split; [|done]. by intros p ->.
Qed.

(** The hypotheses of C9 met by bytes that are not an archive. *)
Lemma C9_invalid_archive_aborts_witness :
  exists e w',
    @uploadZipArchive Doubles.corruptArchive Doubles.zipRequest Doubles.world0
      = (Next e, w')
    /\ (forall p, profileOfUser (userId Doubles.zipRequest) Doubles.world0 = Some p ->
        e = JsError "Error" "Invalid or unsupported zip format. No END header found")
    /\ objectStore w' = objectStore Doubles.world0
    /\ mediaAssets w' = mediaAssets Doubles.world0
    /\ classifierCalls w' = classifierCalls Doubles.world0.
Proof.
  apply (@C9_invalid_archive_aborts Doubles.corruptArchive Doubles.zipRequest
           Doubles.world0 Doubles.zipFile _); reflexivity.
Defined.

(** ** The classifier adapter and the single-file upload *)

(** C3 (as amended). For every batch and domain hint: when the first
    content block of the service's reply is not a text block (the reply
    carries no JSON), [analyzeMedia] returns an empty list; when it is a
    text block whose cleaned text [JSON.parse] rejects, [analyzeMedia]
    raises the parser's error to its caller; when the reply has no content
    block it raises a TypeError; when the call to the service throws, that
    error is raised too. The design-document adapter does the same. *)
Theorem C3_analyzeMedia_on_bad_replies `{Collaborators} (fileData : list FileData)
    (professionType : string) (w : World) :
  (forall message type,
     anthropic_messages_create w fileData professionType = inr message ->
     content message !! 0%nat = Some (OtherBlock type) ->
     (analyzeMedia fileData professionType w).1 = inr (JArr []))
  /\ (forall message text error,
        anthropic_messages_create w fileData professionType = inr message ->
        content message !! 0%nat = Some (TextBlock text) ->
        JSON_parse (trim (stripFences text)) = inl error ->
        (analyzeMedia fileData professionType w).1 = inl error)
  /\ (forall message,
        anthropic_messages_create w fileData professionType = inr message ->
        content message !! 0%nat = None ->
        exists reason, (analyzeMedia fileData professionType w).1 = inl (TypeError reason))
  /\ (forall error,
        anthropic_messages_create w fileData professionType = inl error ->
        (analyzeMedia fileData professionType w).1 = inl error)
  /\ analyzeMedia_design fileData professionType w = analyzeMedia fileData professionType w.
Proof.
  assert (analyzeMedia fileData professionType w
          = analyzeMedia_body fileData professionType w) as Hbody
    by (unfold analyzeMedia; apply try_catch_rethrow).
  rewrite analyzeMedia_design_eq, Hbody.
  unfold analyzeMedia_body, bind, anthropic_create.
  repeat split.
  - by intros message type -> ->.
  - by intros message text error -> -> ->.
  - intros message -> ->. by eexists.
  - by intros error ->.
Qed.

(** The hypotheses of C3 met by a reply without text and by a reply in
    prose. *)
Lemma C3_analyzeMedia_on_bad_replies_witness :
  (@analyzeMedia Doubles.classifierSilent [] "photographer" Doubles.world0).1
    = inr (JArr [])
  /\ (@analyzeMedia Doubles.classifierProse [] "photographer" Doubles.world0).1
     = inl (JsError "SyntaxError" "Unexpected token in JSON").
Proof.
  split.
  - exact (proj1 (@C3_analyzeMedia_on_bad_replies Doubles.classifierSilent []
                    "photographer" Doubles.world0)
                 {| content := [OtherBlock "tool_use"] |} "tool_use" eq_refl eq_refl).
  - exact (proj1 (proj2 (@C3_analyzeMedia_on_bad_replies Doubles.classifierProse []
                           "photographer" Doubles.world0))
                 {| content := [TextBlock "I could not analyze these files."] |}
                 "I could not analyze these files."
                 (JsError "SyntaxError" "Unexpected token in JSON")
                 eq_refl eq_refl eq_refl).
Defined.

(** C3, a counterexample to the empty list: when the service replies with
    text that is not JSON, [analyzeMedia] raises the [SyntaxError] of
    [JSON.parse] instead of returning an empty list. *)
Lemma C3_malformed_json_is_raised :
  @analyzeMedia Doubles.classifierProse
    [{| fd_fileName := "a.jpg"; fd_fileType := "image"; fd_description := None |}]
    "photographer" Doubles.world0
  = (inl (JsError "SyntaxError" "Unexpected token in JSON"),
     tick (logClassifierCall
             ([{| fd_fileName := "a.jpg"; fd_fileType := "image";
                  fd_description := None |}], "photographer") Doubles.world0)).
Proof. by vm_compute. Qed.

Section SingleUpload.
Context {collaborators : Collaborators}.

Lemma generateMediaKey_world profileId fileName w key w' :
  generateMediaKey profileId fileName w = (inr key, w') -> w' = tick (tick w).
Proof. unfold generateMediaKey. by intros [= _ <-]. Qed.

Lemma uploadToS3_world key body contentType w url w' :
  uploadToS3 key body contentType w = (inr url, w') ->
  exists o, w' = tick (putObject o w).
Proof.
  intros Hup.
  destruct (uploadToS3_cases key body contentType w) as [[e [_ He]]|[_ Hok]].
  - rewrite He in Hup. discriminate.
  - rewrite Hok in Hup. injection Hup as _ <-. by eexists.
Qed.

End SingleUpload.

(** C1 (as amended). For every single-file upload whose Object Store
    upload succeeds: if the call to the classifier throws (the service
    fails, or its text is not JSON), or returns a value that cannot be
    indexed ([null]), [uploadMediaFile] hands the error to [next] and
    persists no MediaAsset; if the call returns a value that can be
    indexed and has no usable first element (as the empty list returned
    for a reply without text), and the Record Store accepts the record,
    [uploadMediaFile] persists one MediaAsset for the file, with category
    "Uncategorized" and the tags of the empty array. What the handler
    answers after it has persisted the record is left out. *)
Theorem C1_single_upload_and_classifier `{Collaborators} (req : Request) (w : World)
    (f : UploadedFile) (p : Profile) (s3Key fileUrl : string) (w1 w2 : World) :
  file req = Some f ->
  profileOfUser (userId req) w = Some p ->
  generateMediaKey (profile_id p) (originalname f) (tick w) = (inr s3Key, w1) ->
  uploadToS3 s3Key (buffer f) (mimetype f) w1 = (inr fileUrl, w2) ->
  let batch :=
    [{| fd_fileName := originalname f; fd_fileType := fileTypeOf (mimetype f);
        fd_description := body_description req |}] in
  let fallback := uncategorized (default "" (body_description req)) in
  let record :=
    {| profileId := profile_id p; fileName := originalname f;
       fileType := fileTypeOf (mimetype f); fileUrl := fileUrl; fileSize := size f;
       category := JStr "Uncategorized"; tags := JSON_stringify (JArr []);
       metadata := JSON_stringify fallback; displayOrder := None |} in
  (forall error w3,
     analyzeMedia batch (professionType p) w2 = (inl error, w3) ->
     uploadMediaFile req w = (Next error, w3) /\ mediaAssets w3 = mediaAssets w)
  /\ (forall analysis w3 error,
        analyzeMedia batch (professionType p) w2 = (inr analysis, w3) ->
        js_index analysis 0 = inl error ->
        uploadMediaFile req w = (Next error, w3) /\ mediaAssets w3 = mediaAssets w)
  /\ (forall analysis w3 first i,
        analyzeMedia batch (professionType p) w2 = (inr analysis, w3) ->
        js_index analysis 0 = inr first ->
        js_truthy first = false ->
        prisma_mediaAsset_create w3 record = inr i ->
        let asset := {| id := i; data := record |} in
        exists r w4,
          uploadMediaFile req w = (r, w4)
          /\ mediaAssets w4 = mediaAssets w ++ [asset]).
Proof.
  intros Hfile Hprofile Hkey Hupload batch fallback record.
  pose proof (generateMediaKey_world _ _ _ _ _ Hkey) as ->.
  destruct (uploadToS3_world _ _ _ _ _ _ Hupload) as [o ->].
  assert (forall analysis w3,
            analyzeMedia batch (professionType p)
              (tick (putObject o (tick (tick (tick w))))) = (analysis, w3) ->
            mediaAssets w3 = mediaAssets w) as Hframe.
  { intros analysis w3 Hcall.
    pose proof (analyzeMedia_world batch (professionType p)
                  (tick (putObject o (tick (tick (tick w)))))) as Hworld.
    rewrite Hcall in Hworld. simpl in Hworld. by subst w3. }
  repeat match goal with |- _ /\ _ => split end.
  - intros error w3 Hcall. split; [|by apply (Hframe _ _ Hcall)].
    unfold uploadMediaFile, handle. rewrite Hfile.
    rewrite (bind_returns _ _ w f w eq_refl).
    rewrite (bind_returns _ _ w (Some p) (tick w))
      by (unfold prisma_profile_findFirst; by rewrite Hprofile).
    rewrite (bind_returns _ _ (tick w) p (tick w) eq_refl).
    rewrite (bind_returns _ _ _ _ _ Hkey).
    rewrite (bind_returns _ _ _ _ _ Hupload).
    by rewrite (bind_throws _ _ _ _ _ Hcall).
  - intros analysis w3 error Hcall Hfirst. split; [|by apply (Hframe _ _ Hcall)].
    unfold uploadMediaFile, handle. rewrite Hfile.
    rewrite (bind_returns _ _ w f w eq_refl).
    rewrite (bind_returns _ _ w (Some p) (tick w))
      by (unfold prisma_profile_findFirst; by rewrite Hprofile).
    rewrite (bind_returns _ _ (tick w) p (tick w) eq_refl).
    rewrite (bind_returns _ _ _ _ _ Hkey).
    rewrite (bind_returns _ _ _ _ _ Hupload).
    rewrite (bind_returns _ _ _ _ _ Hcall).
    rewrite Hfirst. by rewrite (bind_throws (lift (inl error)) _ w3 error w3 eq_refl).
  - intros analysis w3 first i Hcall Hfirst Hfalsy Hcreate asset.
    exists (Next bigIntError), (tick (insertAsset asset w3)).
    split; [|simpl; by rewrite (Hframe _ _ Hcall)].
    unfold uploadMediaFile, handle. rewrite Hfile.
    rewrite (bind_returns _ _ w f w eq_refl).
    rewrite (bind_returns _ _ w (Some p) (tick w))
      by (unfold prisma_profile_findFirst; by rewrite Hprofile).
    rewrite (bind_returns _ _ (tick w) p (tick w) eq_refl).
    rewrite (bind_returns _ _ _ _ _ Hkey).
    rewrite (bind_returns _ _ _ _ _ Hupload).
    rewrite (bind_returns _ _ _ _ _ Hcall).
    rewrite Hfirst. rewrite (bind_returns _ _ w3 first w3 eq_refl).
    unfold js_or. rewrite Hfalsy.
    rewrite (bind_returns _ _ w3 (JStr "Uncategorized") w3 eq_refl).
    rewrite (bind_returns _ _ w3 (JArr []) w3 eq_refl).
    rewrite (bind_returns _ _ w3 asset (tick (insertAsset asset w3)));
      [done|].
    unfold prisma_create. fold fallback record. by rewrite Hcreate.
Qed.

(** The hypotheses of C1 met by an unreachable classifier, by one that
    replies [null] and by one that replies without text. *)
Lemma C1_single_upload_and_classifier_witness :
  ((@uploadMediaFile Doubles.classifierDown Doubles.pdfRequest Doubles.world0).1
     = Next (JsError "APIConnectionError" "Connection error.")
   /\ mediaAssets
        (@uploadMediaFile Doubles.classifierDown Doubles.pdfRequest Doubles.world0).2
      = mediaAssets Doubles.world0)
  /\ ((@uploadMediaFile Doubles.classifierNull Doubles.pdfRequest Doubles.world0).1
        = Next (TypeError "Cannot read properties of null")
      /\ mediaAssets
           (@uploadMediaFile Doubles.classifierNull Doubles.pdfRequest Doubles.world0).2
         = mediaAssets Doubles.world0)
  /\ exists asset r w4,
       @uploadMediaFile Doubles.classifierSilent Doubles.pdfRequest Doubles.world0
         = (r, w4)
       /\ mediaAssets w4 = mediaAssets Doubles.world0 ++ [asset]
       /\ category (data asset) = JStr "Uncategorized"
       /\ tags (data asset) = JStr "[]".
Proof.
  repeat match goal with |- _ /\ _ => split end.
  - destruct (@C1_single_upload_and_classifier Doubles.classifierDown
                Doubles.pdfRequest Doubles.world0 Doubles.pdfFile Doubles.owner
                _ _ _ _ eq_refl eq_refl eq_refl eq_refl) as (Hthrow & _ & _).
    destruct (Hthrow _ _ eq_refl) as [Hrun _]. by rewrite Hrun.
  - destruct (@C1_single_upload_and_classifier Doubles.classifierDown
                Doubles.pdfRequest Doubles.world0 Doubles.pdfFile Doubles.owner
                _ _ _ _ eq_refl eq_refl eq_refl eq_refl) as (Hthrow & _ & _).
    destruct (Hthrow _ _ eq_refl) as [Hrun Hassets]. rewrite Hrun. exact Hassets.
  - destruct (@C1_single_upload_and_classifier Doubles.classifierNull
                Doubles.pdfRequest Doubles.world0 Doubles.pdfFile Doubles.owner
                _ _ _ _ eq_refl eq_refl eq_refl eq_refl) as (_ & Hnull & _).
    destruct (Hnull _ _ _ eq_refl eq_refl) as [Hrun _]. by rewrite Hrun.
  - destruct (@C1_single_upload_and_classifier Doubles.classifierNull
                Doubles.pdfRequest Doubles.world0 Doubles.pdfFile Doubles.owner
                _ _ _ _ eq_refl eq_refl eq_refl eq_refl) as (_ & Hnull & _).
    destruct (Hnull _ _ _ eq_refl eq_refl) as [Hrun Hassets]. rewrite Hrun. exact Hassets.
  - destruct (@C1_single_upload_and_classifier Doubles.classifierSilent
                Doubles.pdfRequest Doubles.world0 Doubles.pdfFile Doubles.owner
                _ _ _ _ eq_refl eq_refl eq_refl eq_refl) as (_ & _ & Hreturn).
    destruct (Hreturn _ _ _ _ eq_refl eq_refl eq_refl eq_refl)
      as (r & w4 & Hrun & Hassets).
    eexists _, r, w4. split; [exact Hrun|]. split; [exact Hassets|].
    split; reflexivity.
Defined.

(** C1, a counterexample to the non-fatal failure: with the file stored in
    the Object Store, a classifier that throws, or that answers with text
    that is not JSON, makes [uploadMediaFile] end in a request-level error
    with no MediaAsset persisted. *)
Lemma C1_classifier_failure_is_fatal :
  ((@uploadMediaFile Doubles.classifierDown Doubles.pdfRequest Doubles.world0).1
     = Next (JsError "APIConnectionError" "Connection error.")
   /\ mediaAssets
        (@uploadMediaFile Doubles.classifierDown Doubles.pdfRequest Doubles.world0).2
      = []
   /\ map Key
        (objectStore
           (@uploadMediaFile Doubles.classifierDown Doubles.pdfRequest Doubles.world0).2)
      = [Doubles.pdfKey])
  /\ ((@uploadMediaFile Doubles.classifierProse Doubles.pdfRequest Doubles.world0).1
        = Next (JsError "SyntaxError" "Unexpected token in JSON")
      /\ mediaAssets
           (@uploadMediaFile Doubles.classifierProse Doubles.pdfRequest Doubles.world0).2
         = []
      /\ map Key
           (objectStore
              (@uploadMediaFile Doubles.classifierProse Doubles.pdfRequest Doubles.world0).2)
         = [Doubles.pdfKey]).
Proof. by vm_compute. Qed.

(** ** Splitting a URL at the bucket name *)

Section UrlSplit.

#[local] Arguments Ascii.eqb : simpl never.

Lemma isPrefixChars_app sep l :
  isPrefixChars sep l = true -> exists tail, l = sep ++ tail.
Proof.
  revert l. induction sep as [|a sep IH]; intros l; [by exists l|].
  destruct l as [|b l]; [done|]. simpl.
  intros [Hab Hrest]%andb_prop.
  apply Ascii.eqb_eq in Hab as ->.
  destruct (IH _ Hrest) as [tail ->]. by exists tail.
Qed.

(** The first piece of a split is no longer than what is left to scan,
    the current piece included. *)
Lemma split_first_length sep l :
  forall skip cur p0 rest,
    splitChars_go sep skip cur l = p0 :: rest ->
    (length p0 <= length cur + length l)%nat.
Proof.
  induction l as [|c l IH]; intros skip cur p0 rest; simpl.
  - intros [= <- _]. rewrite length_rev. lia.
  - destruct skip as [|k].
    + destruct (isPrefixChars sep (c :: l)).
      * intros [= <- _]. rewrite length_rev. lia.
      * intros H. apply IH in H. simpl in H. lia.
    + intros H. apply IH in H. lia.
Qed.

(** While a matched separator is being passed over, the scan drops
    characters. *)
Lemma split_skip_length sep l :
  forall skip p0 rest,
    splitChars_go sep skip [] l = p0 :: rest ->
    (length p0 + skip <= length l \/ p0 = [])%nat.
Proof.
  induction l as [|c l IH]; intros skip p0 rest H.
  - simpl in H. injection H as <- _. by right.
  - destruct skip as [|k].
    + left. apply split_first_length in H. simpl in *. lia.
    + simpl in H. apply IH in H as [H| ->]; [left; simpl; lia | by right].
Qed.

(** When a split has a second piece, the text is the first piece, the
    separator, and a rest at least as long as the second piece. *)
Lemma split_second_piece sep l :
  sep <> [] ->
  forall cur p0 p1 rest,
    splitChars_go sep 0 cur l = p0 :: p1 :: rest ->
    exists a tail,
      p0 = rev cur ++ a /\ l = a ++ sep ++ tail /\ (length p1 <= length tail)%nat.
Proof.
  intros Hsep. induction l as [|c l IH]; intros cur p0 p1 rest; simpl; [done|].
  destruct (isPrefixChars sep (c :: l)) eqn:Hpre.
  - intros [= <- Hrest].
    destruct (isPrefixChars_app _ _ Hpre) as [tail Htail].
    exists [], tail. rewrite app_nil_r. split; [done|]. split; [done|].
    destruct sep as [|s sep]; [done|]. simpl in Htail, Hrest.
    injection Htail as -> ->.
    apply split_skip_length in Hrest as [H| ->]; [|simpl; lia].
    rewrite length_app in H. lia.
  - intros H. destruct (IH _ _ _ _ H) as (a & tail & -> & -> & Hlen).
    exists (c :: a), tail. simpl. by rewrite <- app_assoc.
Qed.

Lemma isPrefixChars_self sep tail : isPrefixChars sep (sep ++ tail) = true.
Proof.
  induction sep as [|a sep IH]; [done|]. simpl.
  by rewrite Ascii.eqb_refl, IH.
Qed.

Lemma occursWithin_app sep a tail n :
  (length a <= n)%nat -> occursWithin sep n (a ++ sep ++ tail) = true.
Proof.
  revert n. induction a as [|c a IH]; intros n Hn.
  - destruct n; simpl; by rewrite isPrefixChars_self.
  - destruct n as [|n]; [simpl in Hn; lia|].
    simpl. rewrite IH by (simpl in Hn; lia). apply orb_true_r.
Qed.

Lemma isPrefixChars_app_l p :
  forall l k, (length p <= length l)%nat ->
              isPrefixChars p (l ++ k) = isPrefixChars p l.
Proof.
  induction p as [|a p IH]; intros [|b l] k Hl; simpl in *; try done; try lia.
  by rewrite IH by lia.
Qed.

Lemma occursWithin_prefix sep n :
  forall l k, (n + length sep <= length l)%nat ->
              occursWithin sep n (l ++ k) = occursWithin sep n l.
Proof.
  induction n as [|n IH]; intros l k Hlen.
  - destruct l as [|c l]; [destruct sep; [by destruct k | simpl in Hlen; lia]|].
    change ((c :: l) ++ k) with (c :: (l ++ k)). cbn [occursWithin].
    f_equal. apply (isPrefixChars_app_l sep (c :: l) k). simpl in *. lia.
  - destruct l as [|c l]; [simpl in Hlen; lia|].
    change ((c :: l) ++ k) with (c :: (l ++ k)).
    cbn [occursWithin]. rewrite IH by (simpl in Hlen; lia).
    f_equal. apply (isPrefixChars_app_l sep (c :: l) k). simpl in *. lia.
Qed.

(** If the separator does not occur in the front part of a text, the
    second piece of the split is never the whole back part. *)
Lemma split_never_second (sep front back : list ascii) :
  sep <> [] ->
  (length sep <= length front)%nat ->
  occursWithin sep (length front - length sep) front = false ->
  splitChars_go sep 0 [] (front ++ back) !! 1%nat <> Some back.
Proof.
  intros Hsep Hlen Hfront.
  destruct (splitChars_go sep 0 [] (front ++ back)) as [|p0 [|p1 rest]] eqn:E;
    [done..|].
  simpl. intros [= ->].
  apply split_second_piece in E as (a & tail & _ & Htext & Htail); [|done].
  assert (length a + length sep <= length front)%nat as Hfit.
  { apply (f_equal length) in Htext. rewrite !length_app in Htext. lia. }
  rewrite <- (occursWithin_prefix sep _ front back) in Hfront by lia.
  rewrite Htext, occursWithin_app in Hfront by lia. done.
Qed.

Lemma lookup_map {A B} (f : A -> B) (l : list A) (i : nat) :
  map f l !! i = f <$> l !! i.
Proof. revert i. induction l as [|x l IH]; intros [|i]; simpl; auto. Qed.

End UrlSplit.

Section KeyOfUrl.
Context {collaborators : Collaborators}.

(** Whenever the configured bucket name, followed by a slash, does not
    occur in the fixed part of the URLs of a bucket, the key that
    [deleteMediaAsset] reads back from the URL of a stored object is not
    the key of that object. *)
Lemma s3KeyOfUrl_loses_key (bucket key : string) :
  let sep := chars (default "undefined" env_S3_BUCKET_NAME +:+ "/") in
  let front := chars ("https://" +:+ bucket +:+ ".s3.amazonaws.com/") in
  (length sep <= length front)%nat ->
  occursWithin sep (length front - length sep) front = false ->
  s3KeyOfUrl (objectUrl bucket key) <> Some key.
Proof.
  intros sep front Hlen Hfront. unfold s3KeyOfUrl, split. fold sep.
  rewrite lookup_map.
  assert (chars (objectUrl bucket key) = front ++ chars key) as ->.
  { unfold objectUrl, front. rewrite !chars_app. by rewrite <- !app_assoc. }
  destruct (splitChars_go sep 0 [] (front ++ chars key) !! 1%nat) as [p1|] eqn:E;
    [|done].
  simpl. intros [= Hkey]. apply (f_equal chars) in Hkey.
  rewrite chars_ofChars in Hkey. subst p1.
  revert E. apply split_never_second; [|done..].
  unfold sep. rewrite chars_app. intros Hnil.
  apply app_eq_nil in Hnil as [_ Hslash]. discriminate Hslash.
Qed.

End KeyOfUrl.

(** ** The scenarios of the specification, run on the doubles *)

(** An archive with a.jpg, b.mp4 and c.exe: the loop ends with two assets,
    of kinds image and video in the order of the archive, and one failure;
    both assets are persisted, and the response, which holds them, cannot
    be serialised. *)
Example archive_of_three_entries :
  exists ups w',
    @forOf _ _ (@zipEntryStep Doubles.allGood Doubles.owner) Doubles.threeEntries ([], [])
      (tick Doubles.world0)
    = (inr (ups, [{| failed_fileName := "c.exe";
                     failed_error := "Unsupported file type" |}]), w')
    /\ map (fun a => (fileName (data a), fileType (data a))) ups
       = [("a.jpg", "image"); ("b.mp4", "video")]
    /\ @uploadZipArchive Doubles.allGood Doubles.zipRequest Doubles.world0
       = (Next bigIntError, w')
    /\ mediaAssets w' = ups.
Proof. eexists _, _. by vm_compute. Qed.

(** The same archive when the Object Store refuses the video: its entry
    joins the failures, and no record is persisted for it. *)
Example archive_with_refused_upload :
  exists ups w',
    @forOf _ _ (@zipEntryStep Doubles.videosRefused Doubles.owner) Doubles.threeEntries
      ([], []) (tick Doubles.world0)
    = (inr (ups, [{| failed_fileName := "b.mp4";
                     failed_error := "S3ServiceException: Access Denied" |};
                  {| failed_fileName := "c.exe";
                     failed_error := "Unsupported file type" |}]), w')
    /\ map (fun a => fileName (data a)) ups = ["a.jpg"]
    /\ map (fun a => fileName (data a)) (mediaAssets w') = ["a.jpg"]
    /\ map ContentType (objectStore w') = ["image/jpeg"].
Proof. eexists _, _. by vm_compute. Qed.

(** In the archive handler a classifier that is down turns every stored
    entry into a failure: the objects stay in the Object Store without a
    record, and the handler answers 201 with three failures. *)
Example archive_with_classifier_down :
  exists message w',
    @uploadZipArchive Doubles.classifierDown Doubles.zipRequest Doubles.world0
    = (Json 201
         (ZipResult message []
            (Some [{| failed_fileName := "a.jpg";
                      failed_error := "APIConnectionError: Connection error." |};
                   {| failed_fileName := "b.mp4";
                      failed_error := "APIConnectionError: Connection error." |};
                   {| failed_fileName := "c.exe";
                      failed_error := "Unsupported file type" |}])
            {| total := 3; successful := 0; failed := 3 |}), w')
    /\ mediaAssets w' = []
    /\ map ContentType (objectStore w') = ["image/jpeg"; "video/mp4"].
Proof. eexists _, _. by vm_compute. Qed.

(** ** Keys read back from URLs *)

(** C10, the code at a failing input: for the bucket "profolia-portfolios",
    the URL that [uploadToS3] returns for a generated key does not contain
    the separator "profolia-portfolios/", so [deleteMediaAsset] reads back
    [undefined] instead of the key; deleting the uploaded asset then fails
    and leaves the object in the Object Store. For this bucket no key at
    all is read back from the URL of its object. *)
Theorem C10_stored_key_not_recovered :
  (@uploadToS3 Doubles.allGood Doubles.pdfKey [x25; x50; x44; x46] "application/pdf"
     Doubles.world0).1
    = inr Doubles.pdfUrl
  /\ @s3KeyOfUrl Doubles.allGood Doubles.pdfUrl = None
  /\ map (fun a => fileUrl (data a))
       (mediaAssets
          (@uploadMediaFile Doubles.allGood Doubles.pdfRequest Doubles.world0).2)
     = [Doubles.pdfUrl]
  /\ map Key
       (objectStore
          (@uploadMediaFile Doubles.allGood Doubles.pdfRequest Doubles.world0).2)
     = [Doubles.pdfKey]
  /\ (@deleteMediaAsset Doubles.allGood Doubles.deleteRequest
        (@uploadMediaFile Doubles.allGood Doubles.pdfRequest Doubles.world0).2).1
     = Next (JsError "Error" "No value provided for input HTTP label: Key.")
  /\ map Key
       (objectStore
          (@deleteMediaAsset Doubles.allGood Doubles.deleteRequest
             (@uploadMediaFile Doubles.allGood Doubles.pdfRequest Doubles.world0).2).2)
     = [Doubles.pdfKey]
  /\ forall key,
       @s3KeyOfUrl Doubles.allGood (objectUrl (@BUCKET_NAME Doubles.allGood) key)
       <> Some key.
Proof.
  repeat match goal with |- _ /\ _ => split end; try by vm_compute.
  intros key. apply (@s3KeyOfUrl_loses_key Doubles.allGood).
  - vm_compute. lia.
  - by vm_compute.
Qed.

(** ** Further properties: tables and text *)

Section Tables.

#[local] Arguments Ascii.eqb : simpl never.

Lemma includes_In l x : includes l x = true <-> In x l.
Proof.
  unfold includes. rewrite existsb_exists. split.
  - intros (y & Hy & Heq). apply String.eqb_eq in Heq. by subst.
  - intros Hx. exists x. split; [done | apply String.eqb_refl].
Qed.

Lemma isSupportedType_In ext :
  isSupportedType ext = true <-> In ext (map fst mimeTypes).
Proof.
  unfold isSupportedType, supportedTypes. cbn [existsb String.eqb Ascii.eqb].
  split.
  - intros H. simpl in H.
    repeat (apply orb_prop in H as [H|H]); try discriminate;
      apply String.eqb_eq in H; subst; simpl; tauto.
  - intros H. simpl in H.
    repeat (destruct H as [<-|H]; [by vm_compute|]). done.
Qed.

Lemma supported_mime ext :
  isSupportedType ext = true ->
  In (ext, getMimeType ext) mimeTypes
  /\ getMimeType ext <> "application/octet-stream"
  /\ In (fileTypeOf (getMimeType ext)) ["image"; "video"; "audio"; "document"]
  /\ (fileTypeOf (getMimeType ext) = "document" <-> ext = ".pdf").
Proof.
  intros H. apply isSupportedType_In in H. simpl in H.
  repeat (destruct H as [<-|H];
          [vm_compute; repeat split; (tauto || congruence || (intros; discriminate))|]).
  done.
Qed.

End Tables.

(** X1. The supported-type test of [uploadZipArchive] and the table of
    [getMimeType] agree: an extension is supported exactly when the table
    has it, so a supported entry never gets the fall-back type
    application/octet-stream; its kind is one of the four, and document
    for ".pdf" only. *)
Theorem supported_extensions_have_mime_types (ext : string) :
  (isSupportedType ext = true <-> In ext (map fst mimeTypes))
  /\ (isSupportedType ext = true ->
      In (ext, getMimeType ext) mimeTypes
      /\ getMimeType ext <> "application/octet-stream"
      /\ In (fileTypeOf (getMimeType ext)) ["image"; "video"; "audio"; "document"]
      /\ (fileTypeOf (getMimeType ext) = "document" <-> ext = ".pdf")).
Proof.
  split; [apply isSupportedType_In | apply supported_mime].
Qed.

Lemma supported_extensions_have_mime_types_witness :
  In (".mov", getMimeType ".mov") mimeTypes
  /\ getMimeType ".mov" <> "application/octet-stream"
  /\ In (fileTypeOf (getMimeType ".mov")) ["image"; "video"; "audio"; "document"]
  /\ (fileTypeOf (getMimeType ".mov") = "document" <-> ".mov" = ".pdf").
Proof.
  apply (proj2 (supported_extensions_have_mime_types ".mov")). reflexivity.
Defined.

Section NoExtension.

#[local] Arguments Ascii.eqb : simpl never.

(** As long as no dot has been seen, the scan of [extname] keeps
    [startDot] at -1 and [preDotState] at 0; the first dot met as the last
    character scanned leaves [preDotState] at 0. *)
Lemma extname_loop_no_dot (l : list ascii) :
  ~ In "."%char l ->
  forall i st,
    startDot st = -1 -> preDotState st = 0 ->
    (startDot (extname_loop l i st) = -1
     /\ preDotState (extname_loop l i st) = 0)
    /\ preDotState (extname_loop (l ++ ["."%char]) i st) = 0.
Proof.
  induction l as [|c l IH]; intros Hdot i st Hstart Hpre.
  - split; [done|]. cbn [app extname_loop].
    change (Ascii.eqb "." "/") with false. change (Ascii.eqb "." ".") with true.
    cbn match. destruct (end_ st =? -1); simpl; by rewrite Hstart.
  - assert (c <> "."%char) as Hc by (intros ->; apply Hdot; by left).
    assert (~ In "."%char l) as Hl by (intros H; apply Hdot; by right).
    cbn [app extname_loop].
    destruct (Ascii.eqb c "/").
    { destruct (negb (matchedSlash st)); [done | by apply IH]. }
    destruct (Ascii.eqb_spec c ".") as [->|_]; [done|].
    destruct (end_ st =? -1); simpl; rewrite Hstart; simpl; by apply IH.
Qed.

Lemma extname_no_dot (n : string) :
  ~ In "."%char (chars n) -> extname n = "".
Proof.
  intros Hdot. unfold extname, extnameChars, extname_scan.
  destruct (extname_loop_no_dot (rev (chars n))
              (fun H => Hdot (proj2 (in_rev _ _) H))
              (Z.of_nat (length (chars n)) - 1) extname_init eq_refl eq_refl)
    as [[Hstart _] _].
  unfold extname_empty. by rewrite Hstart.
Qed.

Lemma extname_leading_dot (rest : string) :
  ~ In "."%char (chars rest) -> extname (String "." rest) = "".
Proof.
  intros Hdot. unfold extname, extnameChars, extname_scan.
  change (chars (String "." rest)) with ("."%char :: chars rest).
  change (rev ("."%char :: chars rest)) with (rev (chars rest) ++ ["."%char]).
  destruct (extname_loop_no_dot (rev (chars rest))
              (fun H => Hdot (proj2 (in_rev _ _) H))
              (Z.of_nat (length ("."%char :: chars rest)) - 1)
              extname_init eq_refl eq_refl)
    as [_ Hpre].
  unfold extname_empty. rewrite Hpre. simpl. by rewrite !orb_true_r.
Qed.

End NoExtension.

(** X2. An archive entry whose name has no dot, or whose only dot is its
    first character (a hidden file such as ".png"), has no extension for
    [path.extname] and is never of a supported type. *)
Theorem names_without_extension_are_unsupported (n : string) :
  (~ In "."%char (chars n) -> resolveEntryType n = UnsupportedType)
  /\ (~ In "."%char (chars n) -> resolveEntryType (String "." n) = UnsupportedType).
Proof.
  split; intros Hdot; unfold resolveEntryType.
  - by rewrite extname_no_dot.
  - by rewrite extname_leading_dot.
Qed.

Lemma names_without_extension_are_unsupported_witness :
  resolveEntryType "README" = UnsupportedType
  /\ resolveEntryType ".png" = UnsupportedType.
Proof.
  split.
  - apply (proj1 (names_without_extension_are_unsupported "README")).
    simpl. intuition discriminate.
  - apply (proj2 (names_without_extension_are_unsupported "png")).
    simpl. intuition discriminate.
Defined.

Section Fences.

#[local] Arguments Ascii.eqb : simpl never.

Lemma fenceMatch_eq l : fenceMatch l = fenceMatchOf (chars "json") l.
Proof. reflexivity. Qed.

Lemma stripFencesChars_eq l :
  forall skip, stripFencesChars skip l = stripFencesOfChars (chars "json") skip l.
Proof.
  induction l as [|c l IH]; intros [|k]; cbn [stripFencesChars stripFencesOfChars];
    try done.
  rewrite fenceMatch_eq, !IH. by destruct (fenceMatchOf _ _).
Qed.

Lemma stripFences_eq text : stripFences text = stripFencesOf "json" text.
Proof. unfold stripFences, stripFencesOf. by rewrite stripFencesChars_eq. Qed.

(** Passing over a matched fence drops characters. *)
Lemma stripFencesOfChars_skip lang l :
  forall k, stripFencesOfChars lang k l = stripFencesOfChars lang 0 (drop k l).
Proof.
  induction l as [|c l IH]; intros [|k]; try done.
  cbn [stripFencesOfChars drop]. apply IH.
Qed.

Lemma isPrefixChars_head_ne p c l a :
  a <> c -> isPrefixChars (a :: p) (c :: l) = false.
Proof.
  intros Hne. cbn [isPrefixChars].
  destruct (Ascii.eqb_spec a c); [done|]. done.
Qed.

(** No fence starts at a character other than a backtick, unless that
    character is a line break followed by a backtick. *)
Lemma fenceMatchOf_plain lang c l :
  c <> backtick ->
  (forall d l', l = d :: l' -> d <> backtick) ->
  fenceMatchOf lang (c :: l) = 0%nat.
Proof.
  intros Hc Hl. unfold fenceMatchOf, fence.
  change ([backtick; backtick; backtick] ++ lang)
    with (backtick :: [backtick; backtick] ++ lang).
  rewrite !(isPrefixChars_head_ne _ c l backtick) by congruence.
  destruct l as [|d l']; cbn [isPrefixChars]; [by rewrite andb_false_r|].
  destruct (Ascii.eqb_spec backtick d) as [Heq|_]; [|by rewrite andb_false_r].
  by destruct (Hl d l' eq_refl).
Qed.

(** Text without backticks goes through unchanged, up to the next closing
    fence, which is dropped with the line break before it. *)
Lemma stripFencesOfChars_until_fence lang x t :
  ~ In backtick x ->
  stripFencesOfChars lang 0 (x ++ newline :: fence ++ t)
  = x ++ stripFencesOfChars lang 0 t.
Proof.
  induction x as [|c x IH]; intros Hx.
  - cbn [app]. cbn [stripFencesOfChars].
    assert (fenceMatchOf lang (newline :: fence ++ t) = 4%nat) as ->.
    { unfold fenceMatchOf, fence.
      change ([backtick; backtick; backtick] ++ lang)
        with (backtick :: [backtick; backtick] ++ lang).
      rewrite isPrefixChars_head_ne by done.
      cbn [app isPrefixChars]. by rewrite !Ascii.eqb_refl. }
    by rewrite stripFencesOfChars_skip.
  - assert (c <> backtick) as Hc by (intros ->; apply Hx; by left).
    assert (~ In backtick x) as Hx' by (intros H; apply Hx; by right).
    cbn [app stripFencesOfChars]. rewrite fenceMatchOf_plain; [by rewrite IH|done|].
    intros d l' Heq. destruct x as [|e x]; simpl in Heq; injection Heq as <- _.
    + done.
    + intros ->. apply Hx'. by left.
Qed.

Lemma stripFencesOfChars_plain lang x :
  ~ In backtick x -> stripFencesOfChars lang 0 x = x.
Proof.
  induction x as [|c x IH]; intros Hx; [done|].
  assert (c <> backtick) as Hc by (intros ->; apply Hx; by left).
  assert (~ In backtick x) as Hx' by (intros H; apply Hx; by right).
  cbn [stripFencesOfChars]. rewrite fenceMatchOf_plain; [by rewrite IH|done|].
  intros d l' ->. intros ->. apply Hx'. by left.
Qed.

Lemma isPrefixChars_app_self p t : isPrefixChars p (p ++ t) = true.
Proof.
  induction p as [|a p IH]; [done|]. cbn [app isPrefixChars].
  by rewrite Ascii.eqb_refl, IH.
Qed.

(** An opening fence with its language and line break is dropped. *)
Lemma stripFencesOfChars_opening lang t :
  stripFencesOfChars lang 0 (fence ++ lang ++ newline :: t)
  = stripFencesOfChars lang 0 t.
Proof.
  change (fence ++ lang ++ newline :: t)
    with (backtick :: [backtick; backtick] ++ lang ++ newline :: t).
  cbn [stripFencesOfChars].
  assert (fenceMatchOf lang (backtick :: [backtick; backtick] ++ lang ++ newline :: t)
          = S (3 + length lang)) as ->.
  { unfold fenceMatchOf.
    change (backtick :: [backtick; backtick] ++ lang ++ newline :: t)
      with ((fence ++ lang) ++ newline :: t).
    rewrite isPrefixChars_app_self.
    replace (3 + length lang)%nat with (length (fence ++ lang))
      by (rewrite length_app; done).
    rewrite drop_app_length. by rewrite Ascii.eqb_refl. }
  rewrite stripFencesOfChars_skip. f_equal.
  replace ([backtick; backtick] ++ lang ++ newline :: t)
    with (([backtick; backtick] ++ lang ++ [newline]) ++ t)
    by (by rewrite <- !app_assoc).
  replace (3 + length lang)%nat with (length ([backtick; backtick] ++ lang ++ [newline]))
    by (rewrite !length_app; simpl; lia).
  apply drop_app_length.
Qed.

Lemma chars_fenced lang body :
  chars (fenced lang body)
  = fence ++ chars lang ++ newline :: chars body ++ newline :: fence ++ [].
Proof.
  unfold fenced. rewrite !chars_app, !chars_ofChars, app_nil_r.
  by rewrite <- !app_assoc.
Qed.

Lemma stripFencesOf_fenced lang body :
  ~ In backtick (chars body) -> stripFencesOf lang (fenced lang body) = body.
Proof.
  intros Hbody. unfold stripFencesOf.
  rewrite chars_fenced, stripFencesOfChars_opening.
  rewrite stripFencesOfChars_until_fence by done.
  cbn [stripFencesOfChars]. by rewrite app_nil_r, ofChars_chars.
Qed.

Lemma stripFencesOf_after_line_break lang pre body :
  ~ In backtick (chars pre) -> ~ In backtick (chars lang) ->
  ~ In backtick (chars body) ->
  stripFencesOf lang (pre +:+ ofChars [newline] +:+ fenced lang body)
  = pre +:+ lang +:+ ofChars [newline] +:+ body.
Proof.
  intros Hpre Hlang Hbody. unfold stripFencesOf.
  rewrite !chars_app, chars_ofChars, chars_fenced.
  change ([newline] ++ fence ++ chars lang ++ newline :: chars body ++ newline :: fence ++ [])
    with (newline :: fence ++ (chars lang ++ newline :: chars body ++ newline :: fence ++ [])).
  rewrite stripFencesOfChars_until_fence by done.
  replace (chars lang ++ newline :: chars body ++ newline :: fence ++ [])
    with ((chars lang ++ newline :: chars body) ++ newline :: fence ++ [])
    by (by rewrite <- app_assoc).
  rewrite stripFencesOfChars_until_fence.
  - cbn [stripFencesOfChars]. rewrite app_nil_r.
    rewrite !ofChars_app, !ofChars_chars. simpl.
    by rewrite ofChars_chars.
  - rewrite in_app_iff. intros [H|[H|H]]; [by apply Hlang | discriminate H | by apply Hbody].
Qed.

End Fences.

Section Replies.
Context {collaborators : Collaborators}.

#[local] Arguments Ascii.eqb : simpl never.

(** What [analyzeMedia] returns on a reply that starts with a text block. *)
Lemma analyzeMedia_text fileData professionType w text rest :
  anthropic_messages_create w fileData professionType
    = inr {| content := TextBlock text :: rest |} ->
  (analyzeMedia fileData professionType w).1 = JSON_parse (trim (stripFences text)).
Proof.
  intros Hreply. unfold analyzeMedia. rewrite try_catch_rethrow.
  unfold analyzeMedia_body, bind, anthropic_create. rewrite Hreply. simpl.
  by destruct (JSON_parse _).
Qed.

Lemma trim_after_line_break s : trim (ofChars [newline] +:+ s) = trim s.
Proof. unfold trim. by rewrite chars_app, chars_ofChars. Qed.

(** A fence without a language: the line break after it stays. *)
Lemma stripFences_bare_fence body :
  ~ In backtick (chars body) ->
  stripFences (fenced "" body) = ofChars [newline] +:+ body.
Proof.
  intros Hbody. rewrite stripFences_eq. unfold stripFencesOf.
  rewrite chars_fenced.
  change (fence ++ chars "" ++ newline :: chars body ++ newline :: fence ++ [])
    with (backtick :: backtick :: backtick
          :: (newline :: chars body) ++ newline :: fence ++ []).
  cbn [stripFencesOfChars].
  assert (fenceMatchOf (chars "json")
            (backtick :: backtick :: backtick
             :: (newline :: chars body) ++ newline :: fence ++ []) = 3%nat) as ->
    by reflexivity.
  cbn [stripFencesOfChars].
  rewrite stripFencesOfChars_until_fence.
  - cbn [stripFencesOfChars]. rewrite app_nil_r.
    change (newline :: chars body) with ([newline] ++ chars body).
    by rewrite ofChars_app, ofChars_chars.
  - intros [H|H]; [discriminate H | by apply Hbody].
Qed.

End Replies.

(** X3. A reply of the classifier whose text holds no backtick outside its
    fences is parsed the same whether it comes bare, wrapped in a
    [```json] fence or wrapped in a fence without a language: in the three
    cases [analyzeMedia] answers what [JSON.parse] makes of the trimmed
    body. *)
Theorem fenced_reply_is_unwrapped `{Collaborators} (fileData : list FileData)
    (professionType : string) (w : World) (body text : string)
    (rest : list ContentBlock) :
  ~ In backtick (chars body) ->
  In text [body; fenced "json" body; fenced "" body] ->
  anthropic_messages_create w fileData professionType
    = inr {| content := TextBlock text :: rest |} ->
  trim (stripFences text) = trim body
  /\ (analyzeMedia fileData professionType w).1 = JSON_parse (trim body).
Proof.
  intros Hbody Htext Hreply.
  assert (trim (stripFences text) = trim body) as Hclean.
  { destruct Htext as [<-|[<-|[<-|[]]]].
    - rewrite stripFences_eq. unfold stripFencesOf.
      by rewrite stripFencesOfChars_plain, ofChars_chars.
    - by rewrite stripFences_eq, stripFencesOf_fenced.
    - by rewrite stripFences_bare_fence, trim_after_line_break. }
  split; [done|]. by rewrite (analyzeMedia_text _ _ _ _ _ Hreply), Hclean.
Qed.

(** The hypotheses of X3 met by an empty array in a [```json] fence. *)
Lemma fenced_reply_is_unwrapped_witness :
  trim (stripFences (fenced "json" "[]")) = "[]"
  /\ (@analyzeMedia
        (Doubles.scripted (Doubles.replyText (fenced "json" "[]"))
           (inr Doubles.threeEntries) (fun _ => false))
        [] "photographer" Doubles.world0).1
     = inr (JArr []).
Proof.
  apply (@fenced_reply_is_unwrapped
           (Doubles.scripted (Doubles.replyText (fenced "json" "[]"))
              (inr Doubles.threeEntries) (fun _ => false))
           [] "photographer" Doubles.world0 "[]" (fenced "json" "[]") []).
  - intros [H|[H|[]]]; discriminate H.
  - right. by left.
  - reflexivity.
Defined.

(** X4. A fenced block that follows other text on a new line loses its
    fences but keeps the language word: the expression matches the opening
    fence together with the line break before it, so that [json] and the
    rest of the line stay in the text handed to [JSON.parse]. *)
Theorem fence_after_text_keeps_language `{Collaborators} (fileData : list FileData)
    (professionType : string) (w : World) (pre body : string)
    (rest : list ContentBlock) :
  ~ In backtick (chars pre) ->
  ~ In backtick (chars body) ->
  anthropic_messages_create w fileData professionType
    = inr {| content :=
               TextBlock (pre +:+ ofChars [newline] +:+ fenced "json" body) :: rest |} ->
  stripFences (pre +:+ ofChars [newline] +:+ fenced "json" body)
    = pre +:+ "json" +:+ ofChars [newline] +:+ body
  /\ (analyzeMedia fileData professionType w).1
     = JSON_parse (trim (pre +:+ "json" +:+ ofChars [newline] +:+ body)).
Proof.
  intros Hpre Hbody Hreply.
  assert (stripFences (pre +:+ ofChars [newline] +:+ fenced "json" body)
          = pre +:+ "json" +:+ ofChars [newline] +:+ body) as Hclean.
  { rewrite stripFences_eq. apply stripFencesOf_after_line_break; try done.
    intros [Hj|[Hj|[Hj|[Hj|[]]]]]; discriminate Hj. }
  split; [done|]. by rewrite (analyzeMedia_text _ _ _ _ _ Hreply), Hclean.
Qed.

(** The hypotheses of X4 met by a sentence followed by a fenced array: the
    text to parse starts with the sentence and the word [json]. *)
Lemma fence_after_text_keeps_language_witness :
  stripFences ("Here is the analysis:" +:+ ofChars [newline] +:+ fenced "json" "[]")
    = "Here is the analysis:" +:+ "json" +:+ ofChars [newline] +:+ "[]"
  /\ (@analyzeMedia
        (Doubles.scripted
           (Doubles.replyText
              ("Here is the analysis:" +:+ ofChars [newline] +:+ fenced "json" "[]"))
           (inr Doubles.threeEntries) (fun _ => false))
        [] "photographer" Doubles.world0).1
     = Doubles.parseEmptyArray
         (trim ("Here is the analysis:" +:+ "json" +:+ ofChars [newline] +:+ "[]")).
Proof.
  apply (@fence_after_text_keeps_language
           (Doubles.scripted
              (Doubles.replyText
                 ("Here is the analysis:" +:+ ofChars [newline] +:+ fenced "json" "[]"))
              (inr Doubles.threeEntries) (fun _ => false))
           [] "photographer" Doubles.world0 "Here is the analysis:" "[]" []).
  - vm_compute. intuition discriminate.
  - vm_compute. intuition discriminate.
  - reflexivity.
Defined.

Section Doctype.

#[local] Arguments Ascii.eqb : simpl never.

Lemma fenced_html_page body :
  ~ In backtick (chars body) -> trim (stripFencesOf "html" (fenced "html" body)) = trim body.
Proof. intros Hbody. by rewrite stripFencesOf_fenced. Qed.

End Doctype.

(** X5. The page that [generatePortfolioHTML] returns always starts with
    the doctype declaration, whatever the case of its letters: a reply
    that already starts with one (once fences and surrounding white space
    are gone) is returned as cleaned, every other reply, the empty one
    included, gets [<!DOCTYPE html>] and a line break in front; a page in
    an [```html] fence is returned without the fence. *)
Theorem portfolio_html_starts_with_doctype (text : string) :
  startsWith "<!doctype html>" (toLowerCase (finishPortfolioHTML text)) = true
  /\ (startsWith "<!doctype html>" (toLowerCase (trim (stripFencesOf "html" text))) = true ->
      finishPortfolioHTML text = trim (stripFencesOf "html" text))
  /\ (startsWith "<!doctype html>" (toLowerCase (trim (stripFencesOf "html" text))) = false ->
      finishPortfolioHTML text
      = "<!DOCTYPE html>" +:+ ofChars [newline] +:+ trim (stripFencesOf "html" text))
  /\ (~ In backtick (chars text) ->
      finishPortfolioHTML (fenced "html" text) = finishPortfolioHTML text).
Proof.
  unfold finishPortfolioHTML.
  repeat match goal with |- _ /\ _ => split end.
  - destruct (startsWith _ (toLowerCase (trim _))) eqn:Hstart; cbn [negb]; [done|].
    rewrite toLowerCase_app. apply prefix_app_self.
  - by intros ->.
  - by intros ->.
  - intros Hplain. rewrite stripFencesOf_fenced by done.
    unfold stripFencesOf at 1 2 3.
    by rewrite (stripFencesOfChars_plain _ _ Hplain), ofChars_chars.
Qed.

(** The hypotheses of X5 met by a page with an upper-case doctype and by a
    page without one. *)
Lemma portfolio_html_starts_with_doctype_witness :
  finishPortfolioHTML "<!DOCTYPE HTML><html></html>" = "<!DOCTYPE HTML><html></html>"
  /\ finishPortfolioHTML "<html></html>"
     = "<!DOCTYPE html>" +:+ ofChars [newline] +:+ "<html></html>"
  /\ finishPortfolioHTML (fenced "html" "<html></html>")
     = finishPortfolioHTML "<html></html>".
Proof.
  repeat match goal with |- _ /\ _ => split end.
  - apply (proj1 (proj2 (portfolio_html_starts_with_doctype
                           "<!DOCTYPE HTML><html></html>"))).
    reflexivity.
  - apply (proj1 (proj2 (proj2 (portfolio_html_starts_with_doctype "<html></html>")))).
    reflexivity.
  - apply (proj2 (proj2 (proj2 (portfolio_html_starts_with_doctype "<html></html>")))).
    vm_compute. intuition discriminate.
Defined.

Section Usernames.

Lemma usernameChar_lowerChar c :
  usernameChar (lowerChar c) = usernameChar c
                               || ((65 <=? N_of_ascii c) && (N_of_ascii c <=? 90))%N.
Proof. by destruct c as [[] [] [] [] [] [] [] []]. Qed.

Lemma usernameChar_upperChar c :
  usernameChar (lowerChar (upperChar c)) = usernameChar (lowerChar c).
Proof. by rewrite lowerChar_upperChar. Qed.

Lemma usernameChar_ascii c : usernameChar (lowerChar c) = true -> (N_of_ascii c < 128)%N.
Proof. destruct c as [[] [] [] [] [] [] [] []]; by vm_compute. Qed.

Lemma length_chars s : length (chars s) = String.length s.
Proof. induction s as [|c s IH]; [done|]. simpl. by rewrite <- IH. Qed.

End Usernames.

(** X6. The validation of user names, shared by [checkUsername] and
    [upsertProfile], lower-cases the name before it tests it. For a name
    made of ASCII characters: it is accepted exactly when it has 4 to 20
    characters, each one a letter of either case, a digit, an underscore
    or a hyphen. Upper-case letters are thus accepted, and changing the
    case of a name never changes the verdict. *)
Theorem username_validation_ignores_case (username : string) :
  Forall (fun c => (N_of_ascii c < 128)%N) (chars username) ->
  (validUsername username = true <->
     (4 <= String.length username <= 20)%nat
     /\ Forall (fun c =>
          let n := N_of_ascii c in
          (65 <= n <= 90 \/ 97 <= n <= 122 \/ 48 <= n <= 57 \/ n = 95 \/ n = 45)%N)
          (chars username))
  /\ validUsername (toUpperCase username) = validUsername username
  /\ validUsername (toLowerCase username) = validUsername username.
Proof.
  intros Hascii. unfold validUsername, usernameRegex_test.
  repeat match goal with |- _ /\ _ => split end.
  - unfold toLowerCase. rewrite chars_ofChars, length_map, length_chars.
    rewrite !andb_true_iff, forallb_forall, List.Forall_forall.
    rewrite Nat.leb_le, Nat.leb_le.
    split; intros [Hlen Hall]; (split; [lia|]).
    + intros c Hc. specialize (Hall (lowerChar c) (in_map _ _ _ Hc)).
      rewrite usernameChar_lowerChar in Hall. unfold usernameChar in Hall.
      rewrite !orb_true_iff, !andb_true_iff, !N.leb_le, !N.eqb_eq in Hall. tauto.
    + intros c' [c [<- Hc]]%in_map_iff. specialize (Hall c Hc).
      rewrite usernameChar_lowerChar. unfold usernameChar.
      rewrite !orb_true_iff, !andb_true_iff, !N.leb_le, !N.eqb_eq. cbv zeta in Hall. tauto.
  - by rewrite toLowerCase_toUpperCase.
  - by rewrite toLowerCase_idemp.
Qed.

(** The hypothesis of X6 met by a name in mixed case. *)
Lemma username_validation_ignores_case_witness :
  validUsername "Ada_Lovelace-1815" = true
  /\ validUsername (toUpperCase "Ada_Lovelace-1815") = validUsername "Ada_Lovelace-1815".
Proof.
  destruct (username_validation_ignores_case "Ada_Lovelace-1815") as (Hiff & Hupper & _).
  - repeat constructor.
  - split; [|exact Hupper]. apply Hiff. split; [simpl; lia|].
    repeat (constructor; [simpl; lia|]). constructor.
Defined.

Section KeyNamespace.

#[local] Arguments Ascii.eqb : simpl never.

Lemma prefix_isPrefixChars p :
  forall s, String.prefix p s = isPrefixChars (chars p) (chars s).
Proof.
  induction p as [|a p IH]; intros [|b s]; try done.
  simpl. rewrite <- IH.
  destruct (ascii_dec a b) as [->|Hne].
  - by rewrite Ascii.eqb_refl.
  - by destruct (Ascii.eqb_spec a b).
Qed.

Lemma isPrefixChars_cancel m a b :
  isPrefixChars (m ++ a) (m ++ b) = isPrefixChars a b.
Proof.
  induction m as [|c m IH]; [done|]. simpl. by rewrite Ascii.eqb_refl.
Qed.

(** Two names that hold no [sep] and are followed by [sep] agree as soon as
    one, with its [sep], is a prefix of the other. *)
Lemma isPrefixChars_delimited (sep : ascii) q :
  forall p r1 r2,
    ~ In sep q -> ~ In sep p ->
    isPrefixChars (q ++ sep :: r1) (p ++ sep :: r2) = true -> q = p.
Proof.
  induction q as [|a q IH]; intros [|c p] r1 r2 Hq Hp; simpl; try done.
  - intros [Heq _]%andb_prop. apply Ascii.eqb_eq in Heq as <-.
    destruct Hp. by left.
  - intros [Heq _]%andb_prop. apply Ascii.eqb_eq in Heq as ->.
    destruct Hq. by left.
  - intros [Heq Hrest]%andb_prop. apply Ascii.eqb_eq in Heq as ->.
    f_equal. apply (IH p r1 r2); [| |done].
    + intros Hin. apply Hq. by right.
    + intros Hin. apply Hp. by right.
Qed.

(** The key made for a profile starts with the folder of the profile. *)
Lemma mediaKey_in_folder timestamp bytes profileId fileName :
  startsWith (userMediaPrefix profileId) (mediaKey timestamp bytes profileId fileName)
  = true.
Proof.
  unfold mediaKey, userMediaPrefix, startsWith.
  rewrite <- (append_assoc "media/" profileId "/").
  rewrite <- (append_assoc "media/" profileId).
  rewrite <- (append_assoc ("media/" +:+ profileId) "/").
  apply prefix_app_self.
Qed.

End KeyNamespace.

(** X7. Every key that [generateMediaKey] makes for a profile lies under
    the prefix that [listUserMedia] lists for that profile, and, for
    profile identifiers without a slash, under the prefix of no other
    profile: the media folders of two profiles never share a key. *)
Theorem media_keys_stay_in_their_folder `{Collaborators} (profileId other fileName : string)
    (w : World) (key : string) :
  (generateMediaKey profileId fileName w).1 = inr key ->
  startsWith (userMediaPrefix profileId) key = true
  /\ (~ In "/"%char (chars profileId) -> ~ In "/"%char (chars other) ->
      (startsWith (userMediaPrefix other) key = true <-> other = profileId)).
Proof.
  intros Hkey. apply (inj inr) in Hkey as <-.
  split; [apply mediaKey_in_folder|].
  intros Hid Hother. split; [|intros ->; apply mediaKey_in_folder].
  unfold mediaKey, userMediaPrefix, startsWith.
  rewrite prefix_isPrefixChars, !chars_app.
  rewrite isPrefixChars_cancel.
  change (chars "/") with ("/"%char :: []).
  change (["/"%char] ++ ?x) with ("/"%char :: x).
  intros Hprefix. apply chars_inj.
  by apply (isPrefixChars_delimited "/"%char _ _ _ _ Hother Hid Hprefix).
Qed.

(** The hypotheses of X7 met by the first key made for profile [p1], which
    lies in the folder of [p1] and not in the folder of [p2]. *)
Lemma media_keys_stay_in_their_folder_witness :
  startsWith (userMediaPrefix "p1") "media/p1/1700000000000-0101010101010101.pdf" = true
  /\ (startsWith (userMediaPrefix "p2") "media/p1/1700000000000-0101010101010101.pdf" = true
      <-> "p2" = "p1").
Proof.
  destruct (@media_keys_stay_in_their_folder Doubles.allGood "p1" "p2" "resume.pdf"
              Doubles.world0 "media/p1/1700000000000-0101010101010101.pdf" eq_refl)
    as [Hown Hother].
  split; [exact Hown|]. apply Hother; vm_compute; intuition discriminate.
Defined.

(** ** The single-file upload, whatever happens *)

Section SingleUploadRun.
Context {collaborators : Collaborators}.

(** Every run of [uploadMediaFile], with what it adds to the stores. *)
Lemma uploadMediaFile_run (req : Request) (w : World) :
  exists e w' objs calls assets,
    uploadMediaFile req w = (Next e, w')
    /\ objectStore w' = objectStore w ++ objs
    /\ classifierCalls w' = classifierCalls w ++ calls
    /\ mediaAssets w' = mediaAssets w ++ assets
    /\ profiles w' = profiles w
    /\ (length assets <= length calls <= length objs)%nat
    /\ (length objs <= 1)%nat
    /\ Forall (fun a =>
         exists o f p,
           file req = Some f /\ profileOfUser (userId req) w = Some p
           /\ assets = [a] /\ objs = [o] /\ e = bigIntError
           /\ fileUrl (data a) = objectUrl BUCKET_NAME (Key o)
           /\ profileId (data a) = profile_id p
           /\ fileName (data a) = originalname f
           /\ fileType (data a) = fileTypeOf (mimetype f)
           /\ fileSize (data a) = size f) assets
    /\ Forall (fun o =>
         exists f p,
           file req = Some f /\ profileOfUser (userId req) w = Some p
           /\ Body o = buffer f /\ ContentType o = mimetype f
           /\ ACL o = "public-read" /\ Bucket o = BUCKET_NAME
           /\ startsWith (userMediaPrefix (profile_id p)) (Key o) = true) objs.
Proof.
  unfold uploadMediaFile, handle, bind, prisma_profile_findFirst.
  destruct (file req) as [f|] eqn:Hfile; simpl.
  2:{ exists (AppError "No file provided" 400), w, [], [], [].
      rewrite !app_nil_r. repeat match goal with |- _ /\ _ => split end; auto. }
  destruct (profileOfUser (userId req) w) as [p|] eqn:Hprofile; simpl.
  2:{ eexists _, _, [], [], []. split; [reflexivity|].
      rewrite !app_nil_r. repeat match goal with |- _ /\ _ => split end; auto. }
  set (key := mediaKey _ _ _ _).
  set (w1 := tick (tick (tick w))).
  destruct (uploadToS3_cases key (buffer f) (mimetype f) w1) as [[err [_ ->]]|[_ ->]];
    simpl.
  { eexists _, _, [], [], []. split; [reflexivity|].
    rewrite !app_nil_r. repeat match goal with |- _ /\ _ => split end; auto. }
  set (o := {| Bucket := BUCKET_NAME; Key := key; Body := buffer f;
               ContentType := mimetype f; ACL := "public-read" |}).
  set (w2 := tick (putObject o w1)).
  set (batch := [_]).
  assert (Forall (fun o =>
            exists f0 p0,
              Some f = Some f0 /\ Some p = Some p0
              /\ Body o = buffer f0 /\ ContentType o = mimetype f0
              /\ ACL o = "public-read" /\ Bucket o = BUCKET_NAME
              /\ startsWith (userMediaPrefix (profile_id p0)) (Key o) = true) [o])
    as Hobject.
  { constructor; [|constructor]. exists f, p.
    repeat match goal with |- _ /\ _ => split end; try done.
    apply mediaKey_in_folder. }
  pose proof (analyzeMedia_world batch (professionType p) w2) as Hworld.
  destruct (analyzeMedia batch (professionType p) w2) as [[err|analysis] w3];
    simpl in Hworld; subst w3.
  { eexists _, _, [o], [_], []. split; [reflexivity|]. simpl.
    rewrite !app_nil_r. repeat match goal with |- _ /\ _ => split end; auto. }
  destruct (js_index analysis 0) as [err|first]; simpl.
  { eexists _, _, [o], [_], []. split; [reflexivity|]. simpl.
    rewrite !app_nil_r. repeat match goal with |- _ /\ _ => split end; auto. }
  destruct (js_get _ "category") as [err|cat]; simpl.
  { eexists _, _, [o], [_], []. split; [reflexivity|]. simpl.
    rewrite !app_nil_r. repeat match goal with |- _ /\ _ => split end; auto. }
  destruct (js_get _ "tags") as [err|tgs]; simpl.
  { eexists _, _, [o], [_], []. split; [reflexivity|]. simpl.
    rewrite !app_nil_r. repeat match goal with |- _ /\ _ => split end; auto. }
  match goal with
  | |- context [prisma_create ?d ?w] =>
    destruct (prisma_create_cases d w) as [[err ->]|[i ->]]
  end; simpl.
  { eexists _, _, [o], [_], []. split; [reflexivity|]. simpl.
    rewrite !app_nil_r. repeat match goal with |- _ /\ _ => split end; auto. }
  eexists _, _, [o], [_], [_]. split; [reflexivity|]. simpl.
  repeat match goal with |- _ /\ _ => split end; auto.
  constructor; [|constructor].
  exists o, f, p. by repeat match goal with |- _ /\ _ => split end.
Qed.

End SingleUploadRun.

(** X8. Whatever the request and whatever the collaborators answer, a
    single-file upload puts at most one object, sends the classifier at
    most one request and persists at most one record, in that order: no
    request to the classifier without an object stored, no record without
    a request to the classifier. It never answers 201: every run ends in
    [next], and when a record has been persisted (under the URL of the
    object, with the name, the size and the kind of the file and the
    caller's profile) the error is the [TypeError] of [JSON.stringify] on
    the BigInt [fileSize] of the record in the body. The object, when
    there is one, holds the bytes and the declared type of the uploaded
    file, is publicly readable and lies in the media folder of the
    caller's profile. Profiles are never touched. *)
Theorem uploadMediaFile_effects `{Collaborators} (req : Request) (w : World) :
  exists e w' objs calls assets,
    uploadMediaFile req w = (Next e, w')
    /\ objectStore w' = objectStore w ++ objs
    /\ classifierCalls w' = classifierCalls w ++ calls
    /\ mediaAssets w' = mediaAssets w ++ assets
    /\ profiles w' = profiles w
    /\ (length assets <= length calls <= length objs)%nat
    /\ (length objs <= 1)%nat
    /\ Forall (fun a =>
         exists o f p,
           file req = Some f /\ profileOfUser (userId req) w = Some p
           /\ assets = [a] /\ objs = [o] /\ e = bigIntError
           /\ fileUrl (data a) = objectUrl BUCKET_NAME (Key o)
           /\ profileId (data a) = profile_id p
           /\ fileName (data a) = originalname f
           /\ fileType (data a) = fileTypeOf (mimetype f)
           /\ fileSize (data a) = size f) assets
    /\ Forall (fun o =>
         exists f p,
           file req = Some f /\ profileOfUser (userId req) w = Some p
           /\ Body o = buffer f /\ ContentType o = mimetype f
           /\ ACL o = "public-read" /\ Bucket o = BUCKET_NAME
           /\ startsWith (userMediaPrefix (profile_id p)) (Key o) = true) objs.
Proof. apply uploadMediaFile_run. Qed.

(** X9. Once the file is stored and the classifier has answered with a
    value that can be indexed, reading [category] and [tags] never
    throws, as a truthy first element is neither [null] nor [undefined]
    and the default is an object. What is read is persisted as it is (a
    missing category as [undefined]), with the chosen element as
    metadata. When the Record Store accepts the record, the handler then
    fails to serialise its answer and hands the [TypeError] to [next],
    with the record persisted; when the Record Store refuses the record,
    its error goes to [next] and the object stays in the Object Store
    with no record for it. *)
Theorem uploadMediaFile_after_classification `{Collaborators} (req : Request) (w : World)
    (f : UploadedFile) (p : Profile) (s3Key fileUrl : string) (w1 w2 w3 : World)
    (analysis first : js_value) :
  file req = Some f ->
  profileOfUser (userId req) w = Some p ->
  generateMediaKey (profile_id p) (originalname f) (tick w) = (inr s3Key, w1) ->
  uploadToS3 s3Key (buffer f) (mimetype f) w1 = (inr fileUrl, w2) ->
  analyzeMedia
    [{| fd_fileName := originalname f; fd_fileType := fileTypeOf (mimetype f);
        fd_description := body_description req |}]
    (professionType p) w2 = (inr analysis, w3) ->
  js_index analysis 0 = inr first ->
  let mediaData := js_or first (uncategorized (default "" (body_description req))) in
  exists category tags,
    js_get mediaData "category" = inr category
    /\ js_get mediaData "tags" = inr tags
    /\ let record :=
         {| profileId := profile_id p; fileName := originalname f;
            fileType := fileTypeOf (mimetype f); fileUrl := fileUrl; fileSize := size f;
            category := category; tags := JSON_stringify tags;
            metadata := JSON_stringify mediaData; displayOrder := None |} in
       match prisma_mediaAsset_create w3 record with
       | inr i =>
         let asset := {| id := i; data := record |} in
         uploadMediaFile req w = (Next bigIntError, tick (insertAsset asset w3))
         /\ mediaAssets (tick (insertAsset asset w3)) = mediaAssets w ++ [asset]
       | inl error =>
         uploadMediaFile req w = (Next error, tick w3)
         /\ mediaAssets (tick w3) = mediaAssets w
         /\ exists o, In o (objectStore (tick w3)) /\ Key o = s3Key /\ Body o = buffer f
       end.
Proof.
  intros Hfile Hprofile Hkey Hupload Hcall Hfirst mediaData.
  assert (exists category tags,
            js_get mediaData "category" = inr category
            /\ js_get mediaData "tags" = inr tags) as (cat & tgs & Hcat & Htags).
  { unfold mediaData, js_or. destruct (js_truthy first) eqn:Htruthy.
    - destruct first; try discriminate Htruthy; by eexists _, _.
    - by eexists _, _. }
  exists cat, tgs. split; [done|]. split; [done|]. intros record.
  assert (uploadMediaFile req w
          = handle (mediaAsset <- prisma_create record ;
                    res_json [mediaAsset]
                      (Json 201 (UploadResult "File uploaded successfully"
                                   mediaAsset s3Key))) w3) as Hrun.
  { unfold uploadMediaFile, handle. rewrite Hfile.
    rewrite (bind_returns _ _ w f w eq_refl).
    rewrite (bind_returns _ _ w (Some p) (tick w))
      by (unfold prisma_profile_findFirst; by rewrite Hprofile).
    rewrite (bind_returns _ _ (tick w) p (tick w) eq_refl).
    rewrite (bind_returns _ _ _ _ _ Hkey).
    rewrite (bind_returns _ _ _ _ _ Hupload).
    rewrite (bind_returns _ _ _ _ _ Hcall).
    rewrite Hfirst. rewrite (bind_returns _ _ w3 first w3 eq_refl).
    fold mediaData. rewrite Hcat, Htags.
    rewrite (bind_returns _ _ w3 cat w3 eq_refl).
    by rewrite (bind_returns _ _ w3 tgs w3 eq_refl). }
  rewrite Hrun. unfold handle, bind, prisma_create.
  pose proof (generateMediaKey_world _ _ _ _ _ Hkey) as ->.
  match type of Hcall with
  | analyzeMedia ?batch _ _ = _ =>
    pose proof (analyzeMedia_world batch (professionType p) w2) as Hworld
  end.
  rewrite Hcall in Hworld. simpl in Hworld. subst w3.
  destruct (uploadToS3_cases s3Key (buffer f) (mimetype f) (tick (tick (tick w))))
    as [[e [_ He]]|[_ Hok]]; rewrite Hupload in *; [discriminate He|].
  injection Hok as _ ->.
  destruct (prisma_mediaAsset_create _ record) as [error|i]; simpl; [|done].
  split; [done|]. split; [done|].
  exists {| Bucket := BUCKET_NAME; Key := s3Key; Body := buffer f;
            ContentType := mimetype f; ACL := "public-read" |}.
  split; [|by split]. simpl. apply in_or_app. right. by left.
Qed.

(** The hypotheses of X9 met by a classifier that names a category and a
    tag, and by a Record Store that is down. *)
Lemma uploadMediaFile_after_classification_witness :
  (exists asset w4,
     @uploadMediaFile MoreDoubles.classifierTagged Doubles.pdfRequest Doubles.world0
       = (Next bigIntError, w4)
     /\ mediaAssets w4 = [asset]
     /\ category (data asset) = JStr "Portraits"
     /\ tags (data asset) = JStr ("[" +:+ MoreDoubles.quoted "studio" +:+ "]"))
  /\ (exists w4,
        @uploadMediaFile MoreDoubles.recordStoreDown Doubles.pdfRequest Doubles.world0
          = (Next (JsError "PrismaClientKnownRequestError" "Can't reach database server"),
             w4)
        /\ mediaAssets w4 = []
        /\ exists o, In o (objectStore w4) /\ Key o = Doubles.pdfKey).
Proof.
  split.
  - destruct (@uploadMediaFile_after_classification MoreDoubles.classifierTagged
                Doubles.pdfRequest Doubles.world0 Doubles.pdfFile Doubles.owner
                _ _ _ _ _ _ _ eq_refl eq_refl eq_refl eq_refl eq_refl eq_refl)
      as (cat & tgs & Hcat & Htags & Hrun & Hassets).
    injection Hcat as <-. injection Htags as <-.
    eexists _, _. split; [exact Hrun|]. split; [exact Hassets|]. split; reflexivity.
  - destruct (@uploadMediaFile_after_classification MoreDoubles.recordStoreDown
                Doubles.pdfRequest Doubles.world0 Doubles.pdfFile Doubles.owner
                _ _ _ _ _ _ _ eq_refl eq_refl eq_refl eq_refl eq_refl eq_refl)
      as (cat & tgs & _ & _ & Hrun & Hassets & o & Hin & Hkey & _).
    eexists. split; [exact Hrun|]. split; [exact Hassets|]. by exists o.
Defined.

(** ** More on the archive upload *)

Section TraceOrder.
Context {collaborators : Collaborators}.

(** Assets and failures each follow the order of the archive. *)
Lemma trace_order p es ts :
  Forall2 (entryOutcomeOk p) es ts ->
  sublist (map (fun a => fileName (data a)) (traceAssets ts))
          (map name (List.filter isFile es))
  /\ sublist (map failed_fileName (traceErrors es ts))
             (map name (List.filter isFile es)).
Proof.
  induction 1 as [|e t es ts Hok _ [IHa IHe]]; [by split|].
  rewrite trace_cons_assets, trace_cons_errors, !map_app.
  unfold isFile in *. simpl.
  destruct t; simpl in Hok; destruct_and?;
    repeat match goal with H : isDirectory _ = _ |- _ => rewrite H end; simpl.
  - done.
  - split; [by apply sublist_cons | by apply sublist_skip].
  - split; [by apply sublist_cons | by apply sublist_skip].
  - match goal with H : recordFor _ _ _ _ |- _ => destruct H as (_ & -> & _) end.
    split; [by apply sublist_skip | by apply sublist_cons].
Qed.

(** The objects of a trace: one for each asset at least, one for each
    readable entry of a supported type at most, all in the folder of the
    profile. *)
Lemma trace_objects p es ts :
  Forall2 (entryOutcomeOk p) es ts ->
  (length (traceAssets ts) <= length (traceObjects ts))%nat
  /\ sublist (map Body (traceObjects ts)) (omap storableBytes es)
  /\ Forall (fun o => startsWith (userMediaPrefix (profile_id p)) (Key o) = true
                      /\ Bucket o = BUCKET_NAME
                      /\ In (ContentType o) (map snd mimeTypes))
            (traceObjects ts).
Proof.
  induction 1 as [|e t es ts Hok _ (IHl & IHs & IHf)]; [by repeat split|].
  rewrite trace_cons_assets, trace_cons_objects, !length_app, map_app.
  assert (forall o, storedFor p e o -> isDirectory e = false ->
            storableBytes e = Some (Body o)) as Hhead.
  { intros o Hst Hdir. pose proof (storedFor_supported _ _ _ Hst) as Hsup.
    destruct Hst as (_ & Hdata & _).
    unfold storableBytes, isFile. by rewrite Hdir, Hsup, Hdata. }
  assert (forall o, storedFor p e o ->
            startsWith (userMediaPrefix (profile_id p)) (Key o) = true
            /\ Bucket o = BUCKET_NAME
            /\ In (ContentType o) (map snd mimeTypes)) as Hstored.
  { intros o (Hres & _ & Hbucket & ts0 & bytes & ->).
    split; [apply mediaKey_in_folder|]. split; [done|].
    unfold resolveEntryType in Hres.
    destruct (isSupportedType _) eqn:Hsup; [|discriminate Hres].
    simpl in Hres. injection Hres as _ Hmime. rewrite <- Hmime.
    destruct (supported_mime _ Hsup) as [Hin _].
    apply (in_map snd _ _ Hin). }
  cbn [omap list_omap].
  destruct t; simpl in Hok; destruct_and?;
    cbn [outcomeObjects outcomeAssets length app map Nat.add].
  - split; [lia|]. split; [|done].
    unfold storableBytes at 1, isFile.
    match goal with H : isDirectory _ = _ |- _ => rewrite H end. done.
  - split; [lia|]. split; [|done].
    destruct (storableBytes e); [by apply sublist_cons | done].
  - split; [lia|]. split.
    + rewrite (Hhead o) by done. by apply sublist_skip.
    + constructor; [by apply Hstored | done].
  - split; [lia|]. split.
    + rewrite (Hhead o) by done. by apply sublist_skip.
    + constructor; [by apply Hstored | done].
Qed.

End TraceOrder.

(** X10. For every archive upload that reaches the loop, the assets that
    the loop ends with are exactly the records that the request has
    persisted, in the order in which it persisted them; their names
    follow the order of the archive, and so do the names of the failures.
    The handler answers 201 with the failures when the loop has uploaded
    no asset; when it has uploaded one, the answer holds a record and the
    [TypeError] of its serialisation goes to [next]. *)
Theorem uploadZipArchive_keeps_archive_order `{Collaborators} (req : Request) (w : World)
    (f : UploadedFile) (p : Profile) (es : list ZipEntry) :
  file req = Some f ->
  profileOfUser (userId req) w = Some p ->
  AdmZip_getEntries (buffer f) = inr es ->
  exists ups errs w',
    forOf (zipEntryStep p) es ([], []) (tick w) = (inr (ups, errs), w')
    /\ uploadZipArchive req w = (answered ups (zipResponse ups errs), w')
    /\ mediaAssets w' = mediaAssets w ++ ups
    /\ sublist (map (fun a => fileName (data a)) ups) (map name (List.filter isFile es))
    /\ sublist (map failed_fileName errs) (map name (List.filter isFile es)).
Proof.
  intros Hfile Hprofile Hzip.
  destruct (uploadZipArchive_trace req w f p es Hfile Hprofile Hzip)
    as (ts & w' & Hts & Hloop & Hrun & _ & Hassets & _).
  eexists _, _, w'. split; [exact Hloop|]. split; [exact Hrun|].
  split; [exact Hassets|]. by apply (trace_order p).
Qed.

(** The hypotheses of X10 met by an archive of three entries, the last of
    an unsupported type. *)
Lemma uploadZipArchive_keeps_archive_order_witness :
  exists ups errs w',
    @forOf _ _ (@zipEntryStep Doubles.allGood Doubles.owner) Doubles.threeEntries ([], [])
      (tick Doubles.world0) = (inr (ups, errs), w')
    /\ @uploadZipArchive Doubles.allGood Doubles.zipRequest Doubles.world0
       = (answered ups (zipResponse ups errs), w')
    /\ mediaAssets w' = mediaAssets Doubles.world0 ++ ups
    /\ sublist (map (fun a => fileName (data a)) ups)
         (map name (List.filter isFile Doubles.threeEntries))
    /\ sublist (map failed_fileName errs)
         (map name (List.filter isFile Doubles.threeEntries)).
Proof.
  apply (@uploadZipArchive_keeps_archive_order Doubles.allGood Doubles.zipRequest
           Doubles.world0 Doubles.zipFile Doubles.owner Doubles.threeEntries);
    reflexivity.
Defined.

(** X11. For every archive upload that reaches the loop, the objects put
    by the request are at least as many as the records it persists (an
    object whose entry fails later stays in the store without a record)
    and hold, in the order of the archive and at most once each, bytes of
    file entries of a supported type whose data could be read; every one
    of them lies in the media folder of the caller's profile, in the
    configured bucket, with a content type of the table of MIME types. *)
Theorem uploadZipArchive_objects `{Collaborators} (req : Request) (w : World)
    (f : UploadedFile) (p : Profile) (es : list ZipEntry) :
  file req = Some f ->
  profileOfUser (userId req) w = Some p ->
  AdmZip_getEntries (buffer f) = inr es ->
  exists r w' newObjects newAssets,
    uploadZipArchive req w = (r, w')
    /\ objectStore w' = objectStore w ++ newObjects
    /\ mediaAssets w' = mediaAssets w ++ newAssets
    /\ (length newAssets <= length newObjects)%nat
    /\ sublist (map Body newObjects) (omap storableBytes es)
    /\ Forall (fun o => startsWith (userMediaPrefix (profile_id p)) (Key o) = true
                        /\ Bucket o = BUCKET_NAME
                        /\ In (ContentType o) (map snd mimeTypes))
              newObjects.
Proof.
  intros Hfile Hprofile Hzip.
  destruct (uploadZipArchive_trace req w f p es Hfile Hprofile Hzip)
    as (ts & w' & Hts & _ & Hrun & Hobj & Hassets & _).
  eexists _, w', _, _. split; [exact Hrun|]. split; [exact Hobj|].
  split; [exact Hassets|]. by apply (trace_objects p).
Qed.

(** The hypotheses of X11 met by an archive of three entries, with an
    Object Store that refuses videos. *)
Lemma uploadZipArchive_objects_witness :
  exists r w' newObjects newAssets,
    @uploadZipArchive Doubles.videosRefused Doubles.zipRequest Doubles.world0 = (r, w')
    /\ objectStore w' = objectStore Doubles.world0 ++ newObjects
    /\ mediaAssets w' = mediaAssets Doubles.world0 ++ newAssets
    /\ (length newAssets <= length newObjects)%nat
    /\ sublist (map Body newObjects) (omap storableBytes Doubles.threeEntries)
    /\ Forall (fun o =>
                 startsWith (userMediaPrefix (profile_id Doubles.owner)) (Key o) = true
                 /\ Bucket o = @BUCKET_NAME Doubles.videosRefused
                 /\ In (ContentType o) (map snd mimeTypes))
              newObjects.
Proof.
  apply (@uploadZipArchive_objects Doubles.videosRefused Doubles.zipRequest
           Doubles.world0 Doubles.zipFile Doubles.owner Doubles.threeEntries);
    reflexivity.
Defined.

Section ZipSucceeds.
Context {collaborators : Collaborators}.

Lemma sublist_same_length {A} (l1 l2 : list A) :
  sublist l1 l2 -> length l1 = length l2 -> l1 = l2.
Proof.
  induction 1 as [|x l1 l2 _ IH|x l1 l2 Hsub _]; simpl; intros Hlen.
  - done.
  - f_equal. apply IH. lia.
  - apply sublist_length in Hsub. lia.
Qed.

(** Collaborators that do not fail: the Object Store takes every object,
    the classifier answers with a value that can be indexed, the Record
    Store takes every record. *)
Hypothesis store_accepts : forall w o, s3Client_put_fails w o = None.
Hypothesis classifier_answers :
  forall w batch profession,
    exists analysis first,
      (analyzeMedia batch profession w).1 = inr analysis
      /\ js_index analysis 0 = inr first.
Hypothesis records_accepted : forall w d, exists i, prisma_mediaAsset_create w d = inr i.

Lemma zipEntryStep_succeeds p ups errs e w :
  (isDirectory e = true
   \/ exists bytes, getData e = inr bytes /\ unsupportedName (name e) = false) ->
  exists ups' w', zipEntryStep p (ups, errs) e w = (inr (ups', errs), w').
Proof.
  intros Hentry. unfold zipEntryStep, try_catch, bind.
  destruct (isDirectory e) eqn:Hdir; [by eexists _, _|].
  destruct Hentry as [Hd|(bytes & -> & Hname)]; [discriminate Hd|]. simpl.
  rewrite isSupportedType_resolve, Hname. simpl.
  match goal with
  | |- context [uploadToS3 ?k ?b ?c ?w] =>
    destruct (uploadToS3_cases k b c w) as [[err [Hfails _]]|[_ ->]]
  end; [by rewrite store_accepts in Hfails|]. simpl.
  match goal with
  | |- context [analyzeMedia ?b ?pt ?w] =>
    destruct (classifier_answers w b pt) as (analysis & first & Hcall & Hfirst);
    destruct (analyzeMedia b pt w) as [r w3]
  end.
  simpl in Hcall. subst r. simpl. rewrite Hfirst. simpl.
  assert (exists category tags,
            js_get (js_or first (uncategorized "")) "category" = inr category
            /\ js_get (js_or first (uncategorized "")) "tags" = inr tags)
    as (cat & tgs & -> & ->).
  { unfold js_or. destruct (js_truthy first) eqn:Htruthy.
    - destruct first; try discriminate Htruthy; by eexists _, _.
    - by eexists _, _. }
  simpl.
  match goal with
  | |- context [prisma_create ?d ?w] =>
    destruct (records_accepted w d) as [i Hcreate];
    unfold prisma_create; rewrite Hcreate
  end.
  by eexists _, _.
Qed.

Lemma forOf_zip_succeeds p es :
  Forall (fun e => isDirectory e = true
                   \/ exists bytes, getData e = inr bytes
                                    /\ unsupportedName (name e) = false) es ->
  forall ups errs w,
  exists ups' w', forOf (zipEntryStep p) es (ups, errs) w = (inr (ups', errs), w').
Proof.
  induction 1 as [|e es He _ IH]; intros ups errs w; [by eexists _, _|].
  destruct (zipEntryStep_succeeds p ups errs e w He) as (ups1 & w1 & Hstep).
  destruct (IH ups1 errs w1) as (ups' & w' & Hloop).
  exists ups', w'. cbn [forOf]. by rewrite (bind_returns _ _ _ _ _ Hstep).
Qed.

Lemma trace_no_errors p es ts :
  Forall (fun e => isDirectory e = true
                   \/ exists bytes, getData e = inr bytes
                                    /\ unsupportedName (name e) = false) es ->
  forall w w',
    forOf (zipEntryStep p) es ([], []) w
    = (inr (traceAssets ts, traceErrors es ts), w') ->
    traceErrors es ts = [].
Proof.
  intros Hes w w' Hrun.
  destruct (forOf_zip_succeeds p es Hes [] [] w) as (ups' & w'' & Hloop).
  rewrite Hloop in Hrun. by injection Hrun as _ <- _.
Qed.

End ZipSucceeds.

(** X12. When the Object Store takes every object, the classifier answers
    every request with a value that can be indexed and the Record Store
    takes every record, an archive whose file entries are all readable and
    of a supported type is uploaded in full: the loop ends without a
    failure and with one asset for each file entry, in the order of the
    archive, all of them persisted. (With at least one file entry the
    answer then holds a record, and the [TypeError] of its serialisation
    goes to [next].) *)
Theorem uploadZipArchive_uploads_everything `{Collaborators} (req : Request) (w : World)
    (f : UploadedFile) (p : Profile) (es : list ZipEntry) :
  (forall w o, s3Client_put_fails w o = None) ->
  (forall w batch profession,
     exists analysis first,
       (analyzeMedia batch profession w).1 = inr analysis
       /\ js_index analysis 0 = inr first) ->
  (forall w d, exists i, prisma_mediaAsset_create w d = inr i) ->
  file req = Some f ->
  profileOfUser (userId req) w = Some p ->
  AdmZip_getEntries (buffer f) = inr es ->
  Forall (fun e => isDirectory e = true
                   \/ exists bytes, getData e = inr bytes
                                    /\ unsupportedName (name e) = false) es ->
  exists ups w',
    forOf (zipEntryStep p) es ([], []) (tick w) = (inr (ups, []), w')
    /\ uploadZipArchive req w = (answered ups (zipResponse ups []), w')
    /\ map (fun a => fileName (data a)) ups = map name (List.filter isFile es)
    /\ mediaAssets w' = mediaAssets w ++ ups.
Proof.
  intros Hstore Hclassifier Hrecords Hfile Hprofile Hzip Hes.
  destruct (uploadZipArchive_trace req w f p es Hfile Hprofile Hzip)
    as (ts & w' & Hts & Hloop & Hrun & _ & Hassets & _).
  pose proof (trace_no_errors Hstore Hclassifier Hrecords p es ts Hes _ _ Hloop)
    as Hnone.
  pose proof (trace_outcome_count p es ts Hts) as Hcount.
  destruct (trace_order p es ts Hts) as [Horder _].
  rewrite Hnone in *. simpl in Hcount. rewrite Nat.add_0_r in Hcount.
  exists (traceAssets ts), w'.
  split; [exact Hloop|]. split; [exact Hrun|]. split; [|exact Hassets].
  apply sublist_same_length; [done|]. by rewrite !length_map.
Qed.

(** The hypotheses of X12 met by an archive of two images, one of them in
    a folder, and a directory, with collaborators that do not fail. *)
Lemma uploadZipArchive_uploads_everything_witness :
  exists ups w',
    @forOf _ _ (@zipEntryStep (MoreDoubles.tagged MoreDoubles.twoFiles) Doubles.owner)
      MoreDoubles.twoFiles ([], []) (tick Doubles.world0) = (inr (ups, []), w')
    /\ @uploadZipArchive (MoreDoubles.tagged MoreDoubles.twoFiles) Doubles.zipRequest
         Doubles.world0
       = (answered ups (zipResponse ups []), w')
    /\ map (fun a => fileName (data a)) ups = ["a.jpg"; "b.PNG"]
    /\ mediaAssets w' = mediaAssets Doubles.world0 ++ ups.
Proof.
  apply (@uploadZipArchive_uploads_everything (MoreDoubles.tagged MoreDoubles.twoFiles)
           Doubles.zipRequest Doubles.world0 Doubles.zipFile Doubles.owner
           MoreDoubles.twoFiles).
  - done.
  - intros w batch profession. eexists _, _. split; reflexivity.
  - intros w d. by eexists.
  - reflexivity.
  - reflexivity.
  - reflexivity.
  - constructor; [right; by eexists|].
    constructor; [by left|].
    constructor; [right; by eexists|]. constructor.
Defined.

Section OnlyDirectories.
Context {collaborators : Collaborators}.

Lemma forOf_zip_directories p es acc w :
  Forall (fun e => isDirectory e = true) es ->
  forOf (zipEntryStep p) es acc w = (inr acc, w).
Proof.
  induction 1 as [|e es He _ IH]; [done|].
  cbn [forOf]. rewrite (bind_returns _ _ w acc w); [done|].
  unfold zipEntryStep, try_catch. destruct acc as [ups errs]. by rewrite He.
Qed.

End OnlyDirectories.

(** X13. An archive without file entries (an empty archive, or one of
    directories only) is no error: the handler answers 201 with an empty
    list of assets, no [errors] field and a summary of zeros, and neither
    stores nor classifies anything. *)
Theorem uploadZipArchive_without_files `{Collaborators} (req : Request) (w : World)
    (f : UploadedFile) (p : Profile) (es : list ZipEntry) :
  file req = Some f ->
  profileOfUser (userId req) w = Some p ->
  AdmZip_getEntries (buffer f) = inr es ->
  Forall (fun e => isDirectory e = true) es ->
  exists w',
    uploadZipArchive req w
    = (Json 201
         (ZipResult "Uploaded 0 files from ZIP" [] None
            {| total := 0; successful := 0; failed := 0 |}), w')
    /\ objectStore w' = objectStore w
    /\ mediaAssets w' = mediaAssets w
    /\ classifierCalls w' = classifierCalls w.
Proof.
  intros Hfile Hprofile Hzip Hes. exists (tick w). split; [|done].
  unfold uploadZipArchive, handle, bind, prisma_profile_findFirst.
  rewrite Hfile. simpl. rewrite Hprofile. simpl. rewrite Hzip. simpl.
  by rewrite (forOf_zip_directories p es _ _ Hes).
Qed.

(** The hypotheses of X13 met by an archive of two directories. *)
Lemma uploadZipArchive_without_files_witness :
  exists w',
    @uploadZipArchive (MoreDoubles.tagged MoreDoubles.onlyDirectories)
      Doubles.zipRequest Doubles.world0
    = (Json 201
         (ZipResult "Uploaded 0 files from ZIP" [] None
            {| total := 0; successful := 0; failed := 0 |}), w')
    /\ objectStore w' = objectStore Doubles.world0
    /\ mediaAssets w' = mediaAssets Doubles.world0
    /\ classifierCalls w' = classifierCalls Doubles.world0.
Proof.
  apply (@uploadZipArchive_without_files (MoreDoubles.tagged MoreDoubles.onlyDirectories)
           Doubles.zipRequest Doubles.world0 Doubles.zipFile Doubles.owner
           MoreDoubles.onlyDirectories); try reflexivity.
  by repeat constructor.
Defined.

(** ** Deleting an asset *)

Section DeleteRun.
Context {collaborators : Collaborators}.

(** Every run of [deleteMediaAsset]. *)
Lemma deleteMediaAsset_run (req : Request) (w : World) :
  exists r w',
    deleteMediaAsset req w = (r, w')
    /\ profiles w' = profiles w
    /\ classifierCalls w' = classifierCalls w
    /\ match r with
       | Json status body =>
         status = 200 /\ body = MessageOnly "Media deleted successfully"
         /\ (exists a p,
               List.find (fun a => String.eqb (id a) (params_mediaId req)) (mediaAssets w)
                 = Some a
               /\ List.find (fun p => String.eqb (profile_id p) (profileId (data a)))
                    (profiles w) = Some p
               /\ profile_userId p = userId req)
         /\ mediaAssets w' = filter (fun a => id a <> params_mediaId req) (mediaAssets w)
         /\ Forall (fun a => id a <> params_mediaId req) (mediaAssets w')
       | Next e =>
         mediaAssets w' = mediaAssets w
         /\ (List.find (fun a => String.eqb (id a) (params_mediaId req)) (mediaAssets w)
               = None ->
             e = AppError "Media not found" 404 /\ objectStore w' = objectStore w)
         /\ (forall a,
               List.find (fun a => String.eqb (id a) (params_mediaId req)) (mediaAssets w)
                 = Some a ->
               (forall p,
                  List.find (fun p => String.eqb (profile_id p) (profileId (data a)))
                    (profiles w) = Some p ->
                  profile_userId p <> userId req) ->
               e = AppError "Unauthorized" 403 /\ objectStore w' = objectStore w)
       end.
Proof.
  unfold deleteMediaAsset, handle, bind, prisma_mediaAsset_findUnique,
    prisma_profile_findUnique.
  destruct (List.find _ (mediaAssets w)) as [a|] eqn:Hfound; simpl.
  2:{ eexists (Next _), _. split; [reflexivity|]. simpl.
      repeat match goal with |- _ /\ _ => split end; try done. }
  destruct (List.find _ (profiles w)) as [p|] eqn:Howner; simpl.
  2:{ eexists (Next _), _. split; [reflexivity|]. simpl.
      repeat match goal with |- _ /\ _ => split end; try done. }
  destruct (String.eqb_spec (profile_userId p) (userId req)) as [Huser|Huser]; simpl.
  2:{ eexists (Next _), _. split; [reflexivity|]. simpl.
      repeat match goal with |- _ /\ _ => split end; try done. }
  unfold deleteFromS3. rewrite try_catch_rethrow. unfold s3Client_send_delete.
  destruct (s3Client_delete_fails _ _) as [e|]; simpl.
  { eexists (Next _), _. split; [reflexivity|]. simpl.
    repeat match goal with |- _ /\ _ => split end; try done.
    intros a' [= <-] Hother. by destruct (Hother p Howner). }
  unfold prisma_delete.
  destruct (prisma_mediaAsset_delete_fails _ _) as [e|]; simpl.
  { eexists (Next _), _. split; [reflexivity|]. simpl.
    repeat match goal with |- _ /\ _ => split end; try done.
    intros a' [= <-] Hother. by destruct (Hother p Howner). }
  eexists (Json _ _), _. split; [reflexivity|]. simpl.
  repeat match goal with |- _ /\ _ => split end; try done.
  - by exists a, p.
  - apply Forall_forall. intros a' Ha'. by apply list_elem_of_filter in Ha' as [? _].
Qed.

End DeleteRun.

(** X14. Whatever the request, [deleteMediaAsset] removes at most the
    record named by the request, and only for its owner: it answers 200
    only when the record exists and the profile it belongs to is the
    caller's, and then no record with that identifier is left while every
    other record stays. A request for an unknown record goes to [next]
    with 404, one for a record of another user (or of no profile) with
    403, and both leave the Object Store and the records as they were;
    every error leaves the records as they were. Profiles are never
    touched and the classifier is never called. *)
Theorem deleteMediaAsset_only_by_owner `{Collaborators} (req : Request) (w : World) :
  exists r w',
    deleteMediaAsset req w = (r, w')
    /\ profiles w' = profiles w
    /\ classifierCalls w' = classifierCalls w
    /\ match r with
       | Json status body =>
         status = 200 /\ body = MessageOnly "Media deleted successfully"
         /\ (exists a p,
               List.find (fun a => String.eqb (id a) (params_mediaId req)) (mediaAssets w)
                 = Some a
               /\ List.find (fun p => String.eqb (profile_id p) (profileId (data a)))
                    (profiles w) = Some p
               /\ profile_userId p = userId req)
         /\ mediaAssets w' = filter (fun a => id a <> params_mediaId req) (mediaAssets w)
         /\ Forall (fun a => id a <> params_mediaId req) (mediaAssets w')
       | Next e =>
         mediaAssets w' = mediaAssets w
         /\ (List.find (fun a => String.eqb (id a) (params_mediaId req)) (mediaAssets w)
               = None ->
             e = AppError "Media not found" 404 /\ objectStore w' = objectStore w)
         /\ (forall a,
               List.find (fun a => String.eqb (id a) (params_mediaId req)) (mediaAssets w)
                 = Some a ->
               (forall p,
                  List.find (fun p => String.eqb (profile_id p) (profileId (data a)))
                    (profiles w) = Some p ->
                  profile_userId p <> userId req) ->
               e = AppError "Unauthorized" 403 /\ objectStore w' = objectStore w)
       end.
Proof. apply deleteMediaAsset_run. Qed.

(** X15. When the record exists and belongs to the caller,
    [deleteMediaAsset] deletes from the Object Store first and from the
    Record Store second, and stops at the first failure: when the Object
    Store fails nothing has changed; when the Record Store then fails, the
    object under the key read back from the URL is gone while the record,
    with its URL, is still there. Only when both succeed is the answer
    200. *)
Theorem deleteMediaAsset_object_first `{Collaborators} (req : Request) (w : World)
    (a : MediaAsset) (p : Profile) :
  List.find (fun a => String.eqb (id a) (params_mediaId req)) (mediaAssets w) = Some a ->
  List.find (fun p => String.eqb (profile_id p) (profileId (data a))) (profiles w)
    = Some p ->
  profile_userId p = userId req ->
  let s3Key := s3KeyOfUrl (fileUrl (data a)) in
  match s3Client_delete_fails (tick (tick w)) s3Key with
  | Some e => deleteMediaAsset req w = (Next e, tick (tick (tick w)))
  | None =>
    let w1 := tick (deleteObject s3Key (tick (tick w))) in
    match prisma_mediaAsset_delete_fails w1 (params_mediaId req) with
    | Some e =>
      deleteMediaAsset req w = (Next e, tick w1)
      /\ In a (mediaAssets (tick w1))
      /\ Forall (fun o => Some (Key o) <> s3Key) (objectStore (tick w1))
    | None =>
      deleteMediaAsset req w
      = (Json 200 (MessageOnly "Media deleted successfully"),
         tick (removeAsset (params_mediaId req) w1))
    end
  end.
Proof.
  intros Hfound Howner Huser s3Key.
  unfold deleteMediaAsset, handle, bind, prisma_mediaAsset_findUnique,
    prisma_profile_findUnique.
  rewrite Hfound. simpl. rewrite Howner. simpl.
  rewrite Huser, String.eqb_refl. simpl.
  unfold deleteFromS3. rewrite try_catch_rethrow. unfold s3Client_send_delete.
  fold s3Key. destruct (s3Client_delete_fails _ s3Key) as [e|]; simpl; [done|].
  unfold prisma_delete.
  destruct (prisma_mediaAsset_delete_fails _ _) as [e|]; simpl; [|done].
  split; [done|]. split.
  - apply find_some in Hfound as [Hin _]. exact Hin.
  - apply Forall_forall. intros o Ho. by apply list_elem_of_filter in Ho as [? _].
Qed.

(** The hypotheses of X15 met by a record whose key is read back from its
    URL, when the Record Store is down: the object is deleted, the error
    of the Record Store goes to [next] and the record stays. *)
Lemma deleteMediaAsset_object_first_witness :
  @s3KeyOfUrl MoreDoubles.recordStoreDown (fileUrl (data MoreDoubles.storedAsset))
    = Some (Key MoreDoubles.storedObject)
  /\ In MoreDoubles.storedObject (objectStore MoreDoubles.worldWithAsset)
  /\ exists w',
       @deleteMediaAsset MoreDoubles.recordStoreDown Doubles.deleteRequest
         MoreDoubles.worldWithAsset
       = (Next (JsError "PrismaClientKnownRequestError" "Can't reach database server"),
          w')
       /\ In MoreDoubles.storedAsset (mediaAssets w')
       /\ Forall (fun o => Some (Key o) <> Some (Key MoreDoubles.storedObject))
                 (objectStore w')
       /\ objectStore w' = [].
Proof.
  split; [reflexivity|]. split; [by left|].
  destruct (@deleteMediaAsset_object_first MoreDoubles.recordStoreDown
              Doubles.deleteRequest MoreDoubles.worldWithAsset MoreDoubles.storedAsset
              Doubles.owner eq_refl eq_refl eq_refl)
    as (Hrun & Hrecord & Hobject).
  eexists. split; [exact Hrun|]. split; [exact Hrecord|]. split; [exact Hobject|].
  reflexivity.
Defined.

(** ** Listing the assets of a profile *)

Section Listing.
Context {collaborators : Collaborators}.

Lemma getProfileMedia_run req w :
  getProfileMedia req w
  = (match profileOfUser (userId req) w with
     | None => inl (AppError "Profile not found" 404)
     | Some p =>
       match (prisma_mediaAsset_findMany (profile_id p) (tick w)).1 with
       | inr [] => inr (0%nat, [])
       | inr (_ :: _) => inl bigIntError
       | inl error => inl error
       end
     end,
     match profileOfUser (userId req) w with
     | None => tick w
     | Some _ => tick (tick w)
     end).
Proof.
  unfold getProfileMedia, bind, prisma_profile_findFirst, prisma_mediaAsset_findMany.
  destruct (profileOfUser (userId req) w); [|done]. simpl.
  by destruct (rev _).
Qed.

Lemma profileOfUser_profiles uid w w' :
  profiles w' = profiles w -> profileOfUser uid w' = profileOfUser uid w.
Proof. unfold profileOfUser. by intros ->. Qed.

Lemma findMany_In pid w x :
  In x (rev (List.filter (fun a => String.eqb (profileId (data a)) pid) (mediaAssets w)))
  <-> In x (mediaAssets w) /\ profileId (data x) = pid.
Proof. by rewrite <- in_rev, filter_In, String.eqb_eq. Qed.

End Listing.

(** X16. [getProfileMedia] answers for a profile without records only, and
    then with a total of 0 and an empty list: a listing that holds a
    record cannot be serialised, its [fileSize] being a BigInt. So once
    [uploadMediaFile] has persisted a record, the listing of the same user
    ends in [next] with that [TypeError]. Listing changes neither store. *)
Theorem listing_fails_once_uploaded `{Collaborators} (req : Request) (w : World) :
  (forall total l w1,
     getProfileMedia req w = (inr (total, l), w1) ->
     total = 0%nat /\ l = []
     /\ exists p,
          profileOfUser (userId req) w = Some p
          /\ Forall (fun a => profileId (data a) <> profile_id p) (mediaAssets w))
  /\ (forall r w',
        uploadMediaFile req w = (r, w') ->
        mediaAssets w' <> mediaAssets w ->
        exists w2,
          getProfileMedia req w' = (inl bigIntError, w2)
          /\ mediaAssets w2 = mediaAssets w'
          /\ objectStore w2 = objectStore w').
Proof.
  split.
  - intros total l w1. rewrite getProfileMedia_run.
    destruct (profileOfUser (userId req) w) as [p|]; [|done].
    unfold prisma_mediaAsset_findMany. cbn [fst tick mediaAssets].
    destruct (rev _) as [|x l0] eqn:Hfound; [|done].
    intros [= <- <- _]. split; [done|]. split; [done|].
    exists p. split; [done|]. apply List.Forall_forall. intros a Ha Hpid.
    assert (In a []) as []. rewrite <- Hfound. by apply findMany_In.
  - intros r w' Hrun Hchanged.
    destruct (uploadMediaFile_run req w)
      as (e & w0 & objs & calls & assets & Hrun0 & _ & _ & Hassets & Hprofiles & _ & _
          & Hrecord & _).
    rewrite Hrun in Hrun0. injection Hrun0 as _ <-.
    destruct assets as [|a assets]; [by rewrite app_nil_r in Hassets|].
    apply Forall_inv in Hrecord as (o & f & p & _ & Hprofile & Hone & _ & _ & _ & Hpid & _).
    injection Hone as ->.
    rewrite getProfileMedia_run, (profileOfUser_profiles _ _ _ Hprofiles), Hprofile.
    unfold prisma_mediaAsset_findMany. cbn [fst tick mediaAssets].
    rewrite Hassets, List.filter_app. cbn [List.filter].
    rewrite Hpid, String.eqb_refl, rev_app_distr. cbn [rev app].
    by eexists.
Qed.

(** X16 at the first upload of a user: the listing that answered before
    the upload fails after it. *)
Lemma listing_fails_once_uploaded_witness :
  (getProfileMedia Doubles.pdfRequest Doubles.world0).1 = inr (0%nat, [])
  /\ exists w2,
       getProfileMedia Doubles.pdfRequest
         (@uploadMediaFile Doubles.allGood Doubles.pdfRequest Doubles.world0).2
       = (inl bigIntError, w2)
       /\ mediaAssets w2
          = mediaAssets
              (@uploadMediaFile Doubles.allGood Doubles.pdfRequest Doubles.world0).2
       /\ objectStore w2
          = objectStore
              (@uploadMediaFile Doubles.allGood Doubles.pdfRequest Doubles.world0).2.
Proof.
  split; [reflexivity|].
  apply (proj2 (@listing_fails_once_uploaded Doubles.allGood Doubles.pdfRequest
                  Doubles.world0)
               (@uploadMediaFile Doubles.allGood Doubles.pdfRequest Doubles.world0).1
               (@uploadMediaFile Doubles.allGood Doubles.pdfRequest Doubles.world0).2).
  - reflexivity.
  - discriminate.
Defined.

(** X17. Once [deleteMediaAsset] has answered 200, the deleted record is
    found for nobody: for every user with a profile, the records that
    [getProfileMedia] finds after the deletion are those it found before
    without the records of the deleted identifier. The listing answers,
    with a total of 0, when none is left, and fails in the serialisation
    of its answer otherwise. *)
Theorem deleted_asset_is_not_listed `{Collaborators} (req other : Request) (w w' : World)
    (status : Z) (body : ResponseBody) (p : Profile) :
  deleteMediaAsset req w = (Json status body, w') ->
  profileOfUser (userId other) w = Some p ->
  exists before after,
    (prisma_mediaAsset_findMany (profile_id p) w).1 = inr before
    /\ (prisma_mediaAsset_findMany (profile_id p) w').1 = inr after
    /\ (forall x, In x after <-> In x before /\ id x <> params_mediaId req)
    /\ (getProfileMedia other w').1
       = match after with
         | [] => inr (0%nat, [])
         | _ :: _ => inl bigIntError
         end.
Proof.
  intros Hrun Hprofile.
  destruct (deleteMediaAsset_run req w) as (r0 & w0 & Hrun0 & Hprofiles & _ & Hbody).
  rewrite Hrun in Hrun0. injection Hrun0 as <- <-.
  destruct Hbody as (_ & _ & _ & Hassets & _).
  eexists _, _. split; [reflexivity|]. split; [reflexivity|]. split.
  - intros x. rewrite !findMany_In, Hassets, <- !list_elem_of_In, list_elem_of_filter.
    tauto.
  - rewrite getProfileMedia_run, (profileOfUser_profiles _ _ _ Hprofiles), Hprofile.
    unfold prisma_mediaAsset_findMany. cbn [fst snd tick mediaAssets].
    by destruct (rev _).
Qed.

(** The hypotheses of X17 met by the deletion of the only record of a
    profile: the listing, which failed before, answers after it. *)
Lemma deleted_asset_is_not_listed_witness :
  (getProfileMedia Doubles.deleteRequest MoreDoubles.worldWithAsset).1 = inl bigIntError
  /\ exists w',
       @deleteMediaAsset MoreDoubles.classifierTagged Doubles.deleteRequest
         MoreDoubles.worldWithAsset
       = (Json 200 (MessageOnly "Media deleted successfully"), w')
       /\ objectStore w' = []
       /\ (getProfileMedia Doubles.deleteRequest w').1 = inr (0%nat, []).
Proof.
  split; [reflexivity|]. eexists. split; [reflexivity|]. split; [reflexivity|].
  destruct (@deleted_asset_is_not_listed MoreDoubles.classifierTagged
              Doubles.deleteRequest Doubles.deleteRequest MoreDoubles.worldWithAsset
              _ _ _ Doubles.owner eq_refl eq_refl)
    as (before & after & _ & Hafter & _ & Hlisting).
  injection Hafter as <-. exact Hlisting.
Defined.

(** ** The error middleware and the statuses a client sees *)

(** X18. Outside development mode the error middleware discloses nothing
    about an error that is not an [AppError]: the answer carries no
    details, no message and no stack, and its status and text are one of
    four fixed pairs, whatever the message of the error. An [AppError] is
    answered with its own status and message, and without a stack. *)
Theorem errorHandler_discloses_nothing (NODE_ENV : option string)
    (stack : exn -> option string) (err : exn) :
  NODE_ENV <> Some "development" ->
  answer_details (errorHandler NODE_ENV stack err) = None
  /\ answer_message (errorHandler NODE_ENV stack err) = None
  /\ answer_stack (errorHandler NODE_ENV stack err) = None
  /\ match err with
     | AppError message statusCode =>
       answer_status (errorHandler NODE_ENV stack err) = statusCode
       /\ answer_error (errorHandler NODE_ENV stack err) = message
     | JsError _ _ =>
       In (answer_status (errorHandler NODE_ENV stack err),
           answer_error (errorHandler NODE_ENV stack err))
          [(400, "Database error"); (401, "Invalid token"); (401, "Token expired");
           (500, "Internal server error")]
     end.
Proof.
  intros Hmode.
  assert (match NODE_ENV with
          | Some v => String.eqb v "development"
          | None => false
          end = false) as Hdev.
  { destruct NODE_ENV as [v|]; [|done].
    destruct (String.eqb_spec v "development") as [->|]; [by destruct Hmode | done]. }
  unfold errorHandler. rewrite Hdev.
  destruct err as [message statusCode|name message]; [done|].
  destruct (String.eqb name "PrismaClientKnownRequestError"); [simpl; tauto|].
  destruct (String.eqb name "JsonWebTokenError"); [simpl; tauto|].
  destruct (String.eqb name "TokenExpiredError"); simpl; tauto.
Qed.

(** The hypothesis of X18 met in production by a connection error. *)
Lemma errorHandler_discloses_nothing_witness :
  answer_details
    (errorHandler (Some "production") (fun _ => Some "at Socket.emit (node:events:517:28)")
       (JsError "Error" "connect ECONNREFUSED 10.0.0.5:5432")) = None
  /\ answer_message
       (errorHandler (Some "production")
          (fun _ => Some "at Socket.emit (node:events:517:28)")
          (JsError "Error" "connect ECONNREFUSED 10.0.0.5:5432")) = None
  /\ answer_stack
       (errorHandler (Some "production")
          (fun _ => Some "at Socket.emit (node:events:517:28)")
          (JsError "Error" "connect ECONNREFUSED 10.0.0.5:5432")) = None
  /\ In (answer_status
           (errorHandler (Some "production")
              (fun _ => Some "at Socket.emit (node:events:517:28)")
              (JsError "Error" "connect ECONNREFUSED 10.0.0.5:5432")),
         answer_error
           (errorHandler (Some "production")
              (fun _ => Some "at Socket.emit (node:events:517:28)")
              (JsError "Error" "connect ECONNREFUSED 10.0.0.5:5432")))
        [(400, "Database error"); (401, "Invalid token"); (401, "Token expired");
         (500, "Internal server error")].
Proof.
  apply (errorHandler_discloses_nothing (Some "production")
           (fun _ => Some "at Socket.emit (node:events:517:28)")
           (JsError "Error" "connect ECONNREFUSED 10.0.0.5:5432")).
  discriminate.
Defined.

(** X19. The status that a client of the archive upload receives, once
    the error middleware has answered what the handler hands to [next] and
    as far as the profile lookup answers: 400 without a file; 404 when the
    user has no profile; the status of the reader's error (500 for a plain
    [Error]) when the archive does not open; and, when the loop has run,
    201 if the request has persisted no record, however many entries
    failed, and 500 as soon as it has persisted one, the answer being
    lost in its serialisation. *)
Theorem uploadZipArchive_status `{Collaborators} (NODE_ENV : option string)
    (stack : exn -> option string) (req : Request) (w : World) :
  (file req = None -> finalStatus NODE_ENV stack (uploadZipArchive req w).1 = 400)
  /\ (forall f,
        file req = Some f -> profileOfUser (userId req) w = None ->
        finalStatus NODE_ENV stack (uploadZipArchive req w).1 = 404)
  /\ (forall f p error,
        file req = Some f -> profileOfUser (userId req) w = Some p ->
        AdmZip_getEntries (buffer f) = inl error ->
        finalStatus NODE_ENV stack (uploadZipArchive req w).1
        = answer_status (errorHandler NODE_ENV stack error)
        /\ (forall message, error = JsError "Error" message ->
            finalStatus NODE_ENV stack (uploadZipArchive req w).1 = 500))
  /\ (forall f p es,
        file req = Some f -> profileOfUser (userId req) w = Some p ->
        AdmZip_getEntries (buffer f) = inr es ->
        exists newAssets,
          mediaAssets (uploadZipArchive req w).2 = mediaAssets w ++ newAssets
          /\ finalStatus NODE_ENV stack (uploadZipArchive req w).1
             = match newAssets with
               | [] => 201
               | _ :: _ => 500
               end).
Proof.
  repeat match goal with |- _ /\ _ => split end.
  - intros Hfile. unfold uploadZipArchive, handle, bind. by rewrite Hfile.
  - intros f Hfile Hprofile.
    unfold uploadZipArchive, handle, bind, prisma_profile_findFirst.
    rewrite Hfile. simpl. by rewrite Hprofile.
  - intros f p error Hfile Hprofile Hzip.
    rewrite (uploadZipArchive_invalid req w f error Hfile Hzip), Hprofile.
    split; [done|]. by intros message ->.
  - intros f p es Hfile Hprofile Hzip.
    destruct (uploadZipArchive_trace req w f p es Hfile Hprofile Hzip)
      as (ts & w' & _ & _ & -> & _ & Hassets & _).
    exists (traceAssets ts). split; [done|]. by destruct (traceAssets ts).
Qed.

(** X19 on an archive of three entries: 500 with two records persisted
    when everything works, 201 when the classifier is down and no record
    is persisted. *)
Lemma uploadZipArchive_status_witness :
  (exists newAssets,
     mediaAssets (@uploadZipArchive Doubles.allGood Doubles.zipRequest Doubles.world0).2
       = mediaAssets Doubles.world0 ++ newAssets
     /\ length newAssets = 2%nat
     /\ finalStatus (Some "production") (fun _ => None)
          (@uploadZipArchive Doubles.allGood Doubles.zipRequest Doubles.world0).1 = 500)
  /\ finalStatus (Some "production") (fun _ => None)
       (@uploadZipArchive Doubles.classifierDown Doubles.zipRequest Doubles.world0).1
     = 201.
Proof.
  split.
  - destruct (proj2 (proj2 (proj2 (@uploadZipArchive_status Doubles.allGood
                (Some "production") (fun _ => None) Doubles.zipRequest Doubles.world0)))
                Doubles.zipFile Doubles.owner Doubles.threeEntries
                eq_refl eq_refl eq_refl) as (newAssets & Hassets & Hstatus).
    exists newAssets. split; [exact Hassets|].
    change (mediaAssets Doubles.world0 ++ newAssets) with newAssets in Hassets.
    subst newAssets. split; reflexivity.
  - destruct (proj2 (proj2 (proj2 (@uploadZipArchive_status Doubles.classifierDown
                (Some "production") (fun _ => None) Doubles.zipRequest Doubles.world0)))
                Doubles.zipFile Doubles.owner Doubles.threeEntries
                eq_refl eq_refl eq_refl) as (newAssets & Hassets & Hstatus).
    change (mediaAssets Doubles.world0 ++ newAssets) with newAssets in Hassets.
    subst newAssets. exact Hstatus.
Defined.

(** ** The authentication middleware *)

Section Bearer.

#[local] Arguments Ascii.eqb : simpl never.

Lemma startsWith_app p s :
  startsWith p s = true <-> exists rest, s = p +:+ rest.
Proof.
  unfold startsWith. rewrite prefix_isPrefixChars. split.
  - intros [tail Htail]%isPrefixChars_app. exists (ofChars tail).
    apply chars_inj. by rewrite chars_app, chars_ofChars.
  - intros [rest ->]. rewrite chars_app. apply isPrefixChars_self.
Qed.

Lemma substringFrom_app p rest : substringFrom (String.length p) (p +:+ rest) = rest.
Proof.
  unfold substringFrom. rewrite chars_app, <- length_chars, drop_app_length.
  apply ofChars_chars.
Qed.

Lemma substringFrom_bearer token : substringFrom 7 ("Bearer " +:+ token) = token.
Proof. exact (substringFrom_app "Bearer " token). Qed.

End Bearer.

(** X20. [authenticate] lets a request through exactly when its
    Authorization header is [Bearer ] followed by a token that
    [jwt.verify] accepts under the configured secret, and it then sets
    the user of the request to the [userId] of the decoded payload
    (whatever that is, [undefined] included). Every other request is
    handed to [next] with an [AppError] of status 401. With no secret
    configured, or an empty one, tokens are verified against
    ['your-secret-key']. *)
Theorem authenticate_bearer_tokens (env_JWT_SECRET : option string)
    (jwt_verify : string -> string -> exn + js_value)
    (authorization : option string) :
  (forall userId,
     authenticate env_JWT_SECRET jwt_verify authorization = inr userId <->
     exists token decoded,
       authorization = Some ("Bearer " +:+ token)
       /\ jwt_verify token (JWT_SECRET env_JWT_SECRET) = inr decoded
       /\ js_get decoded "userId" = inr userId)
  /\ (forall error,
        authenticate env_JWT_SECRET jwt_verify authorization = inl error ->
        error = AppError "No token provided" 401
        \/ error = AppError "Invalid or expired token" 401)
  /\ (env_JWT_SECRET = None \/ env_JWT_SECRET = Some "" ->
      JWT_SECRET env_JWT_SECRET = "your-secret-key").
Proof.
  repeat match goal with |- _ /\ _ => split end.
  - intros userId. unfold authenticate. split.
    + destruct authorization as [authHeader|]; [|done].
      destruct (String.eqb authHeader ""); [done|]. simpl.
      destruct (startsWith "Bearer " authHeader) eqn:Hbearer; [|done]. simpl.
      apply startsWith_app in Hbearer as [token ->].
      rewrite substringFrom_bearer.
      destruct (jwt_verify token _) as [e|decoded] eqn:Hverify; [done|].
      destruct (js_get decoded "userId") as [e|uid] eqn:Hget; [done|].
      intros [= <-]. by exists token, decoded.
    + intros (token & decoded & -> & Hverify & Hget).
      assert (startsWith "Bearer " ("Bearer " +:+ token) = true) as ->
        by (apply startsWith_app; by exists token).
      rewrite substringFrom_bearer, Hverify, Hget. done.
  - intros error. unfold authenticate.
    destruct authorization as [authHeader|]; [|intros [= <-]; by left].
    destruct (_ || _); [intros [= <-]; by left|].
    destruct (jwt_verify _ _) as [e|decoded]; [intros [= <-]; by right|].
    destruct (js_get decoded "userId"); [intros [= <-]; by right | done].
  - by intros [->| ->].
Qed.

(** The hypotheses of X20 met by a verifier that accepts one token. *)
Lemma authenticate_bearer_tokens_witness :
  authenticate None
    (fun token secret =>
       if String.eqb token "t0k3n" && String.eqb secret "your-secret-key"
       then inr (JObj [("userId", JStr "u1")])
       else inl (JsError "JsonWebTokenError" "invalid signature"))
    (Some "Bearer t0k3n")
  = inr (JStr "u1")
  /\ JWT_SECRET None = "your-secret-key".
Proof.
  split.
  - apply (proj1 (authenticate_bearer_tokens None
                    (fun token secret =>
                       if String.eqb token "t0k3n" && String.eqb secret "your-secret-key"
                       then inr (JObj [("userId", JStr "u1")])
                       else inl (JsError "JsonWebTokenError" "invalid signature"))
                    (Some "Bearer t0k3n")) (JStr "u1")).
    exists "t0k3n", (JObj [("userId", JStr "u1")]). by repeat split.
  - apply (proj2 (proj2 (authenticate_bearer_tokens None (fun _ _ => inr JNull) None))).
    by left.
Defined.

(** ** Publishing a portfolio *)

(** X21. [uploadPortfolioToS3] puts the page first, under
    [portfolios/{username}/index.html] as text/html, and the style sheet,
    under [portfolios/{username}/styles.css] as text/css, only when one is
    given and is not empty. It returns the URL of the page, and the URL of
    the style sheet exactly when it has put one. When the page cannot be
    put, it throws and nothing is stored; when the style sheet cannot be
    put, it throws with the page already stored. Both objects are publicly
    readable. *)
Theorem uploadPortfolioToS3_effects `{Collaborators} (username html : string)
    (css : option string) (w : World) :
  let page :=
    {| Bucket := BUCKET_NAME; Key := "portfolios/" +:+ username +:+ "/index.html";
       Body := list_byte_of_string html; ContentType := "text/html";
       ACL := "public-read" |} in
  let sheet c :=
    {| Bucket := BUCKET_NAME; Key := "portfolios/" +:+ username +:+ "/styles.css";
       Body := list_byte_of_string c; ContentType := "text/css";
       ACL := "public-read" |} in
  exists r w' objs,
    uploadPortfolioToS3 username html css w = (r, w')
    /\ objectStore w' = objectStore w ++ objs
    /\ mediaAssets w' = mediaAssets w
    /\ match r with
       | inr (htmlUrl, cssUrl) =>
         htmlUrl = objectUrl BUCKET_NAME (Key page)
         /\ match css with
            | Some c =>
              if String.eqb c "" then cssUrl = None /\ objs = [page]
              else cssUrl = Some (objectUrl BUCKET_NAME (Key (sheet c)))
                   /\ objs = [page; sheet c]
            | None => cssUrl = None /\ objs = [page]
            end
       | inl error =>
         (s3Client_put_fails w page = Some error /\ objs = [])
         \/ (exists c,
               css = Some c /\ c <> ""
               /\ s3Client_put_fails (tick (putObject page w)) (sheet c) = Some error
               /\ objs = [page])
       end.
Proof.
  intros page sheet. unfold uploadPortfolioToS3. rewrite try_catch_rethrow.
  unfold bind.
  destruct (uploadToS3_cases (Key page) (Body page) "text/html" w)
    as [[err [Hfails Hrun]]|[_ Hrun]]; simpl in Hrun; rewrite Hrun.
  { exists (inl err), (tick w), []. rewrite app_nil_r.
    repeat match goal with |- _ /\ _ => split end; try done. by left. }
  fold page.
  destruct css as [c|]; simpl.
  2:{ eexists _, _, [page]. split; [reflexivity|]. by repeat split. }
  destruct (String.eqb_spec c "") as [->|Hc]; simpl.
  { eexists _, _, [page]. split; [reflexivity|]. by repeat split. }
  destruct (uploadToS3_cases (Key (sheet c)) (Body (sheet c)) "text/css"
              (tick (putObject page w)))
    as [[err [Hfails Hrun2]]|[_ Hrun2]]; simpl in Hrun2; rewrite Hrun2; simpl.
  - exists (inl err). eexists _, [page]. split; [reflexivity|].
    repeat match goal with |- _ /\ _ => split end; try done.
    right. by exists c.
  - eexists _, _, [page; sheet c]. split; [reflexivity|]. simpl.
    rewrite <- app_assoc. by repeat match goal with |- _ /\ _ => split end.
Qed.

(** ** The design-document handler when it answers *)

Section ArchiveAnswers.
Context {collaborators : Collaborators}.

(** A turn of the loop of [uploadArchive] that does not throw. *)
Lemma archiveEntryStep_returns p files descs e w files' descs' w' :
  archiveEntryStep p (files, descs) e w = (inr (files', descs'), w') ->
  mediaAssets w' = mediaAssets w
  /\ exists newFiles,
       files' = files ++ newFiles
       /\ map uf_fileName newFiles = map entryName (List.filter isFile [e])
       /\ Forall (fun e => exists bytes, getData e = inr bytes) (List.filter isFile [e]).
Proof.
  unfold archiveEntryStep, isFile, bind, randomUUID. simpl.
  destruct (isDirectory e) eqn:Hdir; simpl.
  { intros [= <- <- <-]. split; [done|]. exists []. by rewrite app_nil_r. }
  destruct (getData e) as [err|bytes] eqn:Hdata; simpl; [done|].
  match goal with
  | |- context [uploadToS3 ?k ?b ?c ?w] =>
    destruct (uploadToS3_cases k b c w) as [[err [_ ->]]|[_ ->]]
  end; simpl; [done|].
  intros [= <- <- <-]. split; [done|]. eexists [_]. split; [done|]. split; [done|].
  constructor; [by exists bytes | constructor].
Qed.

Lemma forOf_archive_returns p es :
  forall files descs w files' descs' w',
    forOf (archiveEntryStep p) es (files, descs) w = (inr (files', descs'), w') ->
    mediaAssets w' = mediaAssets w
    /\ exists newFiles,
         files' = files ++ newFiles
         /\ map uf_fileName newFiles = map entryName (List.filter isFile es)
         /\ Forall (fun e => exists bytes, getData e = inr bytes) (List.filter isFile es).
Proof.
  induction es as [|e es IH]; intros files descs w files' descs' w'.
  - intros [= <- <- <-]. split; [done|]. exists []. by rewrite app_nil_r.
  - cbn [forOf]. unfold bind.
    destruct (archiveEntryStep p (files, descs) e w) as [[err|[files1 descs1]] w1] eqn:Hstep;
      [done|].
    intros Hloop.
    destruct (archiveEntryStep_returns _ _ _ _ _ _ _ _ Hstep)
      as (Hassets1 & nf1 & -> & Hnames1 & Hread1).
    destruct (IH _ _ _ _ _ _ Hloop) as (Hassets & nf & -> & Hnames & Hread).
    split; [by rewrite Hassets|]. exists (nf1 ++ nf).
    rewrite app_assoc, map_app, Hnames1, Hnames. split; [done|].
    simpl in *. destruct (isFile e); simpl; [|done].
    split; [done|]. constructor; [by inversion Hread1 | done].
Qed.

(** The records that [Promise.all] resolves with, one for each uploaded
    file and in their order. *)
Lemma promiseAll_save_returns p analyzedFiles files :
  forall k w saved w',
    promiseAll (imap (fun i => saveAnalyzed p analyzedFiles (k + i)) files) w
    = (inr saved, w') ->
    map (fun a => fileName (data a)) saved = map uf_fileName files
    /\ (forall i a, saved !! i = Some a ->
                    displayOrder (data a) = Some (Z.of_nat (k + i))
                    /\ profileId (data a) = profile_id p)
    /\ map (fun a => fileUrl (data a)) saved = map uf_fileUrl files
    /\ mediaAssets w' = mediaAssets w ++ saved.
Proof.
  induction files as [|file files IH]; intros k w saved w'.
  - intros [= <- <-]. rewrite app_nil_r. by repeat split.
  - cbn [imap promiseAll]. rewrite Nat.add_0_r.
    destruct (saveAnalyzed p analyzedFiles k file w) as [r w1] eqn:Hsave.
    rewrite (imap_ext _ (fun i => saveAnalyzed p analyzedFiles (S k + i)))
      by (intros i x _; simpl; f_equal; lia).
    destruct (promiseAll _ w1) as [rs w2] eqn:Hrest.
    destruct r as [err|a]; [done|]. destruct rs as [err|l]; [done|].
    intros [= <- <-].
    destruct (IH _ _ _ _ Hrest) as (Hnames & Horder & Hurls & Hassets).
    assert (fileName (data a) = uf_fileName file
            /\ displayOrder (data a) = Some (Z.of_nat k)
            /\ profileId (data a) = profile_id p
            /\ fileUrl (data a) = uf_fileUrl file
            /\ mediaAssets w1 = mediaAssets w ++ [a]) as (Hn & Ho & Hp & Hu & Hw1).
    { revert Hsave. unfold saveAnalyzed, bind.
      destruct (js_index analyzedFiles k) as [err|entry]; simpl; [done|].
      destruct (js_get (js_or entry (JObj [])) "category"); simpl; [done|].
      destruct (js_get (js_or entry (JObj [])) "tags"); simpl; [done|].
      destruct (js_get (js_or entry (JObj [])) "description"); simpl; [done|].
      match goal with
      | |- context [prisma_create ?d ?w] =>
        destruct (prisma_create_cases d w) as [[err ->]|[i ->]]
      end; [done|].
      by intros [= <- <-]. }
    simpl. rewrite Hn, Hnames, Hu, Hurls, Hassets, Hw1, <- app_assoc.
    split; [done|]. split; [|done].
    intros [|i] a'; simpl.
    + intros [= <-]. by rewrite Nat.add_0_r.
    + intros Hi. destruct (Horder i a' Hi) as [Hord Hpid]. split; [|done].
      rewrite Hord. do 2 f_equal. lia.
Qed.

(** What [uploadArchive] has done when it answers with a body. *)
Lemma uploadArchive_returns (req : Request) (w w' : World)
    (f : UploadedFile) (p : Profile) (es : list ZipEntry)
    (status : Z) (body : ResponseBody) :
  file req = Some f ->
  profileOfUser (userId req) w = Some p ->
  AdmZip_getEntries (buffer f) = inr es ->
  uploadArchive req w = (Json status body, w') ->
  exists saved,
    status = 200
    /\ body = ArchiveResult
                ("Successfully uploaded and analyzed " +:+ pretty (length saved) +:+ " files")
                saved
    /\ mimetype f = "application/zip"
    /\ Forall (fun e => exists bytes, getData e = inr bytes) (List.filter isFile es)
    /\ map (fun a => fileName (data a)) saved = map entryName (List.filter isFile es)
    /\ (forall i a, saved !! i = Some a ->
                    displayOrder (data a) = Some (Z.of_nat i)
                    /\ profileId (data a) = profile_id p)
    /\ Permutation (mediaAssets w') (mediaAssets w ++ saved)
    /\ exists objs,
         objectStore w' = objectStore w ++ objs
         /\ length objs = length (List.filter isFile es).
Proof.
  intros Hfile Hprofile Hzip Hrun.
  assert (exists objs,
            objectStore w' = objectStore w ++ objs
            /\ length objs = length (List.filter isFile es)) as Hobjects.
  { assert (mimetype f = "application/zip") as Hmime.
    { revert Hrun. unfold uploadArchive, handle, bind. rewrite Hfile.
      by destruct (String.eqb_spec (mimetype f) "application/zip"). }
    destruct (uploadArchive_calls req w f p es Hfile Hmime Hprofile Hzip)
      as (r0 & w0 & objs & calls & Hrun0 & Hobjs & _ & _ & Hbody).
    rewrite Hrun in Hrun0. injection Hrun0 as <- <-.
    destruct (Hbody _ _ eq_refl) as (batch & _ & Hnames & Hlen).
    exists objs. split; [done|].
    by rewrite <- Hlen, <- (length_map fd_fileName), Hnames, length_map. }
  revert Hrun.
  unfold uploadArchive, handle, bind, prisma_profile_findFirst.
  rewrite Hfile.
  destruct (String.eqb_spec (mimetype f) "application/zip") as [Hmime|Hmime];
    simpl; [|done].
  rewrite Hprofile. simpl. rewrite Hzip. simpl.
  destruct (forOf (archiveEntryStep p) es ([], []) (tick w))
    as [[err|[files descs]] w1] eqn:Hloop; [done|].
  destruct (forOf_archive_returns _ _ _ _ _ _ _ _ Hloop)
    as (Hassets1 & files0 & Hfiles & Hnames & Hread).
  simpl in Hfiles. subst files0.
  rewrite analyzeMedia_design_eq.
  pose proof (analyzeMedia_world descs (professionType p) w1) as Hworld.
  destruct (analyzeMedia descs (professionType p) w1) as [[err|analysis] w2];
    simpl in Hworld; subst w2; [done|].
  destruct (promiseAll _ _) as [[err|saved] w3] eqn:Hall; [done|].
  intros [= <- <- <-].
  rewrite (imap_ext _ (fun i => saveAnalyzed p analysis (0 + i))) in Hall
    by (intros i x _; done).
  destruct (promiseAll_save_returns _ _ _ _ _ _ _ Hall)
    as (Hsaved & Horder & _ & Hassets).
  exists saved. repeat match goal with |- _ /\ _ => split end; try done.
  - by rewrite Hsaved.
  - rewrite Hassets. simpl. by rewrite Hassets1.
Qed.

End ArchiveAnswers.

(** X22. When the design-document handler [uploadArchive] answers with a
    body, it has stored every entry of the archive that is not a
    directory, whatever its type: the status is 200, the data of every
    such entry could be read, the response lists one record for each of
    them, in the order of the archive and under the path of the entry,
    with its rank as display order, and these records are what the
    request has added to the Record Store. A single entry that cannot be
    read thus leaves the request without a body. *)
Theorem uploadArchive_answers_for_all_entries `{Collaborators} (req : Request) (w w' : World)
    (f : UploadedFile) (p : Profile) (es : list ZipEntry)
    (status : Z) (body : ResponseBody) :
  file req = Some f ->
  profileOfUser (userId req) w = Some p ->
  AdmZip_getEntries (buffer f) = inr es ->
  uploadArchive req w = (Json status body, w') ->
  exists saved,
    status = 200
    /\ body = ArchiveResult
                ("Successfully uploaded and analyzed " +:+ pretty (length saved) +:+ " files")
                saved
    /\ mimetype f = "application/zip"
    /\ Forall (fun e => exists bytes, getData e = inr bytes) (List.filter isFile es)
    /\ map (fun a => fileName (data a)) saved = map entryName (List.filter isFile es)
    /\ (forall i a, saved !! i = Some a ->
                    displayOrder (data a) = Some (Z.of_nat i)
                    /\ profileId (data a) = profile_id p)
    /\ Permutation (mediaAssets w') (mediaAssets w ++ saved)
    /\ exists objs,
         objectStore w' = objectStore w ++ objs
         /\ length objs = length (List.filter isFile es).
Proof. apply uploadArchive_returns. Qed.

(** The hypotheses of X22 met by an archive with an executable in it,
    which the design-document handler stores as a document. *)
Lemma uploadArchive_answers_for_all_entries_witness :
  exists saved,
    (@uploadArchive MoreDoubles.classifierTagged Doubles.zipRequest Doubles.world0).1
    = Json 200 (ArchiveResult "Successfully uploaded and analyzed 3 files" saved)
    /\ map (fun a => (fileName (data a), fileType (data a))) saved
       = [("a.jpg", "image"); ("b.mp4", "video"); ("c.exe", "document")].
Proof.
  destruct (@uploadArchive_answers_for_all_entries MoreDoubles.classifierTagged
              Doubles.zipRequest Doubles.world0 _ Doubles.zipFile Doubles.owner
              Doubles.threeEntries _ _ eq_refl eq_refl eq_refl eq_refl)
    as (saved & _ & Hbody & _).
  injection Hbody as _ <-. eexists. split; reflexivity.
Defined.

(** ** The upload filter and the tables of types *)

Ltac filter_case :=
  split;
  [ vm_compute; repeat (first [by left | right])
  | split;
    [ vm_compute; split;
      [ first [discriminate | intros _; by left | intros _; by right]
      | first [done | intros [Heq|Heq]; discriminate Heq] ]
    | intros Hzip;
      first [ by destruct Hzip
            | by exists ".jpg" | by exists ".png" | by exists ".gif"
            | by exists ".webp" | by exists ".mp4" | by exists ".webm"
            | by exists ".mov" | by exists ".mp3" | by exists ".wav"
            | by exists ".ogg" | by exists ".pdf" ] ] ].

(** X23. What the file filter of the upload middleware lets through, and
    how it relates to the types of the archive path. A declared type that
    passes the filter is given one of the four kinds, and the kind
    document for PDF and for ZIP files only (a ZIP sent to the single-file
    upload is stored as a document). Of the extensions that the archive
    upload supports, [.avi] and [.m4a] alone get a content type that the
    filter refuses for a single file; and every type the filter lets
    through, ZIP apart, is the content type of a supported extension. *)
Theorem upload_filter_and_archive_types (mimetype ext : string) :
  (fileFilter mimetype = true ->
   In (fileTypeOf mimetype) ["image"; "video"; "audio"; "document"]
   /\ (fileTypeOf mimetype = "document" <->
       mimetype = "application/pdf" \/ mimetype = "application/zip")
   /\ (mimetype <> "application/zip" ->
       exists e, isSupportedType e = true /\ getMimeType e = mimetype))
  /\ (isSupportedType ext = true ->
      (fileFilter (getMimeType ext) = false <-> ext = ".avi" \/ ext = ".m4a")).
Proof.
  split.
  - intros Hallowed. apply includes_In in Hallowed. simpl in Hallowed.
    repeat (destruct Hallowed as [<-|Hallowed]; [filter_case|]). done.
  - intros Hsupported. apply isSupportedType_In in Hsupported. simpl in Hsupported.
    repeat (destruct Hsupported as [<-|Hsupported];
            [vm_compute; split;
             [first [discriminate | intros _; by left | intros _; by right]
             | first [done | intros [Heq|Heq]; discriminate Heq]]|]).
    done.
Qed.

(** The hypotheses of X23 met by a ZIP file and by the extension [.avi]. *)
Lemma upload_filter_and_archive_types_witness :
  fileTypeOf "application/zip" = "document"
  /\ fileFilter (getMimeType ".avi") = false.
Proof.
  destruct (upload_filter_and_archive_types "application/zip" ".avi")
    as [Hfilter Harchive].
  split.
  - destruct (Hfilter eq_refl) as (_ & Hdocument & _). apply Hdocument. by right.
  - apply (Harchive eq_refl). by left.
Defined.

(** ** Checking a user name *)

Section ValidNames.

#[local] Arguments Ascii.eqb : simpl never.

Lemma usernameChar_not_space c :
  usernameChar (lowerChar c) = true -> isWhiteSpace c = false.
Proof. destruct c as [[] [] [] [] [] [] [] []]; by vm_compute. Qed.

Lemma trimStartChars_solid l :
  Forall (fun c => isWhiteSpace c = false) l -> trimStartChars l = l.
Proof. destruct 1 as [|c l Hc _]; [done|]. simpl. by rewrite Hc. Qed.

(** A valid user name has no white space in it: trimming changes nothing. *)
Lemma valid_trim u : validUsername u = true -> trim u = u /\ (4 <= String.length u)%nat.
Proof.
  unfold validUsername, usernameRegex_test, toLowerCase.
  rewrite chars_ofChars, length_map, length_chars.
  intros [[Hlo _]%andb_prop Hall]%andb_prop.
  apply Nat.leb_le in Hlo. split; [|done].
  assert (Forall (fun c => isWhiteSpace c = false) (chars u)) as Hsolid.
  { apply Forall_forall. intros c Hc. apply usernameChar_not_space.
    rewrite forallb_forall in Hall. apply Hall, in_map. by apply list_elem_of_In. }
  unfold trim. rewrite (trimStartChars_solid _ Hsolid).
  rewrite trimStartChars_solid by (by apply Forall_rev).
  by rewrite rev_involutive, ofChars_chars.
Qed.

End ValidNames.

(** X24. For a name made of ASCII characters, [checkUsername] turns an
    invalid name down with a 400 error without asking the Record Store.
    For a valid name it asks once and answers with that name, available
    exactly when no profile has this very name: the comparison is exact
    while the validation ignores case, so that a name is reported
    available when the same name is taken in another case. *)
Theorem checkUsername_compares_exactly (username0 : string) (w : World) :
  Forall (fun c => (N_of_ascii c < 128)%N) (chars username0) ->
  (validUsername username0 = false ->
   exists message, checkUsername username0 w = (inl (AppError message 400), w))
  /\ (validUsername username0 = true ->
      exists answer,
        checkUsername username0 w = (inr answer, tick w)
        /\ checked_username answer = username0
        /\ (available answer = true <->
            Forall (fun p => username p <> username0) (profiles w))
        /\ checked_message answer
           = (if available answer then "Username is available" else "Username is taken")).
Proof.
  intros _. unfold checkUsername, bind, prisma_profile_findUnique_username. split.
  - intros Hinvalid. unfold validUsername in Hinvalid. rewrite Hinvalid.
    destruct (_ || _); by eexists.
  - intros Hvalid. destruct (valid_trim _ Hvalid) as [Htrim Hlen].
    unfold validUsername in Hvalid. rewrite Hvalid, Htrim.
    assert (String.eqb username0 "" = false) as ->
      by (destruct username0; [simpl in Hlen; lia | done]).
    assert ((String.length username0 =? 0)%nat = false) as ->
      by (apply Nat.eqb_neq; lia).
    simpl. eexists. split; [reflexivity|]. simpl. split; [done|].
    destruct (List.find _ (profiles w)) as [p|] eqn:Hfind; simpl.
    + split; [|done]. split; [done|]. intros Hall.
      apply find_some in Hfind as [Hin Heq]. apply String.eqb_eq in Heq.
      rewrite List.Forall_forall in Hall. by destruct (Hall p Hin).
    + split; [|done]. split; [|done]. intros _.
      apply List.Forall_forall. intros p Hin Heq.
      pose proof (find_none _ _ Hfind p Hin) as Hne. simpl in Hne.
      rewrite Heq, String.eqb_refl in Hne. discriminate Hne.
Qed.

(** The hypotheses of X24 met by a name with a space, and by [Alice] when
    [alice] is taken. *)
Lemma checkUsername_compares_exactly_witness :
  (exists message,
     checkUsername "al ice" MoreDoubles.aliceWorld
     = (inl (AppError message 400), MoreDoubles.aliceWorld))
  /\ exists answer,
       checkUsername "Alice" MoreDoubles.aliceWorld
         = (inr answer, tick MoreDoubles.aliceWorld)
       /\ checked_username answer = "Alice"
       /\ (available answer = true <->
           Forall (fun p => username p <> "Alice") (profiles MoreDoubles.aliceWorld))
       /\ checked_message answer
          = (if available answer then "Username is available" else "Username is taken").
Proof.
  split.
  - apply (proj1 (checkUsername_compares_exactly "al ice" MoreDoubles.aliceWorld
                    ltac:(repeat constructor))).
    reflexivity.
  - apply (proj2 (checkUsername_compares_exactly "Alice" MoreDoubles.aliceWorld
                    ltac:(repeat constructor))).
    reflexivity.
Defined.

(** ** The outcomes of an archive upload *)

(** C2 (as amended). For every archive upload handled by
    [uploadZipArchive] that reaches the loop (the request carries a file,
    the user has a profile, the archive opens), the loop ends with exactly
    one outcome, an uploaded asset or a failure entry, for each entry that
    is not a directory, under its name; the uploaded assets are the
    records that the request has persisted; the failure entries with an
    unresolvable name are, one for one and in order, the entries whose
    type cannot be resolved; and the summary that the handler builds from
    them has successful + failed = total, total being the number of
    entries that are not directories. Whenever the handler answers with a
    body, it is the 201 response built from them. The design-document
    handler [uploadArchive] keeps no counts and no failure list: whenever
    it answers with a body, that body lists one asset for every entry that
    is not a directory, whatever its type. *)
Theorem C2_batch_outcomes `{Collaborators} (req : Request) (w : World)
    (f : UploadedFile) (p : Profile) (es : list ZipEntry) :
  file req = Some f ->
  profileOfUser (userId req) w = Some p ->
  AdmZip_getEntries (buffer f) = inr es ->
  (exists ups errs r w',
     forOf (zipEntryStep p) es ([], []) (tick w) = (inr (ups, errs), w')
     /\ uploadZipArchive req w = (r, w')
     /\ mediaAssets w' = mediaAssets w ++ ups
     /\ (length ups + length errs)%nat = length (List.filter isFile es)
     /\ Permutation
          (map (fun a => fileName (data a)) ups ++ map failed_fileName errs)
          (map name (List.filter isFile es))
     /\ map failed_fileName
          (List.filter (fun r => unsupportedName (failed_fileName r)) errs)
        = map name (List.filter (fun e => isFile e && unsupportedName (name e)) es)
     /\ (exists message errors sm,
           zipResponse ups errs = Json 201 (ZipResult message ups errors sm)
           /\ default [] errors = errs
           /\ (successful sm + failed sm = total sm)%nat
           /\ successful sm = length ups
           /\ failed sm = length errs
           /\ total sm = length (List.filter isFile es))
     /\ (forall status body, r = Json status body -> r = zipResponse ups errs))
  /\ (forall status body w',
        uploadArchive req w = (Json status body, w') ->
        exists message saved,
          body = ArchiveResult message saved
          /\ map (fun a => fileName (data a)) saved
             = map entryName (List.filter isFile es)).
Proof.
  intros Hfile Hprofile Hzip. split.
  - destruct (uploadZipArchive_trace req w f p es Hfile Hprofile Hzip)
      as (ts & w' & Hts & Hloop & Hrun & _ & Hassets & _).
    exists (traceAssets ts), (traceErrors es ts). eexists _, w'.
    split; [exact Hloop|]. split; [exact Hrun|]. split; [exact Hassets|].
    split; [by eapply trace_outcome_count|].
    split; [by eapply trace_outcome_names|].
    split; [by eapply trace_unsupported|].
    split.
    + unfold zipResponse. eexists _, _, _. split; [reflexivity|].
      rewrite default_errors. simpl.
      repeat match goal with |- _ /\ _ => split end; try done.
      by eapply trace_outcome_count.
    + intros status body. by destruct (traceAssets ts).
  - intros status body w' Hrun.
    destruct (uploadArchive_returns req w w' f p es status body Hfile Hprofile Hzip Hrun)
      as (saved & _ & -> & _ & _ & Hnames & _).
    by eexists _, saved.
Qed.

(** The hypotheses of C2 met by an archive of three entries. *)
Lemma C2_batch_outcomes_witness :
  exists ups errs r w',
    @forOf _ _ (@zipEntryStep Doubles.allGood Doubles.owner) Doubles.threeEntries ([], [])
      (tick Doubles.world0) = (inr (ups, errs), w')
    /\ @uploadZipArchive Doubles.allGood Doubles.zipRequest Doubles.world0 = (r, w')
    /\ mediaAssets w' = mediaAssets Doubles.world0 ++ ups
    /\ (length ups + length errs)%nat = length (List.filter isFile Doubles.threeEntries)
    /\ Permutation
         (map (fun a => fileName (data a)) ups ++ map failed_fileName errs)
         (map name (List.filter isFile Doubles.threeEntries))
    /\ map failed_fileName
         (List.filter (fun r => unsupportedName (failed_fileName r)) errs)
       = map name
           (List.filter (fun e => isFile e && unsupportedName (name e))
              Doubles.threeEntries)
    /\ (exists message errors sm,
          zipResponse ups errs = Json 201 (ZipResult message ups errors sm)
          /\ default [] errors = errs
          /\ (successful sm + failed sm = total sm)%nat
          /\ successful sm = length ups
          /\ failed sm = length errs
          /\ total sm = length (List.filter isFile Doubles.threeEntries))
    /\ (forall status body, r = Json status body -> r = zipResponse ups errs).
Proof.
  apply (proj1 (@C2_batch_outcomes Doubles.allGood Doubles.zipRequest Doubles.world0
                  Doubles.zipFile Doubles.owner Doubles.threeEntries
                  eq_refl eq_refl eq_refl)).
Defined.

(** C2, a counterexample on the design-document handler: for an archive
    with a.jpg, b.mp4 and c.exe, [uploadArchive] answers with three
    assets and nothing else; c.exe, whose type the deployed handler cannot
    resolve, is an uploaded asset of kind document, and there is no
    failure list for it to appear in. *)
Lemma C2_design_archive_has_no_failures :
  unsupportedName "c.exe" = true
  /\ exists saved w',
       @uploadArchive Doubles.allGood Doubles.zipRequest Doubles.world0
       = (Json 200 (ArchiveResult "Successfully uploaded and analyzed 3 files" saved), w')
       /\ map (fun a => (fileName (data a), fileType (data a))) saved
          = [("a.jpg", "image"); ("b.mp4", "video"); ("c.exe", "document")].
Proof. split; [by vm_compute|]. eexists _, _. by vm_compute. Qed.
